(** * Profile construction, resampling, shortening, grid sampling and layer
      filling of [antarctic_plots/profile.py]

    The development embeds the table-building functions of
    [src/antarctic_plots/profile.py] ([create_profile], [rel_dist], [cum_dist],
    [sample_grids], [fill_nans], [shorten], [make_data_dict] and the table
    pipelines of [plot_profile] and [plot_data]), with the region helper
    [alter_region] of [src/polartoolkit/utils.py] that the plots call for
    their location map, and proves what they compute.

    Conventions of the embedding:
    - a float64 is idealised as a real number; the missing value (NaN) of a
      pandas column is [None], so a table entry is a [cell := option R];
    - a raised Python exception is a value of [exn]; a function that can
      raise returns a [result];
    - numpy and pandas primitives ([linspace], [shift], [cumsum], [dropna],
      [sort_values], ...) are written out from their documented behaviour;
    - the cubic spline of scipy and the grid sampler of pygmt are external
      and enter as parameters. *)

From Stdlib Require Import Reals Lra Lia List String ZArith Bool Arith.
From Stdlib Require Import Permutation Sorting.Sorted.
From Stdlib Require DecimalString DecimalNat.
Import ListNotations.

Open Scope R_scope.

(* ------------------------------------------------------------------ *)
(** ** Exceptions and results *)

Inductive exn : Type :=
| ValueError
| KeyError
| IndexError
| AttributeError
| AssertionError
| TypeError
| NotImplementedError.

Inductive result (A : Type) : Type :=
| Ok (a : A)
| Raise (e : exn).

Arguments Ok {A} a.
Arguments Raise {A} e.

Definition bind {A B : Type} (m : result A) (k : A -> result B) : result B :=
  match m with
  | Ok a => k a
  | Raise e => Raise e
  end.

Notation "x <- m ;; k" := (bind m (fun x => k))
  (at level 61, m at next level, right associativity).

Definition exn_eqb (a b : exn) : bool :=
  match a, b with
  | ValueError, ValueError | KeyError, KeyError | IndexError, IndexError
  | AttributeError, AttributeError | AssertionError, AssertionError
  | TypeError, TypeError | NotImplementedError, NotImplementedError => true
  | _, _ => false
  end.

(** [try: m except e: h] *)
Definition try_except {A : Type} (m : result A) (e : exn) (h : result A)
  : result A :=
  match m with
  | Ok a => Ok a
  | Raise e' => if exn_eqb e' e then h else Raise e'
  end.

(* ------------------------------------------------------------------ *)
(** ** Cells: float64 entries with NaN *)

Definition cell : Type := option R.

Definition isna (c : cell) : bool :=
  match c with None => true | Some _ => false end.

Definition notna (c : cell) : bool := negb (isna c).

Definition lift2 (f : R -> R -> R) (a b : cell) : cell :=
  match a, b with
  | Some u, Some v => Some (f u v)
  | _, _ => None
  end.

Definition cell_add : cell -> cell -> cell := lift2 Rplus.
Definition cell_sub : cell -> cell -> cell := lift2 Rminus.

(** [c ** 2] *)
Definition cell_sqr (c : cell) : cell := option_map (fun u => u * u) c.

(** [np.sqrt]: NaN on a negative argument. *)
Definition cell_sqrt (c : cell) : cell :=
  match c with
  | Some u => if Rlt_dec u 0 then None else Some (sqrt u)
  | None => None
  end.

(** Comparisons of a column with a scalar are [False] on NaN. *)
Definition Rltb (u v : R) : bool := if Rlt_dec u v then true else false.
Definition Rleb (u v : R) : bool := if Rle_dec u v then true else false.

Definition cell_ltb (a b : cell) : bool :=
  match a, b with
  | Some u, Some v => Rltb u v
  | _, _ => false
  end.

Definition cell_eq_dec (a b : cell) : {a = b} + {a <> b}.
Proof.
  destruct a as [u|], b as [v|].
  - destruct (Req_dec_T u v) as [E|N].
    + left; now f_equal.
    + right; intro H; apply N; now inversion H.
  - right; discriminate.
  - right; discriminate.
  - now left.
Defined.

(** [np.sqrt((x - x0) ** 2 + (y - y0) ** 2)], the expression shared by
    [create_profile], [rel_dist] and [shorten]. *)
Definition euclid (x y x0 y0 : cell) : cell :=
  cell_sqrt (cell_add (cell_sqr (cell_sub x x0)) (cell_sqr (cell_sub y y0))).

(** The same distance on reals, used to state results. *)
Definition euclidean (x y x0 y0 : R) : R :=
  sqrt ((x - x0) * (x - x0) + (y - y0) * (y - y0)).

(* ------------------------------------------------------------------ *)
(** ** numpy *)

(** [np.linspace(start, stop, num)] with the default [endpoint=True]:
    [arange(0, num) * step + start] with [step = (stop - start) / (num - 1)];
    for [num = 1] the single sample is [start]; a negative [num] raises
    ValueError. *)
Definition linspace (start stop : R) (num : Z) : result (list R) :=
  if (num <? 0)%Z then Raise ValueError
  else
    let div := (num - 1)%Z in
    let delta := stop - start in
    let y := map INR (seq 0 (Z.to_nat num)) in
    if (0 <? div)%Z
    then Ok (map (fun k => k * (delta / IZR div) + start) y)
    else Ok (map (fun k => k * delta + start) y).

(** [np.linspace] on endpoints that may be NaN (every sample is then NaN). *)
Definition linspace_cell (start stop : cell) (num : Z) : result (list cell) :=
  match start, stop with
  | Some a, Some b => l <- linspace a b num ;; Ok (map Some l)
  | _, _ =>
      if (num <? 0)%Z then Raise ValueError
      else Ok (repeat None (Z.to_nat num))
  end.

(* ------------------------------------------------------------------ *)
(** ** pandas series primitives *)

(** [s.shift(1)]: every entry moves one row down, the first becomes NaN. *)
Definition shift1 (s : list cell) : list cell :=
  match s with
  | [] => []
  | _ :: _ => None :: removelast s
  end.

(** [s.cumsum()]: running sum that skips NaN and leaves NaN in place. *)
Fixpoint cumsum_from (acc : R) (s : list cell) : list cell :=
  match s with
  | [] => []
  | None :: t => None :: cumsum_from acc t
  | Some v :: t => Some (acc + v) :: cumsum_from (acc + v) t
  end.

Definition cumsum (s : list cell) : list cell := cumsum_from 0 s.

(** [s.min()] and [s.max()]: NaN entries are skipped, NaN when nothing is
    left. *)
Fixpoint series_min (s : list cell) : cell :=
  match s with
  | [] => None
  | c :: t =>
      match c, series_min t with
      | Some u, Some v => Some (Rmin u v)
      | Some u, None => Some u
      | None, m => m
      end
  end.

Fixpoint series_max (s : list cell) : cell :=
  match s with
  | [] => None
  | c :: t =>
      match c, series_max t with
      | Some u, Some v => Some (Rmax u v)
      | Some u, None => Some u
      | None, m => m
      end
  end.

(** Order of [sort_values]: ascending, NaN last. *)
Definition cell_leb (a b : cell) : bool :=
  match a, b with
  | Some u, Some v => Rleb u v
  | Some _, None => true
  | None, Some _ => false
  | None, None => true
  end.

Definition cell_eqb (a b : cell) : bool :=
  if cell_eq_dec a b then true else false.

(* ------------------------------------------------------------------ *)
(** ** Tables of points

    [create_profile] reads two columns [x], [y] of its vertex table and
    returns the three columns [x], [y], [dist] under a fresh RangeIndex
    ([reset_index(drop=True)]); a vertex table is a list of [Vertex] rows
    and a profile a list of [Row]s in index order. *)

Record Vertex : Type := mkVertex { vx : cell; vy : cell }.

Record Row : Type := mkRow { px : cell; py : cell; pdist : cell }.

(** [df.sort_values(by=["dist"])]: insertion into an ascending list, NaN
    last.  The insertion keeps rows of equal [dist] in their order; pandas
    does not fix that order, and the rows of equal [dist] that
    [create_profile] builds are equal rows. *)
Fixpoint insert_row (r : Row) (l : list Row) : list Row :=
  match l with
  | [] => [r]
  | h :: t =>
      if cell_leb (pdist r) (pdist h) then r :: h :: t
      else h :: insert_row r t
  end.

Definition sort_values (df : list Row) : list Row :=
  fold_right insert_row [] df.

(** [rel_dist(df, reverse)]: distance of every vertex to the previous row;
    the rows whose [rel_dist] is NaN are dropped by the final [dropna]. *)
Definition rel_dist (df : list Vertex) (reverse : bool)
  : list (Vertex * cell) :=
  let df1 := if reverse then rev df else df in
  let x_lag := shift1 (map vx df1) in
  let y_lag := shift1 (map vy df1) in
  let rel :=
    map (fun t : Vertex * (cell * cell) =>
           let '(v, (xl, yl)) := t in (v, euclid (vx v) (vy v) xl yl))
        (combine df1 (combine x_lag y_lag)) in
  filter (fun t => notna (snd t)) rel.

(** [cum_dist(df, reverse=...)]: [dist] is the running sum of [rel_dist]. *)
Definition cum_dist (df : list Vertex) (reverse : bool) : list Row :=
  let df1 := rel_dist df reverse in
  let dist := cumsum (map snd df1) in
  map (fun t : (Vertex * cell) * cell =>
         mkRow (vx (fst (fst t))) (vy (fst (fst t))) (snd t))
      (combine df1 dist).

(* ------------------------------------------------------------------ *)
(** ** Resampling of a vertex path *)

Fixpoint insert_cell (c : cell) (l : list cell) : list cell :=
  match l with
  | [] => [c]
  | h :: t => if cell_leb c h then c :: h :: t else h :: insert_cell c t
  end.

Definition sort_cells (l : list cell) : list cell :=
  fold_right insert_cell [] l.

Fixpoint remove_one (c : cell) (l : list cell) : list cell :=
  match l with
  | [] => []
  | h :: t => if cell_eq_dec c h then t else h :: remove_one c t
  end.

(** Labels of [r] that are left once every label of [l] has cancelled one
    equal label. *)
Fixpoint labels_minus (r l : list cell) : list cell :=
  match l with
  | [] => r
  | a :: l' => labels_minus (remove_one a r) l'
  end.

(** [idx.union(other)]: the sorted union; a repeated label keeps the larger
    of its two multiplicities. *)
Definition index_union (idx other : list cell) : list cell :=
  sort_cells (idx ++ labels_minus other idx)%list.

Fixpoint has_duplicates (l : list cell) : bool :=
  match l with
  | [] => false
  | h :: t => existsb (cell_eqb h) t || has_duplicates t
  end.

(** Two indexes with the same labels in the same order (NaN equal to NaN). *)
Fixpoint cells_eqb (a b : list cell) : bool :=
  match a, b with
  | [], [] => true
  | x :: a', y :: b' => cell_eqb x y && cells_eqb a' b'
  | _, _ => false
  end.

(** [df.reindex(new_index)] for a table indexed by [dist]: a copy of the
    table when the new index is identical to the index it has; otherwise
    ValueError on an axis with duplicate labels, and else one row per new
    label, a row of NaN for a label that the table does not have. *)
Definition reindex (df : list Row) (new_index : list cell)
  : result (list Row) :=
  if cells_eqb new_index (map pdist df) then Ok df
  else if has_duplicates (map pdist df) then Raise ValueError
  else
    Ok (map (fun d =>
               match find (fun r => cell_eqb (pdist r) d) df with
               | Some r => r
               | None => mkRow None None d
               end) new_index).

Definition methods : list string := ["points"; "shapefile"; "polyline"]%string.

(** A row whose two coordinates are present: a point the spline can use. *)
Definition known (r : Row) : bool := notna (px r) && notna (py r).

Section CreateProfile.

(** [.interpolate("cubic")] on a table indexed by [dist] that has entries
    to fill: the scipy spline, which may raise. *)
Variable cubic : list Row -> result (list Row).

(** [df.interpolate("cubic")]: an empty table comes back as it is; NaN
    among the labels of the index raises NotImplementedError; only NaN
    entries are filled, so a table without them comes back as it is, without
    a spline being built.  (The rows that reach it in [create_profile] have
    both coordinates or none.) *)
Definition interpolate (df : list Row) : result (list Row) :=
  match df with
  | [] => Ok df
  | _ :: _ =>
      if existsb (fun r => isna (pdist r)) df then Raise NotImplementedError
      else if forallb known df then Ok df
      else cubic df
  end.

(** The body of the [try] of [create_profile] for [num] given. *)
Definition resample (coords : list Row) (num : Z) : result (list Row) :=
  let df := coords in
  dist_resampled <-
    linspace_cell (series_min (map pdist coords))
                  (series_max (map pdist coords)) num ;;
  df0 <- reindex df (index_union (map pdist df) dist_resampled) ;;
  df1 <- interpolate df0 ;;
  Ok (filter (fun r => existsb (cell_eqb (pdist r)) dist_resampled) df1).

Definition create_profile (method : string)
    (start stop : option (R * R)) (num : option Z)
    (shapefile polyline : option (list Vertex)) (reverse : bool)
  : result (list Row) :=
  if negb (existsb (String.eqb method) methods) then Raise ValueError
  else
    coordinates <-
      (if String.eqb method "points" then
         let num := match num with None => 1000%Z | Some n => n end in
         match start, stop with
         | Some (sx, sy), Some (ex, ey) =>
             xs <- linspace sx ex num ;;
             ys <- linspace sy ey num ;;
             match combine xs ys with
             | [] => Raise IndexError
             | ((x0, y0) :: _) as pts =>
                 Ok (map (fun p : R * R =>
                            mkRow (Some (fst p)) (Some (snd p))
                                  (euclid (Some (fst p)) (Some (snd p))
                                          (Some x0) (Some y0))) pts)
             end
         | _, _ => Raise ValueError
         end
       else if String.eqb method "shapefile" then
         match shapefile with
         | None => Raise ValueError
         | Some shp => Ok (cum_dist shp reverse)
         end
       else
         match polyline with
         | None => Raise ValueError
         | Some pl => Ok (cum_dist pl reverse)
         end) ;;
    let coords := sort_values coordinates in
    if existsb (String.eqb method) ["shapefile"; "polyline"]%string then
      try_except
        (match num with
         | Some n => resample coords n
         | None => Ok coords
         end)
        ValueError (Ok coords)
    else Ok coords.

End CreateProfile.

(* ------------------------------------------------------------------ *)
(** ** DataFrames

    The tables consumed by [sample_grids], [fill_nans] and [shorten] carry
    any number of labelled columns.  A table keeps the name of its index, its
    column labels in order and its rows in order, every row being its index
    label followed by its entries in column order. *)

Record DataFrame : Type := mkDF {
  index_name : option string;
  columns : list string;
  rows : list (cell * list cell)
}.

Definition DataFrame_eq_dec (a b : DataFrame) : {a = b} + {a <> b}.
Proof.
  decide equality.
  - apply (list_eq_dec
             (fun p q : cell * list cell =>
                match cell_eq_dec (fst p) (fst q),
                      list_eq_dec cell_eq_dec (snd p) (snd q) with
                | left e1, left e2 =>
                    left (match p, q return fst p = fst q -> snd p = snd q -> p = q
                          with (_, _), (_, _) =>
                            fun e1 e2 => f_equal2 pair e1 e2 end e1 e2)
                | right n, _ => right (fun e => n (f_equal fst e))
                | _, right n => right (fun e => n (f_equal snd e))
                end)).
  - apply (list_eq_dec string_dec).
  - decide equality. apply string_dec.
Defined.

(** Well-formed table: every row has one entry per column. *)
Definition wf (df : DataFrame) : Prop :=
  Forall (fun r => List.length (snd r) = List.length (columns df)) (rows df).

(** Position of the first column with a label. *)
Fixpoint col_pos (name : string) (cols : list string) : option nat :=
  match cols with
  | [] => None
  | c :: t => if String.eqb c name then Some 0%nat
              else option_map S (col_pos name t)
  end.

Definition has_col (df : DataFrame) (name : string) : bool :=
  existsb (String.eqb name) (columns df).

Definition row_get (k : nat) (r : cell * list cell) : cell :=
  nth k (snd r) None.

(** [df[name]] (KeyError) and [df.name] (AttributeError). *)
Definition column (df : DataFrame) (name : string) (e : exn)
  : result (list cell) :=
  match col_pos name (columns df) with
  | Some k => Ok (map (row_get k) (rows df))
  | None => Raise e
  end.

Definition getitem (df : DataFrame) (name : string) := column df name KeyError.
Definition getattr (df : DataFrame) (name : string) :=
  column df name AttributeError.

(** [s.iloc[0]] *)
Definition iloc0 (s : list cell) : result cell :=
  match s with
  | [] => Raise IndexError
  | c :: _ => Ok c
  end.

Fixpoint set_nth (k : nat) (v : cell) (l : list cell) : list cell :=
  match k, l with
  | _, [] => []
  | O, _ :: t => v :: t
  | S k', h :: t => h :: set_nth k' v t
  end.

(** [df[name] = s] for a series [s] on the index of [df]: the column is
    overwritten in place, or appended as the last column when it is new. *)
Definition setitem (df : DataFrame) (name : string) (s : list cell)
  : DataFrame :=
  match col_pos name (columns df) with
  | Some k =>
      mkDF (index_name df) (columns df)
           (map (fun p : (cell * list cell) * cell =>
                   (fst (fst p), set_nth k (snd p) (snd (fst p))))
                (combine (rows df) s))
  | None =>
      mkDF (index_name df) (columns df ++ [name])%list
           (map (fun p : (cell * list cell) * cell =>
                   (fst (fst p), (snd (fst p) ++ [snd p])%list))
                (combine (rows df) s))
  end.

(** Entries of a row under the labels different from [name]. *)
Fixpoint drop_label (name : string) (cols : list string) (vals : list cell)
  : list cell :=
  match cols, vals with
  | c :: cs, v :: vs =>
      if String.eqb c name then drop_label name cs vs
      else v :: drop_label name cs vs
  | _, _ => []
  end.

(** [df.drop(columns=name)]: KeyError when no column has the label. *)
Definition drop_columns (df : DataFrame) (name : string) : result DataFrame :=
  if has_col df name then
    Ok (mkDF (index_name df)
             (filter (fun c => negb (String.eqb c name)) (columns df))
             (map (fun r => (fst r, drop_label name (columns df) (snd r)))
                  (rows df)))
  else Raise KeyError.

(** Labels [0 .. n-1] of a RangeIndex. *)
Definition range_index (n : nat) : list cell :=
  map (fun i => Some (INR i)) (seq 0 n).

(** [df.reset_index()]: the index becomes the first column, named after the
    index, or ["index"] (["level_0"] when that label is taken) for an unnamed
    index; inserting a label that exists raises ValueError. *)
Definition reset_index (df : DataFrame) : result DataFrame :=
  let name :=
    match index_name df with
    | Some n => n
    | None => if has_col df "index"%string then "level_0"%string
              else "index"%string
    end in
  if has_col df name then Raise ValueError
  else
    Ok (mkDF None (name :: columns df)
             (map (fun p : cell * (cell * list cell) =>
                     (fst p, fst (snd p) :: snd (snd p)))
                  (combine (range_index (List.length (rows df))) (rows df)))).

Fixpoint remove_nth (k : nat) (l : list cell) : list cell :=
  match k, l with
  | _, [] => []
  | O, _ :: t => t
  | S k', h :: t => h :: remove_nth k' t
  end.

(** [df.set_index(name)]: the column becomes the index and leaves the
    columns. *)
Definition set_index (df : DataFrame) (name : string) : result DataFrame :=
  match col_pos name (columns df) with
  | Some k =>
      Ok (mkDF (Some name)
               (firstn k (columns df) ++ skipn (S k) (columns df))%list
               (map (fun r => (row_get k r, remove_nth k (snd r))) (rows df)))
  | None => Raise KeyError
  end.

Definition set_index_name (df : DataFrame) (n : option string) : DataFrame :=
  mkDF n (columns df) (rows df).

(** [pd.testing.assert_frame_equal(a, b)] *)
Definition assert_frame_equal (a b : DataFrame) : result unit :=
  if DataFrame_eq_dec a b then Ok tt else Raise AssertionError.

Fixpoint map2 {A B C : Type} (f : A -> B -> C) (l : list A) (m : list B)
  : list C :=
  match l, m with
  | a :: l', b :: m' => f a b :: map2 f l' m'
  | _, _ => []
  end.

(** [s.fillna(other)] for two series on the same index. *)
Definition fillna (s other : list cell) : list cell :=
  map2 (fun a b => if isna a then b else a) s other.

(* ------------------------------------------------------------------ *)
(** ** The table transformers of [profile.py], on values *)

(** [sample_grids(df, grid, sampled_name)].  [grid x y] is the value that
    [pygmt.grdtrack(..., no_skip=True)] samples at a point: one entry per
    point, NaN where the grid has no data; the coordinate columns are the
    default [coord_names = ("x", "y")].  [df2], [df3] and [df4] are fresh
    tables of the call, so the two assignments into them are written as
    functional updates. *)
Definition sample_grids_frame (df : DataFrame) (grid : cell -> cell -> cell)
    (sampled_name : string) : result DataFrame :=
  df1 <- try_except (drop_columns df sampled_name) KeyError (Ok df) ;;
  let df2 := df1 in
  df3 <- reset_index df2 ;;
  xs <- getitem df3 "x"%string ;;
  ys <- getitem df3 "y"%string ;;
  let sampled := map2 grid xs ys in
  let df3 := setitem df3 sampled_name sampled in
  df4 <- set_index df3 "index"%string ;;
  let df4 := set_index_name df4 (index_name df1) in
  d <- drop_columns df4 sampled_name ;;
  _ <- assert_frame_equal d df1 ;;
  Ok df4.

(** One pass of the loop of [fill_nans] over [enumerate(cols)]. *)
Fixpoint fill_nans_loop (cols : list string) (ijs : list (nat * string))
    (df : DataFrame) : result DataFrame :=
  match ijs with
  | [] => Ok df
  | (i, j) :: rest =>
      if Nat.eqb i 0 then fill_nans_loop cols rest df
      else
        s <- getitem df j ;;
        above <- getitem df (nth (i - 1) cols EmptyString) ;;
        fill_nans_loop cols rest (setitem df j (fillna s above))
  end.

(** The value that [fill_nans(df)] leaves in [df]. *)
Definition fill_nans_frame (df : DataFrame) : result DataFrame :=
  let cols := skipn 3 (columns df) in
  fill_nans_loop cols (combine (seq 0 (List.length cols)) cols) df.

(** [shorten(df, max_dist, min_dist)] *)
Definition shorten_frame (df : DataFrame) (max_dist min_dist : option R)
  : result DataFrame :=
  max_dist <- match max_dist with
              | None => d <- getattr df "dist"%string ;; Ok (series_max d)
              | Some m => Ok (Some m)
              end ;;
  min_dist <- match min_dist with
              | None => d <- getattr df "dist"%string ;; Ok (series_min d)
              | Some m => Ok (Some m)
              end ;;
  dist <- getattr df "dist"%string ;;
  let mask := map (fun d => cell_ltb d max_dist && cell_ltb min_dist d) dist in
  let shortened :=
    mkDF (index_name df) (columns df)
         (map snd (filter fst (combine mask (rows df)))) in
  xs <- getattr shortened "x"%string ;;
  x0 <- iloc0 xs ;;
  ys <- getattr shortened "y"%string ;;
  y0 <- iloc0 ys ;;
  Ok (setitem shortened "dist"%string
              (map2 (fun x y => euclid x y x0 y0) xs ys)).

(* ------------------------------------------------------------------ *)
(** ** The same functions on objects

    A Python name holds a reference.  The store lists the tables that exist;
    a reference is a position in it.  A function that builds its result
    allocates it at the end of the store; an assignment [df[j] = ...] into
    the argument overwrites the table the reference points to.
    [sample_grids] and [shorten] here give a call as a whole, the table it
    returns being the one object it leaves; [sample_grids_steps] and
    [shorten_steps] further down follow the statements of the two functions,
    with the tables they create on the way and the assignments into them. *)

Definition loc : Type := nat.
Definition heap : Type := list DataFrame.

Definition empty_frame : DataFrame := mkDF None [] [].

Definition deref (h : heap) (l : loc) : DataFrame := nth l h empty_frame.

Fixpoint store (h : heap) (l : loc) (v : DataFrame) : heap :=
  match l, h with
  | _, [] => []
  | O, _ :: t => v :: t
  | S l', d :: t => d :: store t l' v
  end.

Definition alloc (h : heap) (v : DataFrame) : loc * heap :=
  (List.length h, (h ++ [v])%list).

Definition sample_grids (h : heap) (df : loc) (grid : cell -> cell -> cell)
    (sampled_name : string) : result loc * heap :=
  match sample_grids_frame (deref h df) grid sampled_name with
  | Ok df4 => let (l, h') := alloc h df4 in (Ok l, h')
  | Raise e => (Raise e, h)
  end.

Definition shorten (h : heap) (df : loc) (max_dist min_dist : option R)
  : result loc * heap :=
  match shorten_frame (deref h df) max_dist min_dist with
  | Ok shortened => let (l, h') := alloc h shortened in (Ok l, h')
  | Raise e => (Raise e, h)
  end.

(** The loop of [fill_nans] assigns into the argument itself. *)
Fixpoint fill_nans_iter (cols : list string) (ijs : list (nat * string))
    (df : loc) (h : heap) : result unit * heap :=
  match ijs with
  | [] => (Ok tt, h)
  | (i, j) :: rest =>
      if Nat.eqb i 0 then fill_nans_iter cols rest df h
      else
        match getitem (deref h df) j with
        | Raise e => (Raise e, h)
        | Ok s =>
            match getitem (deref h df) (nth (i - 1) cols EmptyString) with
            | Raise e => (Raise e, h)
            | Ok above =>
                fill_nans_iter cols rest df
                  (store h df (setitem (deref h df) j (fillna s above)))
            end
        end
  end.

Definition fill_nans (h : heap) (df : loc) : result loc * heap :=
  let cols := skipn 3 (columns (deref h df)) in
  match fill_nans_iter cols (combine (seq 0 (List.length cols)) cols) df h with
  | (Ok _, h') => (Ok df, h')
  | (Raise e, h') => (Raise e, h')
  end.

(** A profile returned by [create_profile], as the table that the consumers
    receive: columns [x], [y], [dist] under a RangeIndex. *)
Definition to_frame (p : list Row) : DataFrame :=
  mkDF None ["x"; "y"; "dist"]%string
       (map (fun ir : cell * Row =>
               (fst ir, [px (snd ir); py (snd ir); pdist (snd ir)]))
            (combine (range_index (List.length p)) p)).

(** A vertex with both coordinates present. *)
Definition vertex_of (p : R * R) : Vertex :=
  mkVertex (Some (fst p)) (Some (snd p)).

(** Rows that a path contributes after its first vertex [prev]: every later
    vertex with the arc length accumulated so far, [acc] being the length
    before [prev]. *)
Fixpoint path_rows (prev : R * R) (acc : R) (vs : list (R * R)) : list Row :=
  match vs with
  | [] => []
  | v :: t =>
      let d := acc + euclidean (fst v) (snd v) (fst prev) (snd prev) in
      mkRow (Some (fst v)) (Some (snd v)) (Some d) :: path_rows v d t
  end.

(** What [rel_dist] keeps of a path after its first vertex [prev]: every
    later vertex with the length of the segment that ends at it. *)
Fixpoint path_steps (prev : R * R) (vs : list (R * R))
  : list (Vertex * cell) :=
  match vs with
  | [] => []
  | v :: t =>
      (vertex_of v, Some (euclidean (fst v) (snd v) (fst prev) (snd prev)))
        :: path_steps v t
  end.

(** Position of sample [i] of [N] between the endpoints, as a fraction of
    the way from start to stop. *)
Definition param (N : Z) (i : nat) : R :=
  if (1 <? N)%Z then INR i / IZR (N - 1) else 0.

(** The point at fraction [t] of the segment from [(sx, sy)] to [(ex, ey)],
    with its straight-line distance to [(sx, sy)]. *)
Definition points_row (sx sy ex ey t : R) : Row :=
  let x := sx + t * (ex - sx) in
  let y := sy + t * (ey - sy) in
  mkRow (Some x) (Some y) (Some (euclidean x y sx sy)).

(** The bounds that [shorten] filters with: the arguments, or the extremes
    of the [dist] column for an argument left at None. *)
Definition bound_max (dist : list cell) (max_dist : option R) : cell :=
  match max_dist with
  | None => series_max dist
  | Some m => Some m
  end.

Definition bound_min (dist : list cell) (min_dist : option R) : cell :=
  match min_dist with
  | None => series_min dist
  | Some m => Some m
  end.

(** [lo < d < hi], both comparisons strict. *)
Definition strictly_inside (lo hi d : cell) : Prop :=
  exists l h v, lo = Some l /\ hi = Some h /\ d = Some v /\ l < v < h.

(** The profile of the endpoints (0,0), (10,0) sampled at three points. *)
Definition profile_0_5_10 : DataFrame :=
  to_frame [mkRow (Some 0) (Some 0) (Some 0);
            mkRow (Some 5) (Some 0) (Some 5);
            mkRow (Some 10) (Some 0) (Some 10)].

(** The effect of one assignment [df[j] = df[j].fillna(df[cols[i - 1]])] on
    a row, [k] being the position of column [j]; and of the whole loop of
    [fill_nans] on a row of a table with [n] columns. *)
Definition fill_step (k : nat) (r : list cell) : list cell :=
  set_nth k (if isna (nth k r None) then nth (k - 1) r None
             else nth k r None) r.

Definition fill_row (n : nat) (r : list cell) : list cell :=
  fold_left (fun acc k => fill_step k acc) (seq 4 (n - 4)) r.

(** The table [df1] of [sample_grids]: [df] without the columns labelled
    [name], [df] itself when it has none. *)
Definition without_column (df : DataFrame) (name : string) : DataFrame :=
  if has_col df name then
    mkDF (index_name df)
         (filter (fun c => negb (String.eqb c name)) (columns df))
         (map (fun r => (fst r, drop_label name (columns df) (snd r)))
              (rows df))
  else df.

(** [df1] with the values sampled at its points as a last column. *)
Definition with_sampled (df1 : DataFrame) (grid : cell -> cell -> cell)
    (name : string) (kx ky : nat) : DataFrame :=
  mkDF (index_name df1) (columns df1 ++ [name])%list
       (map (fun r => (fst r,
                       (snd r ++ [grid (row_get kx r) (row_get ky r)])%list))
            (rows df1)).

(** A sampled profile of one row whose second and third layers have no
    data. *)
Definition layers_with_gaps : DataFrame :=
  mkDF None ["x"; "y"; "dist"; "L1"; "L2"; "L3"]%string
       [(Some 0, [Some 0; Some 0; Some 0; Some 7; None; None])].

(** A call of [create_profile] in one of the two vertex modes, on the
    vertices [vs] read from the shapefile or given as the polyline. *)
Definition vertex_profile (cubic : list Row -> result (list Row))
    (from_shapefile : bool) (vs : list Vertex) (num : option Z)
    (reverse : bool) : result (list Row) :=
  if from_shapefile
  then create_profile cubic "shapefile" None None num (Some vs) None reverse
  else create_profile cubic "polyline" None None num None (Some vs) reverse.

(** The un-resampled path of a vertex mode: [coords] of [create_profile]. *)
Definition unresampled (vs : list Vertex) (reverse : bool) : list Row :=
  sort_values (cum_dist vs reverse).

(** Order of two rows under [sort_values(by=["dist"])]. *)
Definition dist_le (a b : Row) : Prop := cell_leb (pdist a) (pdist b) = true.

(** Length of the polyline through the points, segment by segment. *)
Fixpoint path_length (pts : list (R * R)) : R :=
  match pts with
  | p :: ((q :: _) as t) =>
      euclidean (fst q) (snd q) (fst p) (snd p) + path_length t
  | _ => 0
  end.

(** The coordinates of a row, when both are present. *)
Definition row_point (r : Row) : option (R * R) :=
  match px r, py r with
  | Some x, Some y => Some (x, y)
  | _, _ => None
  end.

(** Order of two labels under an ascending sort with NaN last. *)
Definition cell_le (a b : cell) : Prop := cell_leb a b = true.

(** The sampling loop of [plot_profile] and [plot_data],
    [for k, v in layers_dict.items(): df = sample_grids(df, v["grid"],
    sampled_name=k)], over the items of the dictionary in order. *)
Definition sample_all (df : DataFrame)
    (items : list (string * (cell -> cell -> cell))) : result DataFrame :=
  fold_left (fun acc kv => df' <- acc ;; sample_grids_frame df' (snd kv) (fst kv))
            items (Ok df).

(** A table that [sample_grids] accepts: one entry per column in every
    row, an unnamed index, no column labelled ["index"], and coordinate
    columns [x] and [y] with the entries [xs] and [ys]. *)
Definition profile_table (df : DataFrame) (xs ys : list cell) : Prop :=
  wf df /\ index_name df = None /\ has_col df "index" = false
  /\ getitem df "x" = Ok xs /\ getitem df "y" = Ok ys.

(* ------------------------------------------------------------------ *)
(** ** [make_data_dict] *)

(** [f"{i}"] for an index of [enumerate]: the decimal digits of [i]. *)
Definition str (i : nat) : string :=
  DecimalString.NilEmpty.string_of_uint (Nat.to_uint i).

(** The inner dictionary of one data set, with its four fixed keys. *)
Record DataEntry (G : Type) : Type := mkEntry {
  entry_name : string;
  entry_grid : G;
  entry_color : string;
  entry_axis : Z
}.

Arguments mkEntry {G} _ _ _ _.
Arguments entry_name {G} _.
Arguments entry_grid {G} _.
Arguments entry_color {G} _.
Arguments entry_axis {G} _.

(** A Python dict, in insertion order: an assignment to a key that exists
    replaces its value in place. *)
Fixpoint dict_set {V : Type} (k : string) (v : V) (d : list (string * V))
  : list (string * V) :=
  match d with
  | [] => [(k, v)]
  | (k', v') :: t =>
      if String.eqb k' k then (k', v) :: t else (k', v') :: dict_set k v t
  end.

(** [l[i]] for a list and [i >= 0]. *)
Definition list_get {A : Type} (l : list A) (i : nat) : result A :=
  match nth_error l i with
  | Some a => Ok a
  | None => Raise IndexError
  end.

(** The dict comprehension of [make_data_dict] over [enumerate(names)]. *)
Fixpoint make_data_dict_loop {G : Type} (ijs : list (nat * string))
    (grids : list G) (colors : list string) (axes : option (list Z))
    (acc : list (string * DataEntry G)) : result (list (string * DataEntry G)) :=
  match ijs with
  | [] => Ok acc
  | (i, j) :: rest =>
      g <- list_get grids i ;;
      c <- list_get colors i ;;
      a <- match axes with
           | Some ax => list_get ax i
           | None => Ok 0%Z
           end ;;
      make_data_dict_loop rest grids colors axes
        (dict_set (str i) (mkEntry j g c a) acc)
  end.

Definition make_data_dict {G : Type} (names : list string) (grids : list G)
    (colors : list string) (axes : option (list Z))
  : result (list (string * DataEntry G)) :=
  make_data_dict_loop (combine (seq 0 (List.length names)) names)
                      grids colors axes [].

(** What the sampling loop reads from a data dictionary:
    [(k, v["grid"])] for every item. *)
Definition data_items {G : Type} (d : list (string * DataEntry G))
  : list (string * G) :=
  map (fun kv => (fst kv, entry_grid (snd kv))) d.

(** The lists fit the names: an entry for every index of [names]. *)
Definition fits {G : Type} (names : list string) (grids : list G)
    (colors : list string) (axes : option (list Z)) : Prop :=
  (List.length names <= List.length grids)%nat
  /\ (List.length names <= List.length colors)%nat
  /\ match axes with
     | Some ax => (List.length names <= List.length ax)%nat
     | None => True
     end.

(* ------------------------------------------------------------------ *)
(** ** The table pipelines of [plot_profile] and [plot_data]

    Both functions build their tables before they draw: the profile, the
    sampled layers and data, and the shortened tables.  Every table that is
    assigned into is a fresh one ([points.copy()], or the result of
    [sample_grids]), so the pipelines are written on values.  The
    dictionaries are those given by the caller, as the items
    [(k, v["grid"])] in order; [fillnans] and [clip] are the keyword
    arguments, [fillnans] being True when absent; [max_dist] and [min_dist]
    are None when absent. *)

(** Truth value of a keyword argument that is absent or a number. *)
Definition truthy (v : option R) : bool :=
  match v with
  | Some m => if Req_dec_T m 0 then false else true
  | None => false
  end.

(** [a or b] *)
Definition py_or (a b : option R) : option R :=
  if truthy a then a else b.

(** [if (kwargs.get("max_dist") or kwargs.get("min_dist")) is None:
       raise ValueError(msg)] *)
Definition clip_check (max_dist min_dist : option R) : result unit :=
  match py_or max_dist min_dist with
  | None => Raise ValueError
  | Some _ => Ok tt
  end.

(** [df_layers] and [df_data] of [plot_profile]. *)
Definition plot_profile_tables (cubic : list Row -> result (list Row))
    (method : string) (start stop : option (R * R)) (num : option Z)
    (shapefile polyline : option (list Vertex)) (reverse : bool)
    (layers_dict : list (string * (cell -> cell -> cell)))
    (data_dict : option (list (string * (cell -> cell -> cell))))
    (fillnans clip : bool) (max_dist min_dist : option R)
  : result (DataFrame * DataFrame) :=
  points <- create_profile cubic method start stop num shapefile polyline
                           reverse ;;
  let points := to_frame points in
  df_layers <- sample_all points layers_dict ;;
  df_layers <- (if fillnans then fill_nans_frame df_layers
                else Ok df_layers) ;;
  df_data <- match data_dict with
             | Some items => sample_all points items
             | None => Ok points
             end ;;
  if clip then
    _ <- clip_check max_dist min_dist ;;
    df_layers <- shorten_frame df_layers max_dist min_dist ;;
    df_data <- match data_dict with
               | Some _ => shorten_frame df_data max_dist min_dist
               | None => Ok df_data
               end ;;
    Ok (df_layers, df_data)
  else Ok (df_layers, df_data).

(** [df_data] of [plot_data]: the table is shortened whether [clip] is set
    or not. *)
Definition plot_data_table (cubic : list Row -> result (list Row))
    (method : string) (start stop : option (R * R)) (num : option Z)
    (shapefile polyline : option (list Vertex)) (reverse : bool)
    (data_dict : list (string * (cell -> cell -> cell)))
    (clip : bool) (max_dist min_dist : option R) : result DataFrame :=
  points <- create_profile cubic method start stop num shapefile polyline
                           reverse ;;
  let points := to_frame points in
  df_data <- sample_all points data_dict ;;
  _ <- (if clip then clip_check max_dist min_dist else Ok tt) ;;
  shorten_frame df_data max_dist min_dist.

(** Row [i] of the table that [plot_data] returns for a profile between two
    points: the sample at fraction [t], its distance [d] to the first row
    kept, and the values of the grids at the sample. *)
Definition data_row (sx sy ex ey : R)
    (items : list (string * (cell -> cell -> cell))) (i : nat) (t d : R)
  : cell * list cell :=
  let x := Some (sx + t * (ex - sx)) in
  let y := Some (sy + t * (ey - sy)) in
  (Some (INR i), ([x; y; Some d] ++ map (fun kv => snd kv x y) items)%list).

(** The values of stacked layers at one point after filling: every missing
    value takes the last value present above it, [prev] standing above the
    first layer. *)
Fixpoint fill_down_from (prev : cell) (l : list cell) : list cell :=
  match l with
  | [] => []
  | c :: t =>
      let v := match c with Some _ => c | None => prev end in
      v :: fill_down_from v t
  end.

Definition fill_down (l : list cell) : list cell := fill_down_from None l.

(** Row [i] of the layer table of [plot_profile] for a profile between two
    points: the sample at fraction [t] with its distance [d], and the values
    of the layers at the sample, filled downwards when [fillnans] is set. *)
Definition layer_row (sx sy ex ey : R)
    (layers : list (string * (cell -> cell -> cell))) (fillnans : bool)
    (i : nat) (t d : R) : cell * list cell :=
  let x := Some (sx + t * (ex - sx)) in
  let y := Some (sy + t * (ey - sy)) in
  let vals := map (fun kv => snd kv x y) layers in
  (Some (INR i),
   ([x; y; Some d] ++ (if fillnans then fill_down vals else vals))%list).

(* ------------------------------------------------------------------ *)
(** ** Regions: [alter_region] of [utils.py]

    A region is the tuple [(e, w, n, s)] of the code: the two bounds in x
    followed by the two bounds in y. *)

Definition Region : Type := (R * R * R * R)%type.

(** [int(x)] for a float: the integer part, rounded towards zero. *)
Definition py_int (x : R) : Z :=
  if Rle_dec 0 x then Int_part x else (- Int_part (- x))%Z.

(** [alter_region(starting_region, zoom, n_shift, w_shift, buffer)]: the
    altered region and the buffer region.  [print_reg] only logs. *)
Definition alter_region (starting_region : Region)
    (zoom n_shift w_shift buffer : R) : Region * (Z * Z * Z * Z) :=
  let '(starting_e, starting_w, starting_n, starting_s) := starting_region in
  let e := starting_e + zoom + w_shift in
  let w := starting_w - zoom + w_shift in
  let n := starting_n + zoom - n_shift in
  let s := starting_s - zoom - n_shift in
  let region := (e, w, n, s) in
  let buffer_region :=
    (py_int (e - buffer), py_int (w + buffer),
     py_int (n - buffer), py_int (s + buffer)) in
  (region, buffer_region).

(* ------------------------------------------------------------------ *)
(** ** The layer table of [plot_profile], on objects

    [df_layers = points.copy()], the sampling loop that rebinds [df_layers]
    to the table of each call, and [fill_nans(df_layers)], which assigns
    into the object that [df_layers] names at that moment. *)

(** [df.copy()] *)
Definition copy (h : heap) (df : loc) : loc * heap := alloc h (deref h df).

Fixpoint sample_loop (h : heap) (df : loc)
    (items : list (string * (cell -> cell -> cell))) : result loc * heap :=
  match items with
  | [] => (Ok df, h)
  | (k, v) :: rest =>
      match sample_grids h df v k with
      | (Ok df', h') => sample_loop h' df' rest
      | (Raise e, h') => (Raise e, h')
      end
  end.

Definition plot_profile_layers (h : heap) (points : loc)
    (layers_dict : list (string * (cell -> cell -> cell))) (fillnans : bool)
  : result loc * heap :=
  let (df_layers, h1) := copy h points in
  match sample_loop h1 df_layers layers_dict with
  | (Ok df_layers, h2) =>
      if fillnans then fill_nans h2 df_layers else (Ok df_layers, h2)
  | (Raise e, h2) => (Raise e, h2)
  end.

(* ------------------------------------------------------------------ *)
(** ** [sample_grids] and [shorten], statement by statement

    Every table that a statement of the two functions creates ([df1], [df2],
    [df3], [df4], the table handed to [assert_frame_equal]; the selection
    [df[...]] and its copy [shortened]) is an object of its own in the
    store, and the three assignments into a table, [df3[sampled_name] = ...],
    [df4.index.name = ...] and [shortened["dist"] = ...], overwrite the object
    that the name refers to.  An exception leaves the store as the statements
    before it made it. *)

Definition prog (A : Type) : Type := heap -> result A * heap.

Definition ret {A : Type} (a : A) : prog A := fun h => (Ok a, h).

Definition and_then {A B : Type} (m : prog A) (k : A -> prog B) : prog B :=
  fun h => match m h with
           | (Ok a, h') => k a h'
           | (Raise e, h') => (Raise e, h')
           end.

Notation "x <~ m ;; k" := (and_then m (fun x => k))
  (at level 61, m at next level, right associativity).

(** A new object holding [v]. *)
Definition new (v : DataFrame) : prog loc :=
  fun h => let (l, h') := alloc h v in (Ok l, h').

(** The table that a reference points to. *)
Definition read (l : loc) : prog DataFrame := fun h => (Ok (deref h l), h).

(** An assignment into the object at [l]. *)
Definition write (l : loc) (v : DataFrame) : prog unit :=
  fun h => (Ok tt, store h l v).

(** A computation on values, which may raise. *)
Definition lift {A : Type} (r : result A) : prog A := fun h => (r, h).

Definition sample_grids_steps (df : loc) (grid : cell -> cell -> cell)
    (sampled_name : string) : prog loc :=
  (* try: df1 = df.drop(columns=sampled_name)
     except KeyError: df1 = df.copy() *)
  d <~ read df ;;
  v1 <~ lift (try_except (drop_columns d sampled_name) KeyError (Ok d)) ;;
  df1 <~ new v1 ;;
  (* df2 = df1.copy() *)
  d1 <~ read df1 ;;
  df2 <~ new d1 ;;
  (* df3 = df2.reset_index() *)
  d2 <~ read df2 ;;
  v3 <~ lift (reset_index d2) ;;
  df3 <~ new v3 ;;
  (* points = df3[[x, y]].copy(); sampled = pygmt.grdtrack(...) *)
  d3 <~ read df3 ;;
  xs <~ lift (getitem d3 "x"%string) ;;
  ys <~ lift (getitem d3 "y"%string) ;;
  (* df3[sampled_name] = sampled[sampled_name] *)
  _ <~ write df3 (setitem d3 sampled_name (map2 grid xs ys)) ;;
  (* df4 = df3.set_index("index") *)
  d3 <~ read df3 ;;
  v4 <~ lift (set_index d3 "index"%string) ;;
  df4 <~ new v4 ;;
  (* df4.index.name = df1.index.name *)
  d4 <~ read df4 ;;
  d1 <~ read df1 ;;
  _ <~ write df4 (set_index_name d4 (index_name d1)) ;;
  (* pd.testing.assert_frame_equal(df4.drop(columns=sampled_name), df1) *)
  d4 <~ read df4 ;;
  v5 <~ lift (drop_columns d4 sampled_name) ;;
  dropped <~ new v5 ;;
  d5 <~ read dropped ;;
  d1 <~ read df1 ;;
  _ <~ lift (assert_frame_equal d5 d1) ;;
  (* return df4 *)
  ret df4.

(** The mask [(df.dist < max_dist) & (df.dist > min_dist)] of [shorten],
    after the two defaults. *)
Definition shorten_mask (df : DataFrame) (max_dist min_dist : option R)
  : result (list bool) :=
  max_dist <- match max_dist with
              | None => d <- getattr df "dist"%string ;; Ok (series_max d)
              | Some m => Ok (Some m)
              end ;;
  min_dist <- match min_dist with
              | None => d <- getattr df "dist"%string ;; Ok (series_min d)
              | Some m => Ok (Some m)
              end ;;
  dist <- getattr df "dist"%string ;;
  Ok (map (fun d => cell_ltb d max_dist && cell_ltb min_dist d) dist).

(** The distances that [shorten] computes from the first retained row. *)
Definition shorten_dist (shortened : DataFrame) : result (list cell) :=
  xs <- getattr shortened "x"%string ;;
  x0 <- iloc0 xs ;;
  ys <- getattr shortened "y"%string ;;
  y0 <- iloc0 ys ;;
  Ok (map2 (fun x y => euclid x y x0 y0) xs ys).

Definition shorten_steps (df : loc) (max_dist min_dist : option R)
  : prog loc :=
  (* shortened = df[(df.dist < max_dist) & (df.dist > min_dist)].copy() *)
  d <~ read df ;;
  mask <~ lift (shorten_mask d max_dist min_dist) ;;
  selection <~ new (mkDF (index_name d) (columns d)
                         (map snd (filter fst (combine mask (rows d))))) ;;
  ds <~ read selection ;;
  shortened <~ new ds ;;
  (* shortened["dist"] = np.sqrt(...) *)
  d' <~ read shortened ;;
  dist <~ lift (shorten_dist d') ;;
  _ <~ write shortened (setitem d' "dist"%string dist) ;;
  (* return shortened *)
  ret shortened.

(* ================================================================== *)
(** * Properties *)

(** ** Arithmetic on cells *)

Lemma Rleb_true (u v : R) : Rleb u v = true <-> u <= v.
Proof. unfold Rleb; destruct (Rle_dec u v); split; intros; try easy. Qed.

Lemma Rltb_true (u v : R) : Rltb u v = true <-> u < v.
Proof. unfold Rltb; destruct (Rlt_dec u v); split; intros; try easy. Qed.

Lemma Rltb_false (u v : R) : Rltb u v = false <-> ~ u < v.
Proof. unfold Rltb; destruct (Rlt_dec u v); split; intros; try easy. Qed.

Lemma cell_eqb_true (a b : cell) : cell_eqb a b = true <-> a = b.
Proof. unfold cell_eqb; destruct (cell_eq_dec a b); split; intros; try easy. Qed.

Lemma cell_eqb_refl (a : cell) : cell_eqb a a = true.
Proof. now apply cell_eqb_true. Qed.

Lemma sum_sqr_nonneg (a b : R) : 0 <= a * a + b * b.
Proof. nra. Qed.

Lemma euclid_some (x y x0 y0 : R) :
  euclid (Some x) (Some y) (Some x0) (Some y0) = Some (euclidean x y x0 y0).
Proof.
  unfold euclid, euclidean; simpl.
  destruct (Rlt_dec _ 0) as [H|H]; [|reflexivity].
  pose proof (sum_sqr_nonneg (x - x0) (y - y0)); lra.
Qed.

Lemma euclid_nan_lag (x y : cell) : euclid x y None None = None.
Proof. now destruct x, y. Qed.

Lemma euclidean_nonneg (x y x0 y0 : R) : 0 <= euclidean x y x0 y0.
Proof. apply sqrt_pos. Qed.

Lemma euclidean_self (x y : R) : euclidean x y x y = 0.
Proof.
  unfold euclidean.
  replace ((x - x) * (x - x) + (y - y) * (y - y)) with 0 by ring.
  apply sqrt_0.
Qed.

Lemma euclidean_value (x y x0 y0 d : R) :
  0 <= d -> (x - x0) * (x - x0) + (y - y0) * (y - y0) = d * d ->
  euclidean x y x0 y0 = d.
Proof.
  intros Hd E. unfold euclidean. rewrite E. now apply sqrt_square.
Qed.

(** ** Sorting *)

Lemma sort_values_cons (a : Row) (l : list Row) :
  sort_values (a :: l) = insert_row a (sort_values l).
Proof. reflexivity. Qed.

Lemma sort_values_sorted (l : list Row) :
  Sorted dist_le l -> sort_values l = l.
Proof.
  induction 1 as [|a l Hs IH Hd]; [reflexivity|].
  rewrite sort_values_cons, IH.
  destruct Hd as [|b l Hab]; [reflexivity|].
  simpl. unfold dist_le in Hab. now rewrite Hab.
Qed.

Lemma insert_row_perm (r : Row) (l : list Row) :
  Permutation (insert_row r l) (r :: l).
Proof.
  induction l as [|h t IH]; simpl; [reflexivity|].
  destruct (cell_leb (pdist r) (pdist h)); [reflexivity|].
  rewrite IH. apply perm_swap.
Qed.

Lemma sort_values_perm (l : list Row) : Permutation (sort_values l) l.
Proof.
  induction l as [|a l IH]; [reflexivity|].
  rewrite sort_values_cons, insert_row_perm. now constructor.
Qed.

(** ** [rel_dist] and [cum_dist] on a path without missing coordinates *)

Lemma rel_dist_reverse (df : list Vertex) :
  rel_dist df true = rel_dist (rev df) false.
Proof. reflexivity. Qed.

Lemma cum_dist_reverse (df : list Vertex) :
  cum_dist df true = cum_dist (rev df) false.
Proof. reflexivity. Qed.

Lemma lagged_steps (ps : list (R * R)) : forall p0 : R * R,
  filter (fun t : Vertex * cell => notna (snd t))
    (map (fun t : Vertex * (cell * cell) =>
            let '(v, (xl, yl)) := t in (v, euclid (vx v) (vy v) xl yl))
       (combine (map vertex_of ps)
          (combine
             (removelast (Some (fst p0) :: map vx (map vertex_of ps)))
             (removelast (Some (snd p0) :: map vy (map vertex_of ps))))))
  = path_steps p0 ps.
Proof.
  induction ps as [|p t IH]; intros p0; [reflexivity|].
  cbn [map vertex_of vx vy fst snd].
  change (removelast (Some (fst p0) :: Some (fst p) :: ?l))
    with (Some (fst p0) :: removelast (Some (fst p) :: l)).
  change (removelast (Some (snd p0) :: Some (snd p) :: ?l))
    with (Some (snd p0) :: removelast (Some (snd p) :: l)).
  cbn [combine map filter].
  change (vx (vertex_of p)) with (Some (fst p)).
  change (vy (vertex_of p)) with (Some (snd p)).
  rewrite euclid_some. cbn [notna isna negb snd path_steps].
  f_equal. apply (IH p).
Qed.

(** [rel_dist] drops the first vertex of the path: its lagged coordinates
    are NaN, so is its [rel_dist], and [dropna] removes the row. *)
Lemma rel_dist_path (p0 : R * R) (ps : list (R * R)) :
  rel_dist (map vertex_of (p0 :: ps)) false = path_steps p0 ps.
Proof.
  unfold rel_dist. cbn [map shift1 vertex_of vx vy fst snd combine].
  cbn [filter]. rewrite euclid_nan_lag. cbn [snd notna isna negb].
  apply lagged_steps.
Qed.

Lemma cumsum_path (ps : list (R * R)) : forall (p0 : R * R) (acc : R),
  map (fun t : (Vertex * cell) * cell =>
         mkRow (vx (fst (fst t))) (vy (fst (fst t))) (snd t))
      (combine (path_steps p0 ps)
               (cumsum_from acc (map snd (path_steps p0 ps))))
  = path_rows p0 acc ps.
Proof.
  induction ps as [|p t IH]; intros p0 acc; [reflexivity|].
  cbn [path_steps map snd cumsum_from combine fst vertex_of vx vy path_rows].
  f_equal. apply IH.
Qed.

(** [cum_dist] on vertices [p0, p1, ...] returns one row per vertex from
    [p1] on, with the arc length from [p0]. *)
Lemma cum_dist_path (p0 : R * R) (ps : list (R * R)) :
  cum_dist (map vertex_of (p0 :: ps)) false = path_rows p0 0 ps.
Proof.
  unfold cum_dist. rewrite rel_dist_path. apply cumsum_path.
Qed.

Lemma path_rows_length (ps : list (R * R)) : forall p0 acc,
  List.length (path_rows p0 acc ps) = List.length ps.
Proof. induction ps; intros; simpl; auto. Qed.

Lemma path_rows_lower (ps : list (R * R)) : forall p0 acc r,
  In r (path_rows p0 acc ps) -> exists d, pdist r = Some d /\ acc <= d.
Proof.
  induction ps as [|p t IH]; intros p0 acc r; simpl; [easy|].
  intros [<-|H].
  - eexists; split; [reflexivity|].
    pose proof (euclidean_nonneg (fst p) (snd p) (fst p0) (snd p0)); lra.
  - destruct (IH _ _ _ H) as [d [E L]]. exists d; split; [exact E|].
    pose proof (euclidean_nonneg (fst p) (snd p) (fst p0) (snd p0)); lra.
Qed.

Lemma path_rows_sorted (ps : list (R * R)) : forall p0 acc,
  Sorted dist_le (path_rows p0 acc ps).
Proof.
  induction ps as [|p t IH]; intros p0 acc; simpl; constructor.
  - apply IH.
  - destruct t as [|q t]; simpl; constructor.
    unfold dist_le; simpl. apply Rleb_true.
    pose proof (euclidean_nonneg (fst q) (snd q) (fst p) (snd p)); lra.
Qed.

(** ** Vertex-path profiles *)

(** Without [num], a vertex-path profile is the output of [cum_dist]: the
    sort finds it ascending and nothing is resampled. *)
Lemma create_profile_path (cubic : list Row -> result (list Row))
    (start stop : option (R * R)) (p0 : R * R) (ps : list (R * R)) :
  create_profile cubic "polyline" start stop None None
                 (Some (map vertex_of (p0 :: ps))) false
  = Ok (path_rows p0 0 ps)
  /\ create_profile cubic "shapefile" start stop None
                    (Some (map vertex_of (p0 :: ps))) None false
     = Ok (path_rows p0 0 ps).
Proof.
  unfold create_profile.
  cbn [methods existsb String.eqb Ascii.eqb Bool.eqb negb orb andb bind].
  rewrite cum_dist_path, sort_values_sorted by apply path_rows_sorted.
  split; reflexivity.
Qed.

(** C1 (the claim fails on the code).  For the vertices (0,0), (3,4), (3,9)
    the claim gives three rows with dist 0, 5, 10.  [create_profile] returns
    two rows: the first vertex is missing, and dist starts at 5, the length
    of the first segment, in both vertex modes. *)
Theorem create_profile_vertices_first_row_lost
    (cubic : list Row -> result (list Row)) :
  let vertices := map vertex_of [(0, 0); (3, 4); (3, 9)] in
  let out := [mkRow (Some 3) (Some 4) (Some 5);
              mkRow (Some 3) (Some 9) (Some 10)] in
  create_profile cubic "polyline" None None None None (Some vertices) false
  = Ok out
  /\ create_profile cubic "shapefile" None None None (Some vertices) None false
     = Ok out
  /\ map pdist out <> [Some 0; Some 5; Some 10].
Proof.
  intros vertices out.
  assert (E : path_rows (0, 0) 0 [(3, 4); (3, 9)] = out).
  { unfold out. cbn [path_rows fst snd].
    rewrite (euclidean_value 3 4 0 0 5) by lra.
    rewrite (euclidean_value 3 9 3 4 5) by lra.
    repeat f_equal; lra. }
  destruct (create_profile_path cubic None None (0, 0) [(3, 4); (3, 9)])
    as [H1 H2].
  unfold vertices. rewrite H1, H2, E.
  repeat split; discriminate.
Qed.

(** ** [np.linspace] *)

Lemma combine_map_same {A B C : Type} (f : A -> B) (g : A -> C) (l : list A) :
  combine (map f l) (map g l) = map (fun a => (f a, g a)) l.
Proof. induction l; simpl; congruence. Qed.

Lemma linspace_ok (a b : R) (N : Z) :
  (1 <= N)%Z ->
  linspace a b N
  = Ok (map (fun i => a + param N i * (b - a)) (seq 0 (Z.to_nat N))).
Proof.
  intros HN. unfold linspace, param.
  replace (N <? 0)%Z with false by (symmetry; apply Z.ltb_ge; lia).
  destruct (0 <? N - 1)%Z eqn:E.
  - replace (1 <? N)%Z with true
      by (symmetry; apply Z.ltb_lt; apply Z.ltb_lt in E; lia).
    rewrite map_map. f_equal. apply map_ext. intros i. field.
    apply not_0_IZR. apply Z.ltb_lt in E. lia.
  - replace (1 <? N)%Z with false
      by (symmetry; apply Z.ltb_ge; apply Z.ltb_ge in E; lia).
    assert (N = 1%Z) by (apply Z.ltb_ge in E; lia). subst N.
    change (Z.to_nat 1) with 1%nat.
    cbn [seq map INR]. f_equal. f_equal. ring.
Qed.

Lemma param_nonneg (N : Z) (i : nat) : 0 <= param N i.
Proof.
  unfold param. destruct (1 <? N)%Z eqn:E; [|lra].
  apply Z.ltb_lt in E. apply Rmult_le_pos; [apply pos_INR|].
  apply Rlt_le, Rinv_0_lt_compat, IZR_lt. lia.
Qed.

Lemma param_first (N : Z) : param N 0 = 0.
Proof.
  unfold param. destruct (1 <? N)%Z; [|reflexivity].
  unfold Rdiv. simpl INR. ring.
Qed.

Lemma param_le_1 (N : Z) (i : nat) : (i < Z.to_nat N)%nat -> param N i <= 1.
Proof.
  intros Hi. unfold param. destruct (1 <? N)%Z eqn:E; [|lra].
  apply Z.ltb_lt in E.
  assert (0 < IZR (N - 1)) by (apply IZR_lt; lia).
  apply (Rmult_le_reg_r (IZR (N - 1))); [assumption|].
  unfold Rdiv. rewrite Rmult_assoc, Rinv_l, Rmult_1_r, Rmult_1_l by lra.
  rewrite INR_IZR_INZ. apply IZR_le. lia.
Qed.

Lemma param_lt (N : Z) (i j : nat) :
  (1 < N)%Z -> (i < j)%nat -> param N i < param N j.
Proof.
  intros HN Hij. unfold param.
  replace (1 <? N)%Z with true by (symmetry; now apply Z.ltb_lt).
  apply Rmult_lt_compat_r.
  - apply Rinv_0_lt_compat, IZR_lt. lia.
  - now apply lt_INR.
Qed.

Lemma param_le (N : Z) (i : nat) : param N i <= param N (S i).
Proof.
  destruct (Z_lt_dec 1 N) as [H|H].
  - apply Rlt_le, param_lt; [assumption|lia].
  - unfold param.
    replace (1 <? N)%Z with false by (symmetry; apply Z.ltb_ge; lia). lra.
Qed.

Lemma param_monotone (N : Z) (i j : nat) :
  (i <= j)%nat -> param N i <= param N j.
Proof.
  intros Hij. destruct (Nat.eq_dec i j) as [->|Hne]; [lra|].
  destruct (Z_lt_dec 1 N) as [H|H].
  - apply Rlt_le, param_lt; [assumption|lia].
  - unfold param.
    replace (1 <? N)%Z with false by (symmetry; apply Z.ltb_ge; lia). lra.
Qed.

(** ** "points" mode *)

Lemma points_dist (sx sy dx dy t : R) :
  0 <= t ->
  euclidean (sx + t * dx) (sy + t * dy) sx sy = t * sqrt (dx * dx + dy * dy).
Proof.
  intros Ht. unfold euclidean.
  replace ((sx + t * dx - sx) * (sx + t * dx - sx) +
           (sy + t * dy - sy) * (sy + t * dy - sy))
    with ((t * t) * (dx * dx + dy * dy)) by ring.
  rewrite sqrt_mult; [|nra|apply sum_sqr_nonneg].
  now rewrite sqrt_square.
Qed.


Lemma Sorted_map_seq {A : Type} (le : A -> A -> Prop) (f : nat -> A) (n : nat) :
  (forall i, le (f i) (f (S i))) -> forall a, Sorted le (map f (seq a n)).
Proof.
  intros Hf. induction n as [|n IH]; intros a; simpl; constructor.
  - apply IH.
  - destruct n; simpl; constructor. apply Hf.
Qed.

Lemma nth_error_map_seq {A : Type} (f : nat -> A) (n i : nat) :
  nth_error (map f (seq 0 n)) i = if (i <? n)%nat then Some (f i) else None.
Proof.
  destruct (i <? n)%nat eqn:E.
  - apply Nat.ltb_lt in E.
    rewrite nth_error_map, nth_error_seq.
    replace (i <? n)%nat with true by (symmetry; now apply Nat.ltb_lt).
    reflexivity.
  - apply Nat.ltb_ge in E. apply nth_error_None.
    now rewrite length_map, length_seq.
Qed.

Lemma points_start (sx sy ex ey : R) (N : Z) :
  (sx + param N 0 * (ex - sx), sy + param N 0 * (ey - sy)) = (sx, sy).
Proof. rewrite param_first. f_equal; ring. Qed.

Lemma points_row_dist (sx sy ex ey : R) (N : Z) (i : nat) :
  pdist (points_row sx sy ex ey (param N i))
  = Some (param N i * sqrt ((ex - sx) * (ex - sx) + (ey - sy) * (ey - sy))).
Proof.
  unfold points_row. cbn [pdist]. f_equal. apply points_dist, param_nonneg.
Qed.

Lemma points_rows_sorted (sx sy ex ey : R) (N : Z) (n : nat) :
  Sorted dist_le (map (fun i => points_row sx sy ex ey (param N i)) (seq 0 n)).
Proof.
  apply Sorted_map_seq. intros i. unfold dist_le.
  rewrite !points_row_dist. cbn [cell_leb]. apply Rleb_true.
  apply Rmult_le_compat_r; [apply sqrt_pos|apply param_le].
Qed.

(** The table built in "points" mode, in closed form. *)
Lemma create_profile_points_rows (cubic : list Row -> result (list Row))
    (sx sy ex ey : R) (num : option Z)
    (shapefile polyline : option (list Vertex)) (reverse : bool) :
  let N := match num with None => 1000%Z | Some n => n end in
  (1 <= N)%Z ->
  create_profile cubic "points" (Some (sx, sy)) (Some (ex, ey)) num
                 shapefile polyline reverse
  = Ok (map (fun i => points_row sx sy ex ey (param N i))
            (seq 0 (Z.to_nat N))).
Proof.
  intros N HN. unfold create_profile.
  cbn [methods existsb String.eqb Ascii.eqb Bool.eqb negb orb andb].
  fold N. rewrite !linspace_ok by assumption. cbn [bind].
  rewrite combine_map_same.
  destruct (Z.to_nat N) as [|n] eqn:En; [lia|].
  set (g := fun i : nat =>
              (sx + param N i * (ex - sx), sy + param N i * (ey - sy))).
  assert (E : map g (seq 0 (S n)) = (sx, sy) :: map g (seq 1 n)).
  { cbn [seq map]. f_equal. unfold g. now rewrite points_start. }
  rewrite E at 1. rewrite <- E, map_map. cbn [bind].
  assert (E2 : map (fun x : nat =>
                 mkRow (Some (fst (g x))) (Some (snd (g x)))
                   (euclid (Some (fst (g x))) (Some (snd (g x)))
                           (Some sx) (Some sy))) (seq 0 (S n))
               = map (fun i => points_row sx sy ex ey (param N i))
                     (seq 0 (S n))).
  { apply map_ext. intros i. rewrite euclid_some. reflexivity. }
  rewrite E2, sort_values_sorted by apply points_rows_sorted.
  reflexivity.
Qed.

(** C4 (the claim fails on the code).  With [num = 0] there is no row to
    take the first point from: the call raises IndexError instead of
    returning a profile of no rows. *)
Lemma create_profile_points_no_sample :
  create_profile (fun _ => Raise ValueError) "points"
                 (Some (0, 0)) (Some (10, 0)) (Some 0%Z) None None false
  = Raise IndexError.
Proof. reflexivity. Qed.

(** C4 (amended).  In "points" mode with a sample count [N >= 1] ([num], or
    1000 when [num] is None), [create_profile] returns exactly [N] rows;
    every row lies on the segment from start to stop, row [i] at the fraction
    [i / (N - 1)] of the way; [dist] of a row is the Euclidean distance of the
    row to row 0 (not a path integral); row 0 is the start with [dist = 0];
    and [dist] never decreases from a row to a later one.  For the endpoints
    (0,0), (10,0) and [num = 3] the rows are (0,0,0), (5,0,5), (10,0,10). *)
Theorem create_profile_points :
  (forall (cubic : list Row -> result (list Row)) (sx sy ex ey : R)
          (num : option Z) (shapefile polyline : option (list Vertex))
          (reverse : bool),
      let N := match num with None => 1000%Z | Some n => n end in
      (1 <= N)%Z ->
      exists out,
        create_profile cubic "points" (Some (sx, sy)) (Some (ex, ey)) num
                       shapefile polyline reverse = Ok out
        /\ List.length out = Z.to_nat N
        /\ (forall i r, nth_error out i = Some r ->
              exists t, 0 <= t <= 1
                /\ ((1 < N)%Z -> t = INR i / IZR (N - 1))
                /\ px r = Some (sx + t * (ex - sx))
                /\ py r = Some (sy + t * (ey - sy)))
        /\ (forall i r r0, nth_error out i = Some r ->
              nth_error out 0 = Some r0 ->
              pdist r = euclid (px r) (py r) (px r0) (py r0))
        /\ nth_error out 0 = Some (mkRow (Some sx) (Some sy) (Some 0))
        /\ (forall i j ri rj, (i <= j)%nat ->
              nth_error out i = Some ri -> nth_error out j = Some rj ->
              exists di dj,
                pdist ri = Some di /\ pdist rj = Some dj /\ di <= dj))
  /\ (forall cubic : list Row -> result (list Row),
        create_profile cubic "points" (Some (0, 0)) (Some (10, 0)) (Some 3%Z)
                       None None false
        = Ok [mkRow (Some 0) (Some 0) (Some 0);
              mkRow (Some 5) (Some 0) (Some 5);
              mkRow (Some 10) (Some 0) (Some 10)]).
Proof.
  split.
  - intros cubic sx sy ex ey num shapefile polyline reverse N HN.
    eexists. split; [now apply create_profile_points_rows|].
    fold N.
    assert (R0 : points_row sx sy ex ey (param N 0)
                 = mkRow (Some sx) (Some sy) (Some 0)).
    { unfold points_row. rewrite param_first.
      replace (sx + 0 * (ex - sx)) with sx by ring.
      replace (sy + 0 * (ey - sy)) with sy by ring.
      now rewrite euclidean_self. }
    assert (Hpos : (0 <? Z.to_nat N)%nat = true) by (apply Nat.ltb_lt; lia).
    repeat split.
    + now rewrite length_map, length_seq.
    + intros i r Hi. rewrite nth_error_map_seq in Hi.
      destruct (i <? Z.to_nat N)%nat eqn:E; [|discriminate].
      apply Nat.ltb_lt in E. inversion Hi; subst r; clear Hi.
      exists (param N i). repeat split.
      * apply param_nonneg.
      * now apply param_le_1.
      * intros H1. unfold param.
        now replace (1 <? N)%Z with true by (symmetry; now apply Z.ltb_lt).
    + intros i r r0 Hi H0. rewrite nth_error_map_seq in Hi, H0.
      rewrite Hpos in H0. rewrite R0 in H0.
      destruct (i <? Z.to_nat N)%nat; [|discriminate].
      inversion Hi; inversion H0; subst. unfold points_row.
      cbn [px py pdist]. now rewrite euclid_some.
    + rewrite nth_error_map_seq, Hpos. now f_equal.
    + intros i j ri rj Hij Hi Hj. rewrite nth_error_map_seq in Hi, Hj.
      destruct (i <? Z.to_nat N)%nat eqn:Ei; [|discriminate].
      destruct (j <? Z.to_nat N)%nat eqn:Ej; [|discriminate].
      inversion Hi; inversion Hj; subst. rewrite !points_row_dist.
      do 2 eexists. split; [reflexivity|]. split; [reflexivity|].
      apply Rmult_le_compat_r; [apply sqrt_pos|].
      now apply param_monotone.
  - intros cubic.
    rewrite (create_profile_points_rows cubic 0 0 10 0 (Some 3%Z))
      by (cbn; lia).
    change (Z.to_nat 3) with 3%nat. cbn [seq map]. unfold points_row.
    assert (P0 : param 3 0 = 0) by apply param_first.
    assert (P1 : param 3 1 = / 2).
    { unfold param. cbn [Z.ltb Z.compare Pos.compare Pos.compare_cont].
      change (3 - 1)%Z with 2%Z. cbn [INR]. lra. }
    assert (P2 : param 3 2 = 1).
    { unfold param. cbn [Z.ltb Z.compare Pos.compare Pos.compare_cont].
      change (3 - 1)%Z with 2%Z. cbn [INR]. lra. }
    rewrite P0, P1, P2.
    replace (0 + 0 * (10 - 0)) with 0 by lra.
    replace (0 + / 2 * (10 - 0)) with 5 by lra.
    replace (0 + 1 * (10 - 0)) with 10 by lra.
    replace (0 + 0 * (0 - 0)) with 0 by lra.
    replace (0 + / 2 * (0 - 0)) with 0 by lra.
    replace (0 + 1 * (0 - 0)) with 0 by lra.
    rewrite euclidean_self.
    rewrite (euclidean_value 5 0 0 0 5) by lra.
    rewrite (euclidean_value 10 0 0 0 10) by lra.
    reflexivity.
Qed.

Lemma create_profile_points_witness :
  (1 <= 3)%Z /\
  exists out,
    create_profile (fun _ => Raise ValueError) "points"
                   (Some (0, 0)) (Some (10, 0)) (Some 3%Z) None None false
    = Ok out
    /\ List.length out = 3%nat.
Proof.
  split; [lia|].
  destruct (proj1 create_profile_points (fun _ => Raise ValueError)
              0 0 10 0 (Some 3%Z) None None false) as [out [H1 [H2 _]]].
  - simpl. lia.
  - exists out. split; [exact H1|exact H2].
Defined.

(** ** [shorten] *)

Lemma mask_filter {A : Type} (f : A -> bool) (l : list A) :
  map snd (filter fst (combine (map f l) l)) = filter f l.
Proof.
  induction l as [|a l IH]; [reflexivity|].
  cbn [map combine filter fst]. destruct (f a); cbn [map snd]; now rewrite IH.
Qed.

Lemma combine_map2 {A B C D : Type} (f : B -> C -> D) (a : A -> B)
    (b : A -> C) (l : list A) :
  combine l (map2 f (map a l) (map b l)) = map (fun r => (r, f (a r) (b r))) l.
Proof. induction l; simpl; congruence. Qed.

Lemma inside_mask (lo hi d : cell) :
  cell_ltb d hi && cell_ltb lo d = true <-> strictly_inside lo hi d.
Proof.
  unfold strictly_inside. split.
  - intros H. apply andb_prop in H. destruct H as [H1 H2].
    destruct d as [v|], hi as [h|], lo as [l|]; try discriminate.
    apply Rltb_true in H1, H2. exists l, h, v. repeat split; assumption.
  - intros (l & h & v & -> & -> & -> & H1 & H2). cbn [cell_ltb].
    apply andb_true_intro. split; now apply Rltb_true.
Qed.

(** [shorten] in one step: the rows kept by the mask, with [dist] overwritten
    by the distance to the first of them, or IndexError when none is kept. *)
Lemma shorten_frame_eq (df : DataFrame) (max_dist min_dist : option R)
    (kd kx ky : nat) :
  col_pos "dist" (columns df) = Some kd ->
  col_pos "x" (columns df) = Some kx ->
  col_pos "y" (columns df) = Some ky ->
  let dist := map (row_get kd) (rows df) in
  let hi := bound_max dist max_dist in
  let lo := bound_min dist min_dist in
  let kept :=
    filter (fun r => cell_ltb (row_get kd r) hi && cell_ltb lo (row_get kd r))
           (rows df) in
  shorten_frame df max_dist min_dist
  = match kept with
    | [] => Raise IndexError
    | r0 :: _ =>
        Ok (mkDF (index_name df) (columns df)
              (map (fun r =>
                      (fst r,
                       set_nth kd
                         (euclid (row_get kx r) (row_get ky r)
                                 (row_get kx r0) (row_get ky r0))
                         (snd r))) kept))
    end.
Proof.
  intros Hd Hx Hy dist hi lo kept.
  assert (E : shorten_frame df max_dist min_dist
              = (let shortened := mkDF (index_name df) (columns df) kept in
                 xs <- getattr shortened "x" ;;
                 x0 <- iloc0 xs ;;
                 ys <- getattr shortened "y" ;;
                 y0 <- iloc0 ys ;;
                 Ok (setitem shortened "dist"
                       (map2 (fun x y => euclid x y x0 y0) xs ys)))).
  { unfold shorten_frame, getattr, column. rewrite Hd.
    unfold kept, hi, lo, dist, bound_max, bound_min.
    destruct max_dist, min_dist; cbn [bind];
      rewrite map_map, mask_filter; reflexivity. }
  rewrite E. clear E. cbv zeta.
  unfold getattr, column, setitem. cbn [columns rows index_name].
  rewrite Hx, Hy, Hd. cbn [bind].
  destruct kept as [|r0 rest]; [reflexivity|].
  cbn [map iloc0 bind]. f_equal. f_equal.
  change (row_get kx r0 :: map (row_get kx) rest)
    with (map (row_get kx) (r0 :: rest)).
  change (row_get ky r0 :: map (row_get ky) rest)
    with (map (row_get ky) (r0 :: rest)).
  rewrite combine_map2, map_map. reflexivity.
Qed.

Lemma col_pos_lt (name : string) (cols : list string) (k : nat) :
  col_pos name cols = Some k -> (k < List.length cols)%nat.
Proof.
  revert k. induction cols as [|c t IH]; intros k; simpl; [discriminate|].
  destruct (String.eqb c name).
  - intros H; inversion H; lia.
  - destruct (col_pos name t) as [k'|]; simpl; [|discriminate].
    intros H; inversion H; subst. specialize (IH k' eq_refl). lia.
Qed.

Lemma col_pos_nth (name : string) (cols : list string) (k : nat) :
  col_pos name cols = Some k -> nth_error cols k = Some name.
Proof.
  revert k. induction cols as [|c t IH]; intros k; simpl; [discriminate|].
  destruct (String.eqb c name) eqn:E.
  - intros H; inversion H; subst. apply String.eqb_eq in E. now subst.
  - destruct (col_pos name t) as [k'|]; simpl; [|discriminate].
    intros H; inversion H; subst. now apply IH.
Qed.

Lemma col_pos_distinct (a b : string) (cols : list string) (i j : nat) :
  col_pos a cols = Some i -> col_pos b cols = Some j -> a <> b -> i <> j.
Proof.
  intros Ha Hb Hab E. subst j.
  apply col_pos_nth in Ha, Hb. congruence.
Qed.

Lemma nth_set_nth_same (k : nat) (v : cell) (l : list cell) :
  (k < List.length l)%nat -> nth k (set_nth k v l) None = v.
Proof.
  revert l. induction k as [|k IH]; intros [|h t]; simpl; intros H;
    try lia; [reflexivity|]. apply IH. lia.
Qed.

Lemma nth_set_nth_other (k j : nat) (v : cell) (l : list cell) :
  j <> k -> nth j (set_nth k v l) None = nth j l None.
Proof.
  revert j l. induction k as [|k IH]; intros [|j] [|h t]; simpl; intros H;
    try reflexivity; try lia. apply IH. lia.
Qed.

Lemma set_nth_length (k : nat) (v : cell) (l : list cell) :
  List.length (set_nth k v l) = List.length l.
Proof.
  revert l. induction k as [|k IH]; intros [|h t]; simpl; auto.
Qed.

Lemma filter_keeps_wf (df : DataFrame) (f : cell * list cell -> bool) :
  wf df -> Forall (fun r => List.length (snd r) = List.length (columns df))
                  (filter f (rows df)).
Proof.
  unfold wf. rewrite !Forall_forall. intros H r Hr.
  apply filter_In in Hr. now apply H.
Qed.

(** The store after a call of [shorten]. *)
Lemma shorten_store (h : heap) (l : loc) (max_dist min_dist : option R) :
  shorten h l max_dist min_dist
  = match shorten_frame (deref h l) max_dist min_dist with
    | Ok out => (Ok (List.length h), (h ++ [out])%list)
    | Raise e => (Raise e, h)
    end.
Proof. reflexivity. Qed.

Lemma deref_alloc (h : heap) (v : DataFrame) :
  deref (h ++ [v]) (List.length h) = v.
Proof. unfold deref. now rewrite nth_middle. Qed.

Lemma deref_old (h : heap) (v : DataFrame) (l : loc) :
  (l < List.length h)%nat -> deref (h ++ [v]) l = deref h l.
Proof. intros H. unfold deref. now rewrite app_nth1. Qed.

(** C10.  When no row of the table satisfies [min_dist < dist < max_dist]
    (the bounds being the arguments, or the extremes of [dist] for an
    argument left at None), [shorten] returns no table: reading the first
    retained row raises IndexError. *)
Theorem shorten_empty_selection_raises (h : heap) (l : loc)
    (max_dist min_dist : option R) (kd kx ky : nat) :
  let df := deref h l in
  col_pos "dist" (columns df) = Some kd ->
  col_pos "x" (columns df) = Some kx ->
  col_pos "y" (columns df) = Some ky ->
  let dist := map (row_get kd) (rows df) in
  (forall r, In r (rows df) ->
     ~ strictly_inside (bound_min dist min_dist) (bound_max dist max_dist)
                       (row_get kd r)) ->
  shorten h l max_dist min_dist = (Raise IndexError, h).
Proof.
  intros df Hd Hx Hy dist Hnone.
  rewrite shorten_store. fold df.
  rewrite (shorten_frame_eq df max_dist min_dist kd kx ky Hd Hx Hy).
  fold dist.
  destruct (filter _ (rows df)) as [|r0 rest] eqn:E; [reflexivity|].
  exfalso.
  assert (Hin : In r0 (filter
            (fun r => cell_ltb (row_get kd r) (bound_max dist max_dist)
                      && cell_ltb (bound_min dist min_dist) (row_get kd r))
            (rows df))) by (rewrite E; now left).
  apply filter_In in Hin. destruct Hin as [Hin Hm].
  apply (Hnone r0 Hin). now apply inside_mask.
Qed.

Lemma shorten_empty_selection_raises_witness :
  let h := [to_frame [mkRow (Some 0) (Some 0) (Some 0);
                      mkRow (Some 5) (Some 0) (Some 5)]] in
  shorten h 0%nat (Some 0) (Some 10) = (Raise IndexError, h).
Proof.
  intros h.
  apply (shorten_empty_selection_raises h 0%nat (Some 0) (Some 10)
           2%nat 0%nat 1%nat); try reflexivity.
  intros r _ (lo & hi & v & Hlo & Hhi & _ & H1 & H2).
  cbn [bound_min bound_max] in Hlo, Hhi.
  inversion Hlo; inversion Hhi; subst. lra.
Defined.

(** Decide the comparisons of concrete reals that a goal contains. *)
Ltac decide_reals :=
  repeat match goal with
    | |- context [Rltb ?a ?b] =>
        first [ replace (Rltb a b) with true
                  by (symmetry; apply Rltb_true; lra)
              | replace (Rltb a b) with false
                  by (symmetry; apply Rltb_false; lra) ]
    | |- context [Rleb ?a ?b] =>
        first [ replace (Rleb a b) with true
                  by (symmetry; apply Rleb_true; lra)
              | replace (Rleb a b) with false
                  by (symmetry; unfold Rleb; destruct (Rle_dec a b);
                      [lra|reflexivity]) ]
    | |- context [Rmax ?a ?b] =>
        first [ replace (Rmax a b) with b by (symmetry; apply Rmax_right; lra)
              | replace (Rmax a b) with a by (symmetry; apply Rmax_left; lra) ]
    | |- context [Rmin ?a ?b] =>
        first [ replace (Rmin a b) with a by (symmetry; apply Rmin_left; lra)
              | replace (Rmin a b) with b by (symmetry; apply Rmin_right; lra) ]
    end.

(** What [shorten] returns when the mask keeps a row. *)
Lemma shorten_frame_rows (df : DataFrame) (max_dist min_dist : option R)
    (kd kx ky : nat) (P : cell * list cell -> bool) :
  wf df ->
  col_pos "dist" (columns df) = Some kd ->
  col_pos "x" (columns df) = Some kx ->
  col_pos "y" (columns df) = Some ky ->
  let dist := map (row_get kd) (rows df) in
  let lo := bound_min dist min_dist in
  let hi := bound_max dist max_dist in
  (forall r, P r = true <-> strictly_inside lo hi (row_get kd r)) ->
  filter P (rows df) <> [] ->
  exists out,
    shorten_frame df max_dist min_dist = Ok out
    /\ index_name out = index_name df
    /\ columns out = columns df
    /\ map fst (rows out) = map fst (filter P (rows df))
    /\ (forall k, k <> kd ->
          map (row_get k) (rows out) = map (row_get k) (filter P (rows df)))
    /\ (forall r0, hd_error (rows out) = Some r0 ->
          map (row_get kd) (rows out)
          = map (fun r => euclid (row_get kx r) (row_get ky r)
                                 (row_get kx r0) (row_get ky r0))
                (rows out))
    /\ (forall r0 x0 y0, hd_error (rows out) = Some r0 ->
          row_get kx r0 = Some x0 -> row_get ky r0 = Some y0 ->
          row_get kd r0 = Some 0).
Proof.
  intros Hwf Hd Hx Hy dist lo hi HP Hne.
  destruct (filter P (rows df)) as [|r0 rest] eqn:Hkept; [easy|]. clear Hne.
  assert (Hx' : kx <> kd)
    by (apply (col_pos_distinct "x" "dist" (columns df)); easy).
  assert (Hy' : ky <> kd)
    by (apply (col_pos_distinct "y" "dist" (columns df)); easy).
  assert (EP : filter (fun r => cell_ltb (row_get kd r) hi
                                && cell_ltb lo (row_get kd r)) (rows df)
               = r0 :: rest).
  { rewrite <- Hkept. apply filter_ext. intros r.
    destruct (P r) eqn:E.
    - apply inside_mask. now apply HP.
    - destruct (cell_ltb (row_get kd r) hi && cell_ltb lo (row_get kd r)) eqn:E2;
        [|reflexivity].
      apply inside_mask, HP in E2. congruence. }
  rewrite (shorten_frame_eq df max_dist min_dist kd kx ky Hd Hx Hy).
  fold dist. fold hi. fold lo. rewrite EP.
  set (upd := fun r : cell * list cell =>
                (fst r, set_nth kd (euclid (row_get kx r) (row_get ky r)
                                           (row_get kx r0) (row_get ky r0))
                                (snd r))).
  assert (Hother : forall k r, k <> kd -> row_get k (upd r) = row_get k r).
  { intros k r Hk. unfold upd, row_get. cbn [snd].
    now apply nth_set_nth_other. }
  assert (Hsame : forall r, In r (r0 :: rest) ->
            row_get kd (upd r)
            = euclid (row_get kx r) (row_get ky r)
                     (row_get kx r0) (row_get ky r0)).
  { intros r Hr. unfold upd, row_get at 1. cbn [snd].
    apply nth_set_nth_same.
    pose proof (filter_keeps_wf df P Hwf) as Hw.
    rewrite Forall_forall, Hkept in Hw. rewrite (Hw r Hr).
    now apply col_pos_lt with (name := "dist"%string). }
  eexists. split; [reflexivity|]. cbn [index_name columns rows].
  split; [reflexivity|]. split; [reflexivity|].
  split; [rewrite map_map; now apply map_ext|]. split.
  - intros k Hk. rewrite map_map. apply map_ext. intros r. now apply Hother.
  - split.
    + intros q0 Hq. cbn [map hd_error] in Hq. injection Hq as <-.
      rewrite !map_map. apply map_ext_in. intros r Hr.
      rewrite (Hsame r Hr), !Hother by assumption. reflexivity.
    + intros q0 x0 y0 Hq. cbn [map hd_error] in Hq. injection Hq as <-.
      rewrite !Hother by assumption. intros Hx0 Hy0.
      rewrite Hsame by now left.
      rewrite Hx0, Hy0, euclid_some. f_equal. apply euclidean_self.
Qed.

(** C3 (amended).  Whenever at least one row lies strictly between the
    bounds, [shorten] returns a new table whose rows are exactly the rows of
    the input with [min_dist < dist < max_dist], both strict, in their order
    and with their index labels; every column but [dist] is unchanged, and
    [dist] is the Euclidean distance of the row to the first retained row
    (not an arc length), so that the first [dist] is 0 when the coordinates
    of that row are present. *)
Theorem shorten_keeps_strictly_inside (h : heap) (l : loc)
    (max_dist min_dist : option R) (kd kx ky : nat)
    (P : cell * list cell -> bool) :
  let df := deref h l in
  wf df ->
  col_pos "dist" (columns df) = Some kd ->
  col_pos "x" (columns df) = Some kx ->
  col_pos "y" (columns df) = Some ky ->
  let dist := map (row_get kd) (rows df) in
  let lo := bound_min dist min_dist in
  let hi := bound_max dist max_dist in
  (forall r, P r = true <-> strictly_inside lo hi (row_get kd r)) ->
  (exists r, In r (rows df) /\ strictly_inside lo hi (row_get kd r)) ->
  exists out,
    shorten h l max_dist min_dist = (Ok (List.length h), (h ++ [out])%list)
    /\ index_name out = index_name df
    /\ columns out = columns df
    /\ map fst (rows out) = map fst (filter P (rows df))
    /\ (forall k, k <> kd ->
          map (row_get k) (rows out) = map (row_get k) (filter P (rows df)))
    /\ (forall r0, hd_error (rows out) = Some r0 ->
          map (row_get kd) (rows out)
          = map (fun r => euclid (row_get kx r) (row_get ky r)
                                 (row_get kx r0) (row_get ky r0))
                (rows out))
    /\ (forall r0 x0 y0, hd_error (rows out) = Some r0 ->
          row_get kx r0 = Some x0 -> row_get ky r0 = Some y0 ->
          row_get kd r0 = Some 0).
Proof.
  intros df Hwf Hd Hx Hy dist lo hi HP [r [Hr Hin]].
  assert (Hne : filter P (rows df) <> []).
  { intros E. assert (H : In r (filter P (rows df)))
      by (apply filter_In; split; [assumption|now apply HP]).
    now rewrite E in H. }
  destruct (shorten_frame_rows df max_dist min_dist kd kx ky P
              Hwf Hd Hx Hy HP Hne) as (out & Hout & Hrest).
  exists out. rewrite shorten_store. fold df. rewrite Hout.
  split; [reflexivity|exact Hrest].
Qed.

Lemma profile_0_5_10_wf : wf profile_0_5_10.
Proof. repeat constructor. Qed.

Lemma shorten_keeps_strictly_inside_witness :
  exists out,
    shorten [profile_0_5_10] 0%nat (Some 7) (Some 3)
    = (Ok 1%nat, [profile_0_5_10; out]).
Proof.
  destruct (shorten_keeps_strictly_inside [profile_0_5_10] 0%nat
              (Some 7) (Some 3) 2%nat 0%nat 1%nat
              (fun r => cell_ltb (row_get 2 r) (Some 7)
                        && cell_ltb (Some 3) (row_get 2 r)))
    as [out [H _]].
  - exact profile_0_5_10_wf.
  - reflexivity.
  - reflexivity.
  - reflexivity.
  - intros r. apply inside_mask.
  - exists (Some (INR 1), [Some 5; Some 0; Some 5]). split.
    + right; left; reflexivity.
    + exists 3, 7, 5. repeat split; lra.
  - exists out. exact H.
Defined.

(** C3 (the claim fails on the code).  With bounds that no row satisfies,
    here 1 < dist < 3 on a profile with dist 0, 5, 10, [shorten] does not
    return the (empty) set of rows: it raises IndexError. *)
Lemma shorten_no_row_inside_raises :
  shorten [profile_0_5_10] 0%nat (Some 3) (Some 1)
  = (Raise IndexError, [profile_0_5_10]).
Proof.
  rewrite shorten_store.
  rewrite (shorten_frame_eq _ (Some 3) (Some 1) 2%nat 0%nat 1%nat)
    by reflexivity.
  cbn -[Rltb INR]. decide_reals. reflexivity.
Qed.

(** C2 (the claim fails on the code).  [shorten] with both bounds omitted is
    not a no-op: on the profile with dist 0, 5, 10 it returns only the row at
    dist 5, with dist recomputed to 0. *)
Lemma shorten_defaults_not_noop :
  let out := mkDF None ["x"; "y"; "dist"]%string
                  [(Some (INR 1), [Some 5; Some 0; Some 0])] in
  shorten [profile_0_5_10] 0%nat None None
  = (Ok 1%nat, [profile_0_5_10; out])
  /\ out <> profile_0_5_10.
Proof.
  intros out. split.
  - rewrite shorten_store.
    rewrite (shorten_frame_eq _ None None 2%nat 0%nat 1%nat) by reflexivity.
    cbn -[Rltb Rmax Rmin INR euclid]. decide_reals.
    cbn -[INR euclid]. rewrite euclid_some, euclidean_self. reflexivity.
  - intros E. apply (f_equal (fun d => List.length (rows d))) in E.
    discriminate E.
Qed.

(** C2 (amended).  With both bounds omitted, [shorten] filters with the
    largest and the smallest [dist] of the table: the call is the call with
    these two values as [max_dist] and [min_dist]; and in the table it
    returns, [dist] is recomputed as the Euclidean distance to the first
    returned row instead of being copied from the input. *)
Theorem shorten_default_bounds (h : heap) (l : loc) (kd kx ky : nat)
    (M m : R) :
  let df := deref h l in
  wf df ->
  col_pos "dist" (columns df) = Some kd ->
  col_pos "x" (columns df) = Some kx ->
  col_pos "y" (columns df) = Some ky ->
  series_max (map (row_get kd) (rows df)) = Some M ->
  series_min (map (row_get kd) (rows df)) = Some m ->
  shorten h l None None = shorten h l (Some M) (Some m)
  /\ (forall l' h' r0,
        shorten h l None None = (Ok l', h') ->
        hd_error (rows (deref h' l')) = Some r0 ->
        map (row_get kd) (rows (deref h' l'))
        = map (fun r => euclid (row_get kx r) (row_get ky r)
                               (row_get kx r0) (row_get ky r0))
              (rows (deref h' l'))).
Proof.
  intros df Hwf Hd Hx Hy HM Hm.
  assert (E : shorten_frame df None None = shorten_frame df (Some M) (Some m)).
  { rewrite !(shorten_frame_eq df _ _ kd kx ky Hd Hx Hy).
    cbn [bound_max bound_min]. now rewrite HM, Hm. }
  split.
  - rewrite !shorten_store. fold df. now rewrite E.
  - intros l' h' r0. rewrite shorten_store. fold df.
    set (P := fun r : cell * list cell =>
                cell_ltb (row_get kd r)
                         (bound_max (map (row_get kd) (rows df)) None)
                && cell_ltb (bound_min (map (row_get kd) (rows df)) None)
                            (row_get kd r)).
    destruct (filter P (rows df)) as [|q qs] eqn:Hkept.
    + rewrite (shorten_frame_eq df None None kd kx ky Hd Hx Hy).
      fold P. rewrite Hkept. discriminate.
    + destruct (shorten_frame_rows df None None kd kx ky P Hwf Hd Hx Hy)
        as (out & Hout & _ & _ & _ & _ & Hdist & _).
      * intros r. apply inside_mask.
      * now rewrite Hkept.
      * rewrite Hout. intros Hret. injection Hret as <- <-.
        rewrite deref_alloc. apply Hdist.
Qed.

Lemma shorten_default_bounds_witness :
  shorten [profile_0_5_10] 0%nat None None
  = shorten [profile_0_5_10] 0%nat (Some 10) (Some 0).
Proof.
  apply (shorten_default_bounds [profile_0_5_10] 0%nat 2%nat 0%nat 1%nat 10 0).
  - exact profile_0_5_10_wf.
  - reflexivity.
  - reflexivity.
  - reflexivity.
  - cbn -[Rmax INR]. f_equal.
    rewrite (Rmax_right 5 10) by lra. apply Rmax_right. lra.
  - cbn -[Rmin INR]. f_equal.
    rewrite (Rmin_left 5 10) by lra. apply Rmin_left. lra.
Defined.

(** ** [fill_nans] *)

Lemma col_pos_NoDup (cols : list string) (k : nat) (name : string) :
  NoDup cols -> nth_error cols k = Some name -> col_pos name cols = Some k.
Proof.
  revert k. induction cols as [|c t IH]; intros k Hnd Hk.
  - destruct k; discriminate.
  - inversion Hnd as [|? ? Hnotin Hnd']; subst. destruct k as [|k]; simpl in *.
    + inversion Hk; subst. now rewrite String.eqb_refl.
    + destruct (String.eqb c name) eqn:E.
      * apply String.eqb_eq in E. subst c. exfalso. apply Hnotin.
        eapply nth_error_In; eassumption.
      * now rewrite (IH k Hnd' Hk).
Qed.

Lemma fillna_rows (k k' : nat) (l : list (cell * list cell)) :
  map (fun p : (cell * list cell) * cell =>
         (fst (fst p), set_nth k (snd p) (snd (fst p))))
      (combine l (fillna (map (row_get k) l) (map (row_get k') l)))
  = map (fun r => (fst r,
                   set_nth k (if isna (nth k (snd r) None)
                              then nth k' (snd r) None
                              else nth k (snd r) None) (snd r))) l.
Proof.
  unfold fillna. rewrite combine_map2, map_map. reflexivity.
Qed.

(** The loop of [fill_nans] from its iteration [i] on, for a table whose
    column labels are distinct. *)
Lemma fill_nans_loop_rows (cols : list string) :
  forall (cs : list string) (i : nat) (df : DataFrame),
    NoDup (columns df) ->
    skipn 3 (columns df) = cols ->
    skipn i cols = cs ->
    fill_nans_loop cols (combine (seq i (List.length cs)) cs) df
    = Ok (mkDF (index_name df) (columns df)
            (map (fun r =>
                    (fst r,
                     fold_left (fun acc k => fill_step k acc)
                       (seq (3 + Nat.max i 1) (List.length cols - Nat.max i 1))
                       (snd r)))
                 (rows df))).
Proof.
  induction cs as [|j cs IH]; intros i df Hnd Hcols Hcs.
  - cbn [List.length seq combine fill_nans_loop].
    assert (Hlen : (List.length cols <= i)%nat).
    { apply (f_equal (@List.length string)) in Hcs.
      rewrite length_skipn in Hcs. cbn in Hcs.
      destruct (Nat.le_gt_cases (List.length cols) i); [assumption|lia]. }
    replace (List.length cols - Nat.max i 1)%nat with 0%nat by lia.
    cbn [seq fold_left]. destruct df as [nm cl rw]. cbn [index_name columns rows].
    f_equal. f_equal. rewrite <- (map_id rw) at 1. apply map_ext.
    now intros [a b].
  - cbn [List.length seq combine fill_nans_loop].
    assert (Hi : (i < List.length cols)%nat).
    { apply (f_equal (@List.length string)) in Hcs.
      rewrite length_skipn in Hcs. cbn [List.length] in Hcs. lia. }
    assert (Hnext : skipn (S i) cols = cs).
    { replace (S i) with (1 + i)%nat by lia.
      rewrite <- skipn_skipn, Hcs. reflexivity. }
    destruct i as [|i].
    + cbn [Nat.eqb]. rewrite (IH 1%nat df Hnd Hcols Hnext). reflexivity.
    + cbn [Nat.eqb].
      assert (Hj : nth_error cols (S i) = Some j).
      { rewrite <- (firstn_skipn (S i) cols) at 1.
        rewrite nth_error_app2 by (rewrite length_firstn; lia).
        rewrite length_firstn, Nat.min_l by lia.
        rewrite Nat.sub_diag, Hcs. reflexivity. }
      assert (Hjpos : col_pos j (columns df) = Some (3 + S i)%nat).
      { apply col_pos_NoDup; [assumption|].
        rewrite <- (firstn_skipn 3 (columns df)), Hcols.
        assert (L3 : List.length (firstn 3 (columns df)) = 3%nat).
        { rewrite length_firstn. apply Nat.min_l.
          apply (f_equal (@List.length string)) in Hcols.
          rewrite length_skipn in Hcols. lia. }
        rewrite nth_error_app2 by lia. rewrite L3.
        replace (3 + S i - 3)%nat with (S i) by lia. exact Hj. }
      assert (Hprev : col_pos (nth (S i - 1) cols EmptyString) (columns df)
                      = Some (3 + i)%nat).
      { apply col_pos_NoDup; [assumption|].
        rewrite <- (firstn_skipn 3 (columns df)), Hcols.
        assert (L3 : List.length (firstn 3 (columns df)) = 3%nat).
        { rewrite length_firstn. apply Nat.min_l.
          apply (f_equal (@List.length string)) in Hcols.
          rewrite length_skipn in Hcols. lia. }
        rewrite nth_error_app2 by lia. rewrite L3.
        replace (3 + i - 3)%nat with i by lia.
        replace (S i - 1)%nat with i by lia.
        apply nth_error_nth'. lia. }
      unfold getitem, column. rewrite Hjpos, Hprev. cbn [bind].
      unfold setitem. rewrite Hjpos. rewrite fillna_rows.
      rewrite IH; cbn [columns index_name rows]; try assumption.
      f_equal. f_equal. rewrite map_map. apply map_ext. intros r.
      cbn [fst snd]. f_equal.
      replace (Nat.max (S i) 1) with (S i) by lia.
      replace (Nat.max (S (S i)) 1) with (S (S i)) by lia.
      replace (List.length cols - S i)%nat
        with (S (List.length cols - S (S i))) by lia.
      cbn [seq fold_left]. unfold fill_step at 2.
      replace (3 + S i - 1)%nat with (3 + i)%nat by lia.
      reflexivity.
Qed.

Lemma fill_nans_frame_rows (df : DataFrame) :
  NoDup (columns df) ->
  fill_nans_frame df
  = Ok (mkDF (index_name df) (columns df)
          (map (fun r => (fst r, fill_row (List.length (columns df)) (snd r)))
               (rows df))).
Proof.
  intros Hnd. unfold fill_nans_frame.
  rewrite (fill_nans_loop_rows (skipn 3 (columns df)) (skipn 3 (columns df))
             0%nat df Hnd eq_refl eq_refl).
  f_equal. f_equal. apply map_ext. intros r. f_equal. unfold fill_row.
  rewrite length_skipn. cbn [Nat.max].
  replace (3 + 1)%nat with 4%nat by lia.
  replace (List.length (columns df) - 3 - 1)%nat
    with (List.length (columns df) - 4)%nat by lia.
  reflexivity.
Qed.

Lemma fill_step_length (k : nat) (r : list cell) :
  List.length (fill_step k r) = List.length r.
Proof. apply set_nth_length. Qed.

Lemma fill_step_other (k j : nat) (r : list cell) :
  j <> k -> nth j (fill_step k r) None = nth j r None.
Proof. intros H. now apply nth_set_nth_other. Qed.

Lemma fill_step_same (k : nat) (r : list cell) :
  (k < List.length r)%nat ->
  nth k (fill_step k r) None
  = if isna (nth k r None) then nth (k - 1) r None else nth k r None.
Proof. intros H. now apply nth_set_nth_same. Qed.

Lemma fill_row_spec (m : nat) (r : list cell) :
  let r' := fold_left (fun acc k => fill_step k acc) (seq 4 m) r in
  List.length r' = List.length r
  /\ (forall k, (k < 4 \/ 4 + m <= k)%nat -> nth k r' None = nth k r None)
  /\ (forall k, (4 <= k < 4 + m)%nat -> (k < List.length r)%nat ->
        nth k r' None = if isna (nth k r None) then nth (k - 1) r' None
                        else nth k r None).
Proof.
  induction m as [|m IH]; cbn zeta.
  - cbn [seq fold_left]. repeat split; intros; try reflexivity; lia.
  - rewrite seq_S, fold_left_app. cbn [fold_left].
    set (r' := fold_left (fun acc k => fill_step k acc) (seq 4 m) r) in *.
    cbn zeta in IH. destruct IH as (Hlen & Hout & Hin).
    repeat split.
    + now rewrite fill_step_length.
    + intros k Hk. rewrite fill_step_other by lia. apply Hout. lia.
    + intros k Hk Hlt.
      destruct (Nat.eq_dec k (4 + m)) as [->|Hne].
      * rewrite fill_step_same by lia.
        rewrite fill_step_other by lia.
        rewrite (Hout (4 + m)%nat) by lia. reflexivity.
      * rewrite !fill_step_other by lia. apply Hin; [lia|assumption].
Qed.

Lemma store_length (h : heap) (l : loc) (v : DataFrame) :
  List.length (store h l v) = List.length h.
Proof. revert l; induction h; intros [|l]; simpl; auto. Qed.

Lemma deref_store_same (h : heap) (l : loc) (v : DataFrame) :
  (l < List.length h)%nat -> deref (store h l v) l = v.
Proof.
  unfold deref. revert l; induction h as [|d h IH]; intros [|l]; simpl;
    intros H; try lia; [reflexivity|]. apply IH. lia.
Qed.

Lemma deref_store_other (h : heap) (l l' : loc) (v : DataFrame) :
  l' <> l -> deref (store h l v) l' = deref h l'.
Proof.
  unfold deref. revert l l'; induction h as [|d h IH]; intros [|l] [|l'];
    simpl; intros H; try reflexivity; try lia. apply IH. lia.
Qed.

Lemma store_store (h : heap) (l : loc) (v w : DataFrame) :
  store (store h l v) l w = store h l w.
Proof. revert l; induction h as [|d h IH]; intros [|l]; simpl; congruence. Qed.

Lemma store_deref (h : heap) (l : loc) :
  store h l (deref h l) = h.
Proof.
  unfold deref. revert l; induction h as [|d h IH]; intros [|l]; simpl;
    try reflexivity. now rewrite IH.
Qed.

(** The loop on the object leaves in the store what the loop computes on the
    value. *)
Lemma fill_nans_iter_store (cols : list string) (ijs : list (nat * string)) :
  forall (h : heap) (l : loc) (d : DataFrame),
    (l < List.length h)%nat ->
    fill_nans_loop cols ijs (deref h l) = Ok d ->
    fill_nans_iter cols ijs l h = (Ok tt, store h l d).
Proof.
  induction ijs as [|[i j] rest IH]; intros h l d Hl.
  - cbn [fill_nans_iter fill_nans_loop]. intros [= <-].
    now rewrite store_deref.
  - cbn [fill_nans_iter fill_nans_loop].
    destruct (Nat.eqb i 0); [now apply IH|].
    destruct (getitem (deref h l) j) as [s|e]; cbn [bind]; [|discriminate].
    destruct (getitem (deref h l) (nth (i - 1) cols EmptyString)) as [a|e];
      cbn [bind]; [|discriminate].
    intros Hloop.
    rewrite (IH _ l d); [now rewrite store_store|now rewrite store_length|].
    now rewrite deref_store_same.
Qed.

(** C8.  On a table with distinct column labels, [fill_nans] succeeds and
    returns its argument, which holds the filled table [out] after the call.
    [out] has the index, the labels, the first three columns and the first
    layer (column 3) of the table before; every later layer (column
    [k >= 4]) keeps its entries that are present, and every missing entry
    takes the entry of column [k - 1] of the same row as it stands after
    filling, so values carry forward through consecutive missing layers. *)
Theorem fill_nans_carries_forward (h : heap) (l : loc) :
  let df := deref h l in
  (l < List.length h)%nat ->
  wf df ->
  NoDup (columns df) ->
  exists out,
    fill_nans h l = (Ok l, store h l out)
    /\ deref (snd (fill_nans h l)) l = out
    /\ index_name out = index_name df
    /\ columns out = columns df
    /\ map fst (rows out) = map fst (rows df)
    /\ forall p r r',
         nth_error (rows df) p = Some r ->
         nth_error (rows out) p = Some r' ->
         (forall k, (k < 4)%nat -> row_get k r' = row_get k r)
         /\ (forall k, (4 <= k < List.length (columns df))%nat ->
               row_get k r' = match row_get k r with
                              | Some v => Some v
                              | None => row_get (k - 1) r'
                              end).
Proof.
  intros df Hl Hwf Hnd.
  exists (mkDF (index_name df) (columns df)
            (map (fun r => (fst r, fill_row (List.length (columns df)) (snd r)))
                 (rows df))).
  assert (Hrun : fill_nans h l
                 = (Ok l, store h l
                      (mkDF (index_name df) (columns df)
                         (map (fun r =>
                                 (fst r,
                                  fill_row (List.length (columns df)) (snd r)))
                              (rows df))))).
  { unfold fill_nans. fold df.
    erewrite fill_nans_iter_store; [reflexivity|assumption|].
    now apply fill_nans_frame_rows. }
  split; [exact Hrun|]. split.
  - rewrite Hrun. cbn [snd]. now apply deref_store_same.
  - cbn [index_name columns rows]. split; [reflexivity|].
    split; [reflexivity|]. split; [now rewrite map_map|].
    intros p r r' Hr Hr'. rewrite nth_error_map, Hr in Hr'. cbn in Hr'.
    injection Hr' as <-. unfold row_get. cbn [snd].
    assert (Hlen : List.length (snd r) = List.length (columns df)).
    { unfold wf in Hwf. rewrite Forall_forall in Hwf. apply Hwf.
      eapply nth_error_In; eassumption. }
    destruct (fill_row_spec (List.length (columns df) - 4) (snd r))
      as (_ & Hout & Hin).
    fold (fill_row (List.length (columns df)) (snd r)) in Hout, Hin.
    split.
    + intros k Hk. apply Hout. lia.
    + intros k Hk. rewrite Hin by lia.
      now destruct (nth k (snd r) None).
Qed.

Lemma fill_nans_carries_forward_witness :
  let df := mkDF None ["x"; "y"; "dist"; "L1"; "L2"; "L3"]%string
              [(Some 0, [Some 0; Some 0; Some 0; Some 7; None; None])] in
  exists out,
    fill_nans [df] 0%nat = (Ok 0%nat, [out])
    /\ deref (snd (fill_nans [df] 0%nat)) 0%nat = out
    /\ rows out = [(Some 0, [Some 0; Some 0; Some 0; Some 7; Some 7; Some 7])].
Proof.
  intros df.
  destruct (fill_nans_carries_forward [df] 0%nat) as [out (H & Hd & _)].
  - simpl. lia.
  - repeat constructor.
  - repeat constructor; simpl; intuition discriminate.
  - exists out. split; [exact H|]. split; [exact Hd|].
    rewrite <- Hd. reflexivity.
Defined.

(** ** [sample_grids] *)

Lemma has_col_false (df : DataFrame) (name : string) :
  has_col df name = false -> col_pos name (columns df) = None.
Proof.
  unfold has_col. induction (columns df) as [|c t IH]; simpl; [reflexivity|].
  intros H. apply orb_false_elim in H. destruct H as [H1 H2].
  rewrite String.eqb_sym, H1. now rewrite IH.
Qed.

Lemma has_col_filter (cols : list string) (name : string) :
  existsb (String.eqb name)
          (filter (fun c => negb (String.eqb c name)) cols) = false.
Proof.
  induction cols as [|c t IH]; simpl; [reflexivity|].
  destruct (String.eqb c name) eqn:E; simpl; [assumption|].
  now rewrite String.eqb_sym, E.
Qed.

Lemma has_col_app_self (cols : list string) (name : string) :
  existsb (String.eqb name) (cols ++ [name]) = true.
Proof.
  rewrite existsb_app. simpl. rewrite String.eqb_refl.
  now rewrite orb_true_r.
Qed.

Lemma filter_absent (cols : list string) (name : string) :
  existsb (String.eqb name) cols = false ->
  filter (fun c => negb (String.eqb c name)) (cols ++ [name]) = cols.
Proof.
  induction cols as [|c t IH]; simpl.
  - now rewrite String.eqb_refl.
  - intros H. apply orb_false_elim in H. destruct H as [H1 H2].
    rewrite String.eqb_sym, H1. simpl. now rewrite IH.
Qed.

Lemma drop_label_absent (cols : list string) (name : string) :
  existsb (String.eqb name) cols = false ->
  forall (vals : list cell) (v : cell),
    List.length vals = List.length cols ->
    drop_label name (cols ++ [name]) (vals ++ [v]) = vals.
Proof.
  induction cols as [|c t IH]; simpl; intros H vals v Hlen.
  - destruct vals; [|discriminate]. simpl. now rewrite String.eqb_refl.
  - apply orb_false_elim in H. destruct H as [H1 H2].
    destruct vals as [|a vals]; [discriminate|]. simpl.
    rewrite String.eqb_sym, H1. f_equal. apply IH; [assumption|].
    simpl in Hlen. lia.
Qed.

Lemma drop_label_length (name : string) (cols : list string) :
  forall vals : list cell,
    List.length vals = List.length cols ->
    List.length (drop_label name cols vals)
    = List.length (filter (fun c => negb (String.eqb c name)) cols).
Proof.
  induction cols as [|c t IH]; intros [|a vals] Hlen; simpl in *;
    try discriminate; try reflexivity.
  destruct (String.eqb c name); simpl; rewrite IH; auto.
Qed.

(** A column other than the dropped one is found after the drop, with the
    same entries. *)
Lemma drop_label_other (name c : string) (cols : list string) :
  c <> name ->
  match col_pos c cols with
  | Some k =>
      exists k',
        col_pos c (filter (fun c => negb (String.eqb c name)) cols) = Some k'
        /\ forall vals : list cell,
             List.length vals = List.length cols ->
             nth k' (drop_label name cols vals) None = nth k vals None
  | None =>
      col_pos c (filter (fun c => negb (String.eqb c name)) cols) = None
  end.
Proof.
  intros Hc. induction cols as [|d t IH]; [reflexivity|].
  cbn [col_pos filter]. destruct (String.eqb d c) eqn:Edc.
  - apply String.eqb_eq in Edc. subst d.
    replace (String.eqb c name) with false
      by (symmetry; now apply String.eqb_neq).
    cbn [negb col_pos]. rewrite String.eqb_refl. exists 0%nat.
    split; [reflexivity|]. intros [|a vals] Hlen; [discriminate|].
    cbn [drop_label].
    replace (String.eqb c name) with false
      by (symmetry; now apply String.eqb_neq).
    reflexivity.
  - destruct (String.eqb d name) eqn:Edn; cbn [negb].
    + destruct (col_pos c t) as [k|]; cbn [option_map]; [|exact IH].
      destruct IH as [k' [H1 H2]]. exists k'. split; [exact H1|].
      intros [|a vals] Hlen; [discriminate|]. cbn [drop_label]. rewrite Edn.
      cbn [nth]. apply H2. simpl in Hlen. lia.
    + cbn [col_pos]. rewrite Edc.
      destruct (col_pos c t) as [k|]; cbn [option_map].
      * destruct IH as [k' [H1 H2]]. exists (S k'). rewrite H1.
        split; [reflexivity|].
        intros [|a vals] Hlen; [discriminate|]. cbn [drop_label]. rewrite Edn.
        cbn [nth]. apply H2. simpl in Hlen. lia.
      * now rewrite IH.
Qed.

Lemma col_pos_app_other (c name : string) (cols : list string) :
  c <> name -> col_pos c (cols ++ [name]) = col_pos c cols.
Proof.
  intros Hc. induction cols as [|d t IH]; simpl.
  - now replace (String.eqb name c) with false
      by (symmetry; apply String.eqb_neq; congruence).
  - destruct (String.eqb d c); [reflexivity|]. now rewrite IH.
Qed.

Lemma map_snd_combine {A B C : Type} (f : B -> C) (l : list A) (m : list B) :
  List.length l = List.length m ->
  map (fun p : A * B => f (snd p)) (combine l m) = map f m.
Proof.
  revert m. induction l as [|a l IH]; intros [|b m] H; simpl in *;
    try discriminate; try reflexivity.
  f_equal. apply IH. lia.
Qed.

Lemma map_combine_ext {A B C : Type} (g : A * B -> C) (f : B -> C)
    (l : list A) (m : list B) :
  List.length l = List.length m ->
  (forall a b, g (a, b) = f b) ->
  map g (combine l m) = map f m.
Proof.
  intros H Hg. revert m H. induction l as [|a l IH]; intros [|b m] H;
    simpl in *; try discriminate; try reflexivity.
  rewrite Hg. f_equal. apply IH. lia.
Qed.

Lemma frame_eta (df : DataFrame) :
  mkDF (index_name df) (columns df) (map (fun r => (fst r, snd r)) (rows df))
  = df.
Proof.
  destruct df as [n c r]. cbn. f_equal. rewrite <- (map_id r) at 2.
  apply map_ext. now intros [a b].
Qed.

Lemma drop_or_copy (df : DataFrame) (name : string) :
  try_except (drop_columns df name) KeyError (Ok df)
  = Ok (without_column df name).
Proof.
  unfold drop_columns, without_column. now destruct (has_col df name).
Qed.

(** [sample_grids] on a table whose [df1] has an unnamed index, no column
    labelled ["index"] and the two coordinate columns. *)
Lemma sample_grids_frame_eq (df : DataFrame) (grid : cell -> cell -> cell)
    (name : string) (kx ky : nat) :
  let df1 := without_column df name in
  wf df1 ->
  index_name df1 = None ->
  has_col df1 "index" = false ->
  has_col df1 name = false ->
  name <> "index"%string ->
  col_pos "x" (columns df1) = Some kx ->
  col_pos "y" (columns df1) = Some ky ->
  sample_grids_frame df grid name = Ok (with_sampled df1 grid name kx ky).
Proof.
  intros df1 Hwf Hidx Hnoindex Hnoname Hname Hx Hy.
  unfold sample_grids_frame. rewrite drop_or_copy. fold df1. cbn [bind].
  unfold reset_index. rewrite Hidx, Hnoindex, Hnoindex. cbn [bind].
  unfold getitem, column. cbn [columns rows col_pos].
  change (String.eqb "index" "x") with false.
  change (String.eqb "index" "y") with false.
  rewrite Hx, Hy. cbn [option_map bind].
  unfold setitem. cbn [columns rows index_name col_pos].
  replace (String.eqb "index" name) with false
    by (symmetry; apply String.eqb_neq; congruence).
  rewrite (has_col_false df1 name Hnoname). cbn [option_map].
  unfold set_index. cbn [columns rows].
  change (("index"%string :: columns df1) ++ [name])%list
    with ("index"%string :: (columns df1 ++ [name]))%list.
  cbn [col_pos]. rewrite String.eqb_refl. cbn [firstn skipn app bind].
  unfold set_index_name. cbn [columns rows index_name].
  unfold drop_columns, has_col. cbn [columns rows index_name].
  rewrite has_col_app_self.
  rewrite filter_absent by exact Hnoname.
  rewrite combine_map2. rewrite !map_map. cbn [fst snd].
  assert (Hlen : List.length (range_index (List.length (rows df1)))
                 = List.length (rows df1))
    by (unfold range_index; now rewrite length_map, length_seq).
  rewrite (map_combine_ext _
             (fun r : cell * list cell =>
                (fst r, drop_label name (columns df1 ++ [name])
                          (snd r ++ [grid (row_get kx r) (row_get ky r)]))))
    by (try exact Hlen; intros a [b c]; reflexivity).
  rewrite (map_combine_ext _
             (fun r : cell * list cell =>
                (fst r, (snd r ++ [grid (row_get kx r) (row_get ky r)])%list)))
    by (try exact Hlen; intros a [b c]; reflexivity).
  assert (Hd :
    map (fun r : cell * list cell =>
           (fst r, drop_label name (columns df1 ++ [name])
                     (snd r ++ [grid (row_get kx r) (row_get ky r)])))
        (rows df1)
    = map (fun r => (fst r, snd r)) (rows df1)).
  { apply map_ext_in. intros r Hr. f_equal.
    apply drop_label_absent; [exact Hnoname|].
    unfold wf in Hwf. rewrite Forall_forall in Hwf. now apply Hwf. }
  rewrite Hd. rewrite <- Hidx at 1. rewrite frame_eta. cbn [bind].
  unfold assert_frame_equal.
  destruct (DataFrame_eq_dec df1 df1) as [_|N]; [|contradiction].
  cbn [bind]. unfold with_sampled. now rewrite Hidx.
Qed.

Lemma filter_no_label (cols : list string) (name : string) :
  existsb (String.eqb name) cols = false ->
  filter (fun c => negb (String.eqb c name)) cols = cols.
Proof.
  induction cols as [|c t IH]; simpl; [reflexivity|].
  intros H. apply orb_false_elim in H. destruct H as [H1 H2].
  rewrite String.eqb_sym, H1. simpl. now rewrite IH.
Qed.

Lemma existsb_filter_false (c name : string) (cols : list string) :
  existsb (String.eqb c) cols = false ->
  existsb (String.eqb c)
          (filter (fun d => negb (String.eqb d name)) cols) = false.
Proof.
  induction cols as [|d t IH]; simpl; [reflexivity|].
  intros H. apply orb_false_elim in H. destruct H as [H1 H2].
  destruct (String.eqb d name); simpl; [now apply IH|].
  rewrite H1. now apply IH.
Qed.

Lemma without_column_wf (df : DataFrame) (name : string) :
  wf df -> wf (without_column df name).
Proof.
  unfold without_column. destruct (has_col df name); [|easy].
  unfold wf. cbn [rows columns]. rewrite !Forall_forall.
  intros H r Hr. apply in_map_iff in Hr. destruct Hr as [q [<- Hq]].
  cbn [snd]. apply drop_label_length. now apply H.
Qed.

Lemma without_column_index_name (df : DataFrame) (name : string) :
  index_name (without_column df name) = index_name df.
Proof. unfold without_column. now destruct (has_col df name). Qed.

Lemma without_column_labels (df : DataFrame) (name : string) :
  map fst (rows (without_column df name)) = map fst (rows df).
Proof.
  unfold without_column. destruct (has_col df name); [|reflexivity].
  cbn [rows]. now rewrite map_map.
Qed.

Lemma without_column_columns (df : DataFrame) (name : string) :
  columns (without_column df name)
  = filter (fun c => negb (String.eqb c name)) (columns df).
Proof.
  unfold without_column. destruct (has_col df name) eqn:E; [reflexivity|].
  symmetry. now apply filter_no_label.
Qed.

Lemma without_column_absent (df : DataFrame) (name : string) :
  has_col (without_column df name) name = false.
Proof.
  unfold has_col. rewrite without_column_columns. apply has_col_filter.
Qed.

Lemma without_column_keeps_absent (df : DataFrame) (name c : string) :
  has_col df c = false -> has_col (without_column df name) c = false.
Proof.
  unfold has_col. rewrite without_column_columns. apply existsb_filter_false.
Qed.

(** Dropping the target column does not touch any other column. *)
Lemma without_column_getitem (df : DataFrame) (name c : string) :
  wf df -> c <> name ->
  getitem (without_column df name) c = getitem df c.
Proof.
  intros Hwf Hc. unfold without_column.
  destruct (has_col df name); [|reflexivity].
  unfold getitem, column. cbn [columns rows].
  pose proof (drop_label_other name c (columns df) Hc) as H0.
  destruct (col_pos c (columns df)) as [k|].
  - destruct H0 as [k' [Hk' Hn]]. rewrite Hk'. f_equal.
    rewrite map_map. apply map_ext_in. intros r Hr.
    unfold row_get. cbn [snd]. apply Hn.
    unfold wf in Hwf. rewrite Forall_forall in Hwf. now apply Hwf.
  - now rewrite H0.
Qed.

Lemma getitem_col_pos (df : DataFrame) (c : string) (s : list cell) :
  getitem df c = Ok s ->
  exists k, col_pos c (columns df) = Some k /\ s = map (row_get k) (rows df).
Proof.
  unfold getitem, column. destruct (col_pos c (columns df)) as [k|];
    [|discriminate].
  intros H. injection H as <-. now exists k.
Qed.

Lemma with_sampled_wf (df1 : DataFrame) (grid : cell -> cell -> cell)
    (name : string) (kx ky : nat) :
  wf df1 -> wf (with_sampled df1 grid name kx ky).
Proof.
  unfold wf, with_sampled. cbn [rows columns]. rewrite !Forall_forall.
  intros H r Hr. apply in_map_iff in Hr. destruct Hr as [q [<- Hq]].
  cbn [snd]. rewrite !length_app. cbn [List.length]. now rewrite (H q Hq).
Qed.

Lemma with_sampled_getitem_other (df1 : DataFrame)
    (grid : cell -> cell -> cell) (name c : string) (kx ky : nat) :
  wf df1 -> c <> name ->
  getitem (with_sampled df1 grid name kx ky) c = getitem df1 c.
Proof.
  intros Hwf Hc. unfold getitem, column, with_sampled. cbn [columns rows].
  rewrite col_pos_app_other by assumption.
  destruct (col_pos c (columns df1)) as [k|] eqn:E; [|reflexivity].
  f_equal. rewrite map_map. apply map_ext_in. intros r Hr.
  unfold row_get. cbn [snd]. apply app_nth1.
  unfold wf in Hwf. rewrite Forall_forall in Hwf. rewrite (Hwf r Hr).
  now apply col_pos_lt with (name := c).
Qed.

Lemma col_pos_app_new (name : string) (cols : list string) :
  existsb (String.eqb name) cols = false ->
  col_pos name (cols ++ [name]) = Some (List.length cols).
Proof.
  induction cols as [|c t IH]; simpl.
  - now rewrite String.eqb_refl.
  - intros H. apply orb_false_elim in H. destruct H as [H1 H2].
    rewrite String.eqb_sym, H1. now rewrite IH.
Qed.

Lemma with_sampled_getitem_new (df1 : DataFrame)
    (grid : cell -> cell -> cell) (name : string) (kx ky : nat) :
  wf df1 -> has_col df1 name = false ->
  getitem (with_sampled df1 grid name kx ky) name
  = Ok (map2 grid (map (row_get kx) (rows df1)) (map (row_get ky) (rows df1))).
Proof.
  intros Hwf Hno. unfold getitem, column, with_sampled. cbn [columns rows].
  rewrite col_pos_app_new by exact Hno. f_equal. rewrite map_map.
  transitivity (map (fun r => grid (row_get kx r) (row_get ky r)) (rows df1)).
  - apply map_ext_in. intros r Hr. unfold row_get at 1. cbn [snd].
    unfold wf in Hwf. rewrite Forall_forall in Hwf. rewrite <- (Hwf r Hr).
    apply nth_middle.
  - clear. induction (rows df1) as [|r t IH]; simpl; congruence.
Qed.

(** Dropping the sampled column gives back the table it was added to. *)
Lemma without_with_sampled (df1 : DataFrame) (grid : cell -> cell -> cell)
    (name : string) (kx ky : nat) :
  wf df1 -> has_col df1 name = false ->
  without_column (with_sampled df1 grid name kx ky) name = df1.
Proof.
  intros Hwf Hno. unfold without_column, has_col, with_sampled.
  cbn [columns rows index_name]. rewrite has_col_app_self.
  rewrite filter_absent by exact Hno. rewrite map_map. cbn [fst snd].
  rewrite <- (frame_eta df1) at 4. f_equal.
  apply map_ext_in. intros r Hr. f_equal.
  apply drop_label_absent; [exact Hno|].
  unfold wf in Hwf. rewrite Forall_forall in Hwf. now apply Hwf.
Qed.

Lemma sample_grids_store (h : heap) (l : loc) (grid : cell -> cell -> cell)
    (name : string) :
  sample_grids h l grid name
  = match sample_grids_frame (deref h l) grid name with
    | Ok out => (Ok (List.length h), (h ++ [out])%list)
    | Raise e => (Raise e, h)
    end.
Proof. reflexivity. Qed.

(** C7 (the claim fails on the code).  [sample_grids] does not take every
    table: on a table whose index has a name, here ["station"],
    [reset_index] inserts the index under that name, [set_index("index")]
    finds no such column, and the call raises KeyError. *)
Lemma sample_grids_refuses_named_index :
  let df := mkDF (Some "station"%string) ["x"; "y"; "dist"]%string
                 [(Some 7, [Some 0; Some 0; Some 0]);
                  (Some 8, [Some 5; Some 0; Some 5])] in
  sample_grids [df] 0%nat (fun x y => cell_add x y) "surface"
  = (Raise KeyError, [df]).
Proof. reflexivity. Qed.

(** C7 (amended).  For a profile table (one entry per column in every row,
    unnamed index, no column labelled ["index"], coordinate columns [x] and
    [y]) and
    a layer name other than ["x"], ["y"] and ["index"], [sample_grids]
    returns a new table with the index name, the index labels and the row
    order of its input; every column with another label has the entries it
    has in the input; the columns labelled [sampled_name] are dropped and
    one column with that label is appended, holding the grid sampled at the
    points [(x, y)] of the rows; sampling the result again with the same
    name and grid returns the same table. *)
Theorem sample_grids_frame_condition (h : heap) (l : loc)
    (grid : cell -> cell -> cell) (sampled_name : string)
    (xs ys : list cell) :
  let df := deref h l in
  wf df ->
  index_name df = None ->
  has_col df "index" = false ->
  getitem df "x" = Ok xs ->
  getitem df "y" = Ok ys ->
  ~ In sampled_name ["x"; "y"; "index"]%string ->
  exists out,
    sample_grids h l grid sampled_name
    = (Ok (List.length h), (h ++ [out])%list)
    /\ index_name out = index_name df
    /\ map fst (rows out) = map fst (rows df)
    /\ columns out
       = (filter (fun c => negb (String.eqb c sampled_name)) (columns df)
          ++ [sampled_name])%list
    /\ (forall c, c <> sampled_name -> getitem out c = getitem df c)
    /\ getitem out sampled_name = Ok (map2 grid xs ys)
    /\ (forall h2 l2, deref h2 l2 = out ->
          sample_grids h2 l2 grid sampled_name
          = (Ok (List.length h2), (h2 ++ [out])%list)).
Proof.
  intros df Hwf Hidx Hnoindex Hxs Hys Hname.
  assert (Nx : "x"%string <> sampled_name) by (intros E; apply Hname; simpl; auto).
  assert (Ny : "y"%string <> sampled_name) by (intros E; apply Hname; simpl; auto).
  assert (Ni : sampled_name <> "index"%string)
    by (intros E; apply Hname; simpl; auto).
  set (df1 := without_column df sampled_name).
  assert (Hwf1 : wf df1) by now apply without_column_wf.
  assert (Hidx1 : index_name df1 = None)
    by (unfold df1; now rewrite without_column_index_name).
  assert (Hnoindex1 : has_col df1 "index" = false)
    by now apply without_column_keeps_absent.
  assert (Hno1 : has_col df1 sampled_name = false)
    by apply without_column_absent.
  assert (Hx1 : getitem df1 "x" = Ok xs)
    by (unfold df1; now rewrite without_column_getitem).
  assert (Hy1 : getitem df1 "y" = Ok ys)
    by (unfold df1; now rewrite without_column_getitem).
  destruct (getitem_col_pos _ _ _ Hx1) as [kx [Hkx Exs]].
  destruct (getitem_col_pos _ _ _ Hy1) as [ky [Hky Eys]].
  assert (Hout : sample_grids_frame df grid sampled_name
                 = Ok (with_sampled df1 grid sampled_name kx ky))
    by now apply sample_grids_frame_eq.
  exists (with_sampled df1 grid sampled_name kx ky).
  split; [rewrite sample_grids_store; fold df; now rewrite Hout|].
  split; [cbn [with_sampled index_name]; apply without_column_index_name|].
  split.
  { cbn [with_sampled rows]. rewrite map_map. cbn [fst].
    apply without_column_labels. }
  split.
  { cbn [with_sampled columns]. unfold df1.
    now rewrite without_column_columns. }
  split.
  { intros c Hc. rewrite with_sampled_getitem_other by assumption.
    now apply without_column_getitem. }
  split.
  { rewrite with_sampled_getitem_new by assumption. now rewrite <- Exs, <- Eys. }
  intros h2 l2 Hd. rewrite sample_grids_store, Hd.
  rewrite (sample_grids_frame_eq _ grid sampled_name kx ky);
    rewrite ?without_with_sampled by assumption; try assumption.
  reflexivity.
Qed.

Lemma sample_grids_frame_condition_witness :
  exists out,
    sample_grids [profile_0_5_10] 0%nat (fun x y => cell_add x y) "bed"
    = (Ok 1%nat, [profile_0_5_10; out]).
Proof.
  destruct (sample_grids_frame_condition [profile_0_5_10] 0%nat
              (fun x y => cell_add x y) "bed"
              [Some 0; Some 5; Some 10] [Some 0; Some 0; Some 0])
    as [out [H _]].
  - exact profile_0_5_10_wf.
  - reflexivity.
  - reflexivity.
  - reflexivity.
  - reflexivity.
  - simpl. intros [H|[H|[H|[]]]]; discriminate H.
  - exists out. exact H.
Defined.

(** ** The consumers and their argument *)

Lemma fill_nans_iter_others (cols : list string) (ijs : list (nat * string))
    (l k : loc) :
  k <> l ->
  forall h, deref (snd (fill_nans_iter cols ijs l h)) k = deref h k.
Proof.
  intros Hk. induction ijs as [|[i j] rest IH]; intros h; [reflexivity|].
  cbn [fill_nans_iter]. destruct (Nat.eqb i 0); [apply IH|].
  destruct (getitem (deref h l) j); [|reflexivity].
  destruct (getitem (deref h l) _); [|reflexivity].
  rewrite IH. now apply deref_store_other.
Qed.

Lemma store_last (h : heap) (a v : DataFrame) :
  store (h ++ [a]) (List.length h) v = (h ++ [v])%list.
Proof. induction h as [|d h IH]; simpl; [reflexivity|now rewrite IH]. Qed.

Lemma deref_app_old (h extra : heap) (k : loc) :
  (k < List.length h)%nat -> deref (h ++ extra) k = deref h k.
Proof. intros H. unfold deref. now rewrite app_nth1. Qed.

Lemma shorten_frame_steps (df : DataFrame) (max_dist min_dist : option R) :
  shorten_frame df max_dist min_dist
  = (mask <- shorten_mask df max_dist min_dist ;;
     let shortened := mkDF (index_name df) (columns df)
                           (map snd (filter fst (combine mask (rows df)))) in
     dist <- shorten_dist shortened ;;
     Ok (setitem shortened "dist"%string dist)).
Proof.
  unfold shorten_frame, shorten_mask, shorten_dist.
  destruct max_dist, min_dist; cbn [bind];
    destruct (getattr df "dist"%string); cbn [bind]; try reflexivity.
  all: repeat (match goal with
               | |- context [bind (getattr ?d ?n) _] => destruct (getattr d n)
               | |- context [bind (iloc0 ?x) _] => destruct (iloc0 x)
               end; cbn [bind]); reflexivity.
Qed.

Lemma sample_grids_steps_run (h : heap) (df : loc)
    (grid : cell -> cell -> cell) (name : string) :
  exists extra,
    snd (sample_grids_steps df grid name h) = (h ++ extra)%list
    /\ match fst (sample_grids_steps df grid name h) with
       | Ok l => (List.length h <= l)%nat
                 /\ sample_grids_frame (deref h df) grid name
                    = Ok (deref (h ++ extra) l)
       | Raise e => sample_grids_frame (deref h df) grid name = Raise e
       end.
Proof.
  unfold sample_grids_steps, sample_grids_frame, and_then, read, lift, new,
    write, ret, alloc.
  destruct (try_except _ _ _) as [v1|e]; cbn [bind fst snd].
  2:{ exists []. now rewrite app_nil_r. }
  rewrite !deref_alloc.
  destruct (reset_index v1) as [v3|e]; cbn [bind fst snd].
  2:{ eexists. rewrite <- !app_assoc. split; reflexivity. }
  rewrite !deref_alloc.
  destruct (getitem v3 "x"%string) as [xs|e]; cbn [bind fst snd].
  2:{ eexists. rewrite <- !app_assoc. split; reflexivity. }
  destruct (getitem v3 "y"%string) as [ys|e]; cbn [bind fst snd].
  2:{ eexists. rewrite <- !app_assoc. split; reflexivity. }
  rewrite !store_last, !deref_alloc.
  destruct (set_index _ "index"%string) as [v4|e]; cbn [bind fst snd].
  2:{ eexists. rewrite <- !app_assoc. split; reflexivity. }
  rewrite !store_last, !deref_alloc.
  repeat rewrite (deref_old _ _ (List.length h))
    by (rewrite ?length_app; simpl; lia).
  rewrite !deref_alloc.
  destruct (drop_columns _ name) as [v5|e]; cbn [bind fst snd].
  2:{ eexists. rewrite <- !app_assoc. split; reflexivity. }
  rewrite !deref_alloc.
  repeat rewrite (deref_old _ _ (List.length h))
    by (rewrite ?length_app; simpl; lia).
  rewrite !deref_alloc.
  destruct (assert_frame_equal v5 v1) as [[]|e]; cbn [bind fst snd].
  2:{ eexists. rewrite <- !app_assoc. split; reflexivity. }
  eexists. rewrite <- !app_assoc. split; [reflexivity|].
  split; [rewrite length_app; lia|]. f_equal. unfold deref.
  rewrite length_app, app_nth2_plus. reflexivity.
Qed.

Lemma shorten_steps_run (h : heap) (df : loc) (max_dist min_dist : option R) :
  exists extra,
    snd (shorten_steps df max_dist min_dist h) = (h ++ extra)%list
    /\ match fst (shorten_steps df max_dist min_dist h) with
       | Ok l => (List.length h <= l)%nat
                 /\ shorten_frame (deref h df) max_dist min_dist
                    = Ok (deref (h ++ extra) l)
       | Raise e => shorten_frame (deref h df) max_dist min_dist = Raise e
       end.
Proof.
  rewrite shorten_frame_steps.
  unfold shorten_steps, and_then, read, lift, new, write, ret, alloc.
  destruct (shorten_mask _ _ _) as [mask|e]; cbn [bind fst snd].
  2:{ exists []. now rewrite app_nil_r. }
  rewrite !deref_alloc. cbv zeta.
  destruct (shorten_dist _) as [dist|e]; cbn [bind fst snd].
  2:{ eexists. rewrite <- !app_assoc. split; reflexivity. }
  rewrite store_last.
  eexists. rewrite <- !app_assoc. split; [reflexivity|].
  split; [rewrite length_app; lia|]. f_equal. unfold deref.
  rewrite length_app, app_nth2_plus. reflexivity.
Qed.

(** C9 (the claim fails on the code).  [fill_nans] assigns into the table it
    is given: after the call the argument holds the filled layers, and the
    returned reference is the argument itself. *)
Lemma fill_nans_mutates_argument :
  let filled := mkDF None ["x"; "y"; "dist"; "L1"; "L2"; "L3"]%string
                  [(Some 0, [Some 0; Some 0; Some 0; Some 7; Some 7; Some 7])] in
  fill_nans [layers_with_gaps] 0%nat = (Ok 0%nat, [filled])
  /\ deref [filled] 0%nat <> layers_with_gaps.
Proof.
  split; [reflexivity|]. cbn. unfold layers_with_gaps. intros E.
  injection E as E. discriminate E.
Qed.

(** C9 (amended).  [sample_grids] and [shorten], followed statement by
    statement with their assignments [df3[sampled_name] = ...],
    [df4.index.name = ...] and [shortened["dist"] = ...], assign only into
    tables that the call itself created: every table that existed before the
    call, the argument included, is unchanged after it, whether the call
    returns or raises; a call that returns gives a table created by the
    call, not the argument, holding the value computed from the argument.
    [fill_nans] returns the very object it is given and leaves every other
    table unchanged. *)
Theorem consumers_and_their_argument (h : heap) (df : loc)
    (grid : cell -> cell -> cell) (sampled_name : string)
    (max_dist min_dist : option R) :
  (df < List.length h)%nat ->
  (forall k, (k < List.length h)%nat ->
     deref (snd (sample_grids_steps df grid sampled_name h)) k = deref h k)
  /\ match fst (sample_grids_steps df grid sampled_name h) with
     | Ok l' =>
         (List.length h <= l')%nat /\ l' <> df
         /\ sample_grids_frame (deref h df) grid sampled_name
            = Ok (deref (snd (sample_grids_steps df grid sampled_name h)) l')
     | Raise e =>
         sample_grids_frame (deref h df) grid sampled_name = Raise e
     end
  /\ (forall k, (k < List.length h)%nat ->
        deref (snd (shorten_steps df max_dist min_dist h)) k = deref h k)
  /\ match fst (shorten_steps df max_dist min_dist h) with
     | Ok l' =>
         (List.length h <= l')%nat /\ l' <> df
         /\ shorten_frame (deref h df) max_dist min_dist
            = Ok (deref (snd (shorten_steps df max_dist min_dist h)) l')
     | Raise e => shorten_frame (deref h df) max_dist min_dist = Raise e
     end
  /\ (forall l', fst (fill_nans h df) = Ok l' -> l' = df)
  /\ (forall k, k <> df ->
        deref (snd (fill_nans h df)) k = deref h k).
Proof.
  intros Hdf.
  destruct (sample_grids_steps_run h df grid sampled_name) as (e1 & Hs1 & Hr1).
  destruct (shorten_steps_run h df max_dist min_dist) as (e2 & Hs2 & Hr2).
  split; [|split; [|split; [|split; [|split]]]].
  - intros k Hk. rewrite Hs1. now apply deref_app_old.
  - rewrite Hs1. destruct (fst (sample_grids_steps _ _ _ _)) as [l'|e];
      [|exact Hr1]. destruct Hr1 as [Hl Hv]. repeat split; [exact Hl|lia|exact Hv].
  - intros k Hk. rewrite Hs2. now apply deref_app_old.
  - rewrite Hs2. destruct (fst (shorten_steps _ _ _ _)) as [l'|e];
      [|exact Hr2]. destruct Hr2 as [Hl Hv]. repeat split; [exact Hl|lia|exact Hv].
  - intros l'. unfold fill_nans.
    destruct (fill_nans_iter _ _ df h) as [[u|e] h']; cbn [fst];
      intros H; [now injection H|discriminate].
  - intros k Hk. unfold fill_nans.
    pose proof (fill_nans_iter_others (skipn 3 (columns (deref h df)))
         (combine (seq 0 (List.length (skipn 3 (columns (deref h df)))))
                  (skipn 3 (columns (deref h df)))) df k Hk h) as Hs.
    destruct (fill_nans_iter _ _ df h) as [[u|e] h']; exact Hs.
Qed.

Lemma consumers_and_their_argument_witness :
  deref (snd (sample_grids_steps 0%nat (fun x y => cell_add x y) "bed"
                [profile_0_5_10])) 0%nat
  = deref [profile_0_5_10] 0%nat
  /\ exists l',
       fst (sample_grids_steps 0%nat (fun x y => cell_add x y) "bed"
              [profile_0_5_10]) = Ok l'
       /\ l' <> 0%nat.
Proof.
  destruct (consumers_and_their_argument [profile_0_5_10] 0%nat
              (fun x y => cell_add x y) "bed" None None)
    as (H1 & H2 & _).
  - simpl. lia.
  - split; [apply H1; simpl; lia|].
    destruct (fst (sample_grids_steps _ _ _ _)) as [l'|e].
    + exists l'. split; [reflexivity|apply H2].
    + exfalso.
      rewrite (sample_grids_frame_eq _ _ _ 0%nat 1%nat) in H2;
        [discriminate H2|exact profile_0_5_10_wf
        |reflexivity|reflexivity|reflexivity|discriminate
        |reflexivity|reflexivity].
Defined.

(** ** Resampling *)

Lemma vertex_profile_eq (cubic : list Row -> result (list Row))
    (from_shapefile : bool) (vs : list Vertex) (num : option Z)
    (reverse : bool) :
  vertex_profile cubic from_shapefile vs num reverse
  = try_except
      (match num with
       | Some n => resample cubic (unresampled vs reverse) n
       | None => Ok (unresampled vs reverse)
       end)
      ValueError (Ok (unresampled vs reverse)).
Proof. destruct from_shapefile; reflexivity. Qed.

Lemma cumsum_from_some (s : list cell) :
  Forall (fun c => notna c = true) s ->
  forall acc, Forall (fun c => notna c = true) (cumsum_from acc s).
Proof.
  induction 1 as [|c s Hc Hs IH]; intros acc; simpl; [constructor|].
  destruct c as [v|]; [|discriminate]. constructor; [reflexivity|apply IH].
Qed.

Lemma cumsum_from_length (s : list cell) :
  forall acc, List.length (cumsum_from acc s) = List.length s.
Proof. induction s as [|[v|] s IH]; intros acc; simpl; auto. Qed.

(** Every row of [cum_dist] has a [dist]: the rows with a NaN [rel_dist] are
    gone before the running sum. *)
Lemma cum_dist_notna (vs : list Vertex) (reverse : bool) :
  Forall (fun r => notna (pdist r) = true) (cum_dist vs reverse).
Proof.
  unfold cum_dist. set (df1 := rel_dist vs reverse).
  assert (H : Forall (fun c => notna c = true) (map snd df1)).
  { unfold df1, rel_dist. rewrite Forall_forall. intros c Hc.
    apply in_map_iff in Hc. destruct Hc as [t [<- Ht]].
    apply filter_In in Ht. tauto. }
  pose proof (cumsum_from_some _ H 0) as Hc. fold (cumsum (map snd df1)) in Hc.
  rewrite Forall_forall in *. intros r Hr.
  apply in_map_iff in Hr. destruct Hr as [t [<- Ht]]. cbn [pdist].
  apply Hc. destruct t as [a b]. apply in_combine_r in Ht. exact Ht.
Qed.

Lemma unresampled_notna (vs : list Vertex) (reverse : bool) :
  Forall (fun r => notna (pdist r) = true) (unresampled vs reverse).
Proof.
  pose proof (cum_dist_notna vs reverse) as H.
  rewrite Forall_forall in *. intros r Hr. apply H.
  eapply Permutation_in; [apply sort_values_perm|exact Hr].
Qed.

(** [s.min()] and [s.max()] of a series without NaN that is not empty are
    its least and its greatest entry. *)
Lemma series_extremes (s : list cell) :
  s <> [] -> Forall (fun c => notna c = true) s ->
  exists lo hi,
    series_min s = Some lo /\ series_max s = Some hi
    /\ In (Some lo) s /\ In (Some hi) s
    /\ forall v, In (Some v) s -> lo <= v <= hi.
Proof.
  induction s as [|c s IH]; [easy|]. intros _ Hall.
  inversion Hall as [|? ? Hc Hs]; subst.
  destruct c as [u|]; [|discriminate].
  destruct s as [|c' s'].
  - exists u, u. cbn [series_min series_max].
    split; [reflexivity|]. split; [reflexivity|].
    split; [now left|]. split; [now left|].
    intros v [E|[]]. injection E as <-. lra.
  - destruct (IH ltac:(easy) Hs) as (lo & hi & Hlo & Hhi & Ilo & Ihi & Hb).
    cbn [series_min series_max]. cbn [series_min series_max] in Hlo, Hhi.
    rewrite Hlo, Hhi.
    exists (Rmin u lo), (Rmax u hi). split; [reflexivity|].
    split; [reflexivity|]. split; [|split].
    + unfold Rmin. destruct (Rle_dec u lo); [now left|now right].
    + unfold Rmax. destruct (Rle_dec u hi); [now right|now left].
    + intros v [E|Hv].
      * injection E as <-. split; [apply Rmin_l|apply Rmax_l].
      * destruct (Hb v Hv) as [H1 H2]. split.
        -- eapply Rle_trans; [apply Rmin_r|exact H1].
        -- eapply Rle_trans; [exact H2|apply Rmax_r].
Qed.

Lemma insert_cell_perm (c : cell) (l : list cell) :
  Permutation (insert_cell c l) (c :: l).
Proof.
  induction l as [|h t IH]; simpl; [reflexivity|].
  destruct (cell_leb c h); [reflexivity|].
  rewrite IH. apply perm_swap.
Qed.

Lemma sort_cells_perm (l : list cell) : Permutation (sort_cells l) l.
Proof.
  induction l as [|a l IH]; [reflexivity|].
  change (sort_cells (a :: l)) with (insert_cell a (sort_cells l)).
  rewrite insert_cell_perm. now constructor.
Qed.

Lemma filter_perm {A : Type} (f : A -> bool) (l l' : list A) :
  Permutation l l' -> Permutation (filter f l) (filter f l').
Proof.
  induction 1 as [|x l l' H IH|x y l|l l' l'' H1 IH1 H2 IH2]; simpl.
  - constructor.
  - destruct (f x); [now constructor|assumption].
  - destruct (f x), (f y); try reflexivity. apply perm_swap.
  - now transitivity (filter f l').
Qed.

Lemma isin_In (L : list cell) (d : cell) :
  existsb (cell_eqb d) L = true <-> In d L.
Proof.
  rewrite existsb_exists. split.
  - intros [x [Hx E]]. apply cell_eqb_true in E. now subst.
  - intros H. exists d. split; [assumption|apply cell_eqb_refl].
Qed.

Lemma remove_one_absent (a : cell) (L : list cell) :
  ~ In a L -> remove_one a L = L.
Proof.
  induction L as [|h t IH]; simpl; [reflexivity|]. intros H.
  destruct (cell_eq_dec a h) as [E|E]; [exfalso; apply H; now left|].
  f_equal. apply IH. intros Ht. apply H. now right.
Qed.

Lemma remove_one_perm (a : cell) (L : list cell) :
  In a L -> Permutation L (a :: remove_one a L).
Proof.
  induction L as [|h t IH]; simpl; [easy|]. intros H.
  destruct (cell_eq_dec a h) as [E|E]; [now subst|].
  destruct H as [H|H]; [congruence|].
  rewrite (IH H) at 1. apply perm_swap.
Qed.

Lemma remove_one_In_other (a b : cell) (L : list cell) :
  a <> b -> (In b (remove_one a L) <-> In b L).
Proof.
  intros Hab. induction L as [|h t IH]; simpl; [tauto|].
  destruct (cell_eq_dec a h) as [E|E]; simpl.
  - subst h. split; [now right|]. intros [H|H]; [congruence|assumption].
  - rewrite IH. tauto.
Qed.

Lemma remove_one_incl (a : cell) (L : list cell) :
  incl (remove_one a L) L.
Proof.
  induction L as [|h t IH]; simpl; [easy|].
  destruct (cell_eq_dec a h); [now apply incl_tl|].
  intros x [H|H]; [now left|right; now apply IH].
Qed.

Lemma labels_minus_incl (idx : list cell) :
  forall L, incl (labels_minus L idx) L.
Proof.
  induction idx as [|a t IH]; intros L; simpl; [apply incl_refl|].
  eapply incl_tran; [apply IH|apply remove_one_incl].
Qed.

(** The labels of the union that belong to the resampled distances are the
    resampled distances, each as often as [linspace] produced it. *)
Lemma union_filter_perm (idx : list cell) :
  NoDup idx ->
  forall L,
    Permutation
      (filter (fun d => existsb (cell_eqb d) L) idx ++ labels_minus L idx) L.
Proof.
  induction 1 as [|a t Ha Hnd IH]; intros L; [reflexivity|].
  cbn [filter labels_minus].
  assert (Hf : filter (fun d => existsb (cell_eqb d) L) t
               = filter (fun d => existsb (cell_eqb d) (remove_one a L)) t).
  { apply filter_ext_in. intros b Hb.
    assert (Hab : a <> b) by (intros E; subst; contradiction).
    destruct (existsb (cell_eqb b) L) eqn:E1.
    - symmetry. apply isin_In. apply remove_one_In_other; [assumption|].
      now apply isin_In.
    - destruct (existsb (cell_eqb b) (remove_one a L)) eqn:E2; [|reflexivity].
      apply isin_In, remove_one_In_other, isin_In in E2; [|assumption].
      congruence. }
  destruct (existsb (cell_eqb a) L) eqn:Ea.
  - apply isin_In in Ea. rewrite Hf. cbn [app].
    rewrite (IH (remove_one a L)). symmetry. now apply remove_one_perm.
  - assert (Hna : ~ In a L) by (intros H; apply isin_In in H; congruence).
    rewrite (remove_one_absent a L Hna). apply IH.
Qed.

Lemma has_duplicates_NoDup (l : list cell) :
  has_duplicates l = false -> NoDup l.
Proof.
  induction l as [|h t IH]; simpl; [constructor|].
  intros H. apply orb_false_elim in H. destruct H as [H1 H2].
  constructor; [|now apply IH].
  intros Hin. apply isin_In in Hin. congruence.
Qed.

Lemma cells_eqb_true (a b : list cell) : cells_eqb a b = true <-> a = b.
Proof.
  revert b. induction a as [|x a IH]; intros [|y b]; cbn [cells_eqb];
    try (split; [discriminate|discriminate]); [tauto|].
  rewrite andb_true_iff, cell_eqb_true, IH. split.
  - now intros [-> ->].
  - intros [= -> ->]. now split.
Qed.

(** A reindexed table is on the index that was asked for. *)
Lemma reindex_index (df : list Row) (new_index : list cell) (df0 : list Row) :
  reindex df new_index = Ok df0 -> map pdist df0 = new_index.
Proof.
  unfold reindex. destruct (cells_eqb new_index (map pdist df)) eqn:Eid.
  { intros [= <-]. symmetry. now apply cells_eqb_true. }
  destruct (has_duplicates (map pdist df)) eqn:E; [discriminate|].
  intros H. injection H as <-.
  rewrite map_map. rewrite <- (map_id new_index) at 2.
  apply map_ext. intros d.
  destruct (find (fun r => cell_eqb (pdist r) d) df) as [r|] eqn:F;
    [|reflexivity].
  apply find_some in F. destruct F as [_ F]. now apply cell_eqb_true in F.
Qed.

Lemma filter_map_pdist (f : cell -> bool) (l : list Row) :
  map pdist (filter (fun r => f (pdist r)) l) = filter f (map pdist l).
Proof.
  induction l as [|r l IH]; simpl; [reflexivity|].
  destruct (f (pdist r)); simpl; now rewrite IH.
Qed.

Section ResampleProperties.

Variable cubic : list Row -> result (list Row).

(** [interpolate] returns a table on the index it was given. *)
Hypothesis cubic_keeps_index :
  forall df df', cubic df = Ok df' -> map pdist df' = map pdist df.

Lemma interpolate_keeps_index (df df' : list Row) :
  interpolate cubic df = Ok df' -> map pdist df' = map pdist df.
Proof.
  unfold interpolate. destruct df as [|r t]; [now intros [= <-]|].
  destruct (existsb _ (r :: t)); [discriminate|].
  destruct (forallb _ (r :: t)); [now intros [= <-]|].
  apply cubic_keeps_index.
Qed.

(** When the resampling of a path with distinct [dist] labels returns, the
    [dist] column of its result is a rearrangement of the resampled
    distances. *)
Lemma resample_perm (coords : list Row) (num : Z) (out : list Row) :
  NoDup (map pdist coords) ->
  resample cubic coords num = Ok out ->
  exists dist_resampled,
    linspace_cell (series_min (map pdist coords))
                  (series_max (map pdist coords)) num = Ok dist_resampled
    /\ Permutation (map pdist out) dist_resampled.
Proof.
  intros Hnd. unfold resample.
  destruct (linspace_cell _ _ num) as [L|e]; [|discriminate]. cbn [bind].
  destruct (reindex coords _) as [df0|e] eqn:Er; [|discriminate].
  cbn [bind].
  destruct (interpolate cubic df0) as [df1|e] eqn:Ei; [|discriminate].
  cbn [bind]. intros [= <-]. exists L. split; [reflexivity|].
  apply reindex_index in Er. rename Er into Hidx.
  apply interpolate_keeps_index in Ei.
  rewrite (filter_map_pdist (fun d => existsb (cell_eqb d) L)).
  rewrite Ei, Hidx. unfold index_union.
  rewrite (filter_perm _ _ _ (sort_cells_perm _)).
  rewrite filter_app.
  assert (Hm : filter (fun d => existsb (cell_eqb d) L)
                      (labels_minus L (map pdist coords))
               = labels_minus L (map pdist coords)).
  { apply forallb_filter_id. apply forallb_forall. intros d Hd.
    apply isin_In. now apply (labels_minus_incl (map pdist coords) L). }
  rewrite Hm. now apply union_filter_perm.
Qed.

End ResampleProperties.

Lemma unresampled_path (p0 : R * R) (ps : list (R * R)) :
  unresampled (map vertex_of (p0 :: ps)) false = path_rows p0 0 ps.
Proof.
  unfold unresampled. rewrite cum_dist_path.
  apply sort_values_sorted, path_rows_sorted.
Qed.

Lemma cell_eqb_false (a b : R) : a <> b -> cell_eqb (Some a) (Some b) = false.
Proof.
  intros H. unfold cell_eqb. destruct (cell_eq_dec (Some a) (Some b)) as [E|E];
    [|reflexivity]. injection E as E. contradiction.
Qed.

Lemma cell_eqb_same (a b : R) : a = b -> cell_eqb (Some a) (Some b) = true.
Proof. intros ->. apply cell_eqb_refl. Qed.

(** Decide the comparisons of concrete cells that a goal contains. *)
Ltac decide_cells :=
  repeat match goal with
    | |- context [cell_eqb (Some ?a) (Some ?b)] =>
        first [ rewrite (cell_eqb_same a b) by lra
              | rewrite (cell_eqb_false a b) by lra ]
    | |- context [cell_eq_dec (Some ?a) (Some ?b)] =>
        let E := fresh "E" in
        destruct (cell_eq_dec (Some a) (Some b)) as [E|E];
        [ first [ exfalso; injection E; lra | clear E ]
        | first [ exfalso; apply E; f_equal; lra | clear E ] ]
    end.

Lemma linspace_one (a b : R) : linspace a b 1 = Ok [a].
Proof.
  rewrite linspace_ok by lia. change (Z.to_nat 1) with 1%nat.
  cbn [seq map]. rewrite param_first. do 2 f_equal. ring.
Qed.

(** Evaluate a table expression over concrete cells. *)
Ltac crunch :=
  repeat (progress (cbn -[Rleb Rltb cell_eqb cell_eq_dec];
                    decide_cells; decide_reals)).

Lemma path_3_4_5 :
  path_rows (0, 0) 0 [(3, 4); (3, 9)]
  = [mkRow (Some 3) (Some 4) (Some 5); mkRow (Some 3) (Some 9) (Some 10)].
Proof.
  cbn [path_rows fst snd].
  rewrite (euclidean_value 3 4 0 0 5) by lra.
  rewrite (euclidean_value 3 9 3 4 5) by lra.
  repeat f_equal; lra.
Qed.


Lemma param_last (N : Z) :
  (2 <= N)%Z -> param N (Z.to_nat N - 1) = 1.
Proof.
  intros HN. unfold param.
  replace (1 <? N)%Z with true by (symmetry; apply Z.ltb_lt; lia).
  rewrite INR_IZR_INZ.
  replace (Z.of_nat (Z.to_nat N - 1)) with (N - 1)%Z by lia.
  apply Rinv_r. apply not_0_IZR. lia.
Qed.

(** The resampled distances between two extremes [lo <= hi]. *)
Lemma linspace_cell_range (lo hi : R) (num : Z) (L : list cell) :
  lo <= hi ->
  linspace_cell (Some lo) (Some hi) num = Ok L ->
  (0 <= num)%Z
  /\ List.length L = Z.to_nat num
  /\ (forall d, In d L -> exists v, d = Some v /\ lo <= v <= hi)
  /\ ((1 <= num)%Z -> In (Some lo) L)
  /\ ((2 <= num)%Z -> In (Some hi) L).
Proof.
  intros Hle. unfold linspace_cell. intros H.
  destruct (Z_lt_dec num 0) as [Hneg|Hnn].
  { unfold linspace in H. replace (num <? 0)%Z with true in H
      by (symmetry; now apply Z.ltb_lt). discriminate. }
  split; [lia|].
  destruct (Z.eq_dec num 0) as [->|Hnz].
  { cbn in H. injection H as <-. repeat split; try easy; lia. }
  rewrite linspace_ok in H by lia. cbn [bind] in H. injection H as <-.
  split; [now rewrite !length_map, length_seq|]. split; [|split].
  - intros d Hd. apply in_map_iff in Hd. destruct Hd as [v [<- Hv]].
    apply in_map_iff in Hv. destruct Hv as [i [<- Hi]]. apply in_seq in Hi.
    eexists. split; [reflexivity|].
    pose proof (param_nonneg num i). pose proof (param_le_1 num i ltac:(lia)).
    nra.
  - intros _. apply in_map. apply in_map_iff. exists 0%nat. split.
    + rewrite param_first. ring.
    + apply in_seq. lia.
  - intros H2. apply in_map_iff. exists hi. split; [reflexivity|].
    apply in_map_iff. exists (Z.to_nat num - 1)%nat. split.
    + rewrite param_last by assumption. ring.
    + apply in_seq. lia.
Qed.

(** C5 (amended).  Let the un-resampled path of a vertex mode have at least
    one row (two vertices with coordinates are enough) and no [dist] twice
    (no vertex repeated), let [lo] and [hi] be the least and the greatest
    [dist] on it, the spline returning its table on the index it is given.
    When the resampling for the count [M] returns (no error),
    [create_profile] returns its result: exactly [M] rows, none with [dist]
    outside [lo, hi]; and for [M >= 2] both [lo] and [hi] are among the
    [dist] values, so that they span exactly [lo, hi]. *)
Theorem resample_rows_and_range (cubic : list Row -> result (list Row))
    (from_shapefile : bool) (vs : list Vertex) (reverse : bool) (M : Z)
    (out : list Row) :
  (forall df df', cubic df = Ok df' -> map pdist df' = map pdist df) ->
  let coords := unresampled vs reverse in
  coords <> [] ->
  NoDup (map pdist coords) ->
  resample cubic coords M = Ok out ->
  exists lo hi,
    (In (Some lo) (map pdist coords) /\ In (Some hi) (map pdist coords)
     /\ forall v, In (Some v) (map pdist coords) -> lo <= v <= hi)
    /\ vertex_profile cubic from_shapefile vs (Some M) reverse = Ok out
    /\ List.length out = Z.to_nat M
    /\ (0 <= M)%Z
    /\ (forall r, In r out -> exists d, pdist r = Some d /\ lo <= d <= hi)
    /\ ((2 <= M)%Z ->
        (exists r, In r out /\ pdist r = Some lo)
        /\ (exists r, In r out /\ pdist r = Some hi)).
Proof.
  intros Hcubic coords Hne Hnd Hres.
  assert (Hall : Forall (fun c => notna c = true) (map pdist coords)).
  { pose proof (unresampled_notna vs reverse) as H.
    rewrite Forall_forall in *. intros c Hc.
    apply in_map_iff in Hc. destruct Hc as [r [<- Hr]]. now apply H. }
  destruct (series_extremes (map pdist coords)) as
    (lo & hi & Hlo & Hhi & Ilo & Ihi & Hb);
    [now destruct coords|exact Hall|].
  destruct (resample_perm cubic Hcubic coords M out Hnd Hres) as [L [HL HP]].
  fold coords in HL. rewrite Hlo, Hhi in HL.
  assert (Hle : lo <= hi) by (destruct (Hb lo Ilo); lra).
  destruct (linspace_cell_range lo hi M L Hle HL)
    as (HM & Hlen & Hin & H1 & H2).
  exists lo, hi. split; [split; [exact Ilo|split; [exact Ihi|exact Hb]]|].
  split; [rewrite vertex_profile_eq; fold coords; now rewrite Hres|].
  split; [now rewrite <- Hlen, <- (Permutation_length HP), length_map|].
  split; [exact HM|]. split.
  - intros r Hr. apply Hin. eapply Permutation_in; [exact HP|].
    now apply in_map.
  - intros HM2. split.
    + assert (Hi : In (Some lo) (map pdist out))
        by (eapply Permutation_in; [symmetry; exact HP|apply H1; lia]).
      apply in_map_iff in Hi. destruct Hi as [r [E Hr]]. now exists r.
    + assert (Hi : In (Some hi) (map pdist out))
        by (eapply Permutation_in; [symmetry; exact HP|now apply H2]).
      apply in_map_iff in Hi. destruct Hi as [r [E Hr]]. now exists r.
Qed.

Lemma linspace_two (a b : R) : linspace a b 2 = Ok [a; b].
Proof.
  rewrite linspace_ok by lia. change (Z.to_nat 2) with 2%nat.
  cbn [seq map]. rewrite param_first.
  change 1%nat with (Z.to_nat 2 - 1)%nat. rewrite param_last by lia.
  do 2 f_equal; [ring|]. f_equal. ring.
Qed.

Lemma resample_two_rows :
  resample (fun df => Ok df)
    [mkRow (Some 3) (Some 4) (Some 5); mkRow (Some 3) (Some 9) (Some 10)] 2
  = Ok [mkRow (Some 3) (Some 4) (Some 5); mkRow (Some 3) (Some 9) (Some 10)].
Proof.
  unfold resample.
  cbn [map pdist series_min series_max]. decide_reals.
  unfold linspace_cell. rewrite linspace_two. cbn [bind map].
  unfold index_union, reindex.
  crunch.
  reflexivity.
Qed.

Lemma linspace_5_10_3 : linspace 5 10 3 = Ok [5; 7.5; 10].
Proof.
  rewrite linspace_ok by lia. change (Z.to_nat 3) with 3%nat.
  cbn [seq map]. rewrite param_first.
  assert (P1 : param 3 1 = / 2).
  { unfold param. change (1 <? 3)%Z with true. change (3 - 1)%Z with 2%Z.
    cbn [INR]. lra. }
  change 2%nat with (Z.to_nat 3 - 1)%nat. rewrite param_last by lia.
  rewrite P1. do 2 f_equal; [lra|]. f_equal; [lra|]. f_equal. lra.
Qed.

(** A stand-in for the spline on the segment from (3,4) to (3,9): a row
    without coordinates gets the point at its distance. *)
Lemma resample_three_rows :
  resample
    (fun df => Ok (map (fun r => if known r then r
                                 else mkRow (Some 3)
                                            (cell_sub (pdist r) (Some 1))
                                            (pdist r)) df))
    [mkRow (Some 3) (Some 4) (Some 5); mkRow (Some 3) (Some 9) (Some 10)] 3
  = Ok [mkRow (Some 3) (Some 4) (Some 5);
        mkRow (Some 3) (Some (7.5 - 1)) (Some 7.5);
        mkRow (Some 3) (Some 9) (Some 10)].
Proof.
  unfold resample.
  cbn [map pdist series_min series_max]. decide_reals.
  unfold linspace_cell. rewrite linspace_5_10_3. cbn [bind map].
  unfold index_union, reindex.
  crunch.
  reflexivity.
Qed.

Lemma resample_rows_and_range_witness :
  exists out,
    vertex_profile
      (fun df => Ok (map (fun r => if known r then r
                                   else mkRow (Some 3)
                                              (cell_sub (pdist r) (Some 1))
                                              (pdist r)) df))
      false (map vertex_of [(0, 0); (3, 4); (3, 9)]) (Some 3%Z) false = Ok out
    /\ List.length out = 3%nat.
Proof.
  destruct (resample_rows_and_range
              (fun df => Ok (map (fun r => if known r then r
                                           else mkRow (Some 3)
                                                  (cell_sub (pdist r) (Some 1))
                                                  (pdist r)) df))
              false
              (map vertex_of [(0, 0); (3, 4); (3, 9)]) false 3
              [mkRow (Some 3) (Some 4) (Some 5);
               mkRow (Some 3) (Some (7.5 - 1)) (Some 7.5);
               mkRow (Some 3) (Some 9) (Some 10)])
    as (lo & hi & _ & H1 & H2 & _).
  - intros df df' E. injection E as <-. rewrite map_map.
    apply map_ext. intros r. now destruct (known r).
  - rewrite unresampled_path, path_3_4_5. discriminate.
  - rewrite unresampled_path, path_3_4_5. cbn [map pdist].
    repeat constructor; cbn [In]; intros H; repeat destruct H as [H|H];
      try (injection H as H; lra); assumption.
  - rewrite unresampled_path, path_3_4_5. exact resample_three_rows.
  - eexists. split; [exact H1|exact H2].
Defined.

Lemma path_3_4_5_1 :
  path_rows (0, 0) 0 [(3, 4); (3, 9); (3, 10)]
  = [mkRow (Some 3) (Some 4) (Some 5); mkRow (Some 3) (Some 9) (Some 10);
     mkRow (Some 3) (Some 10) (Some 11)].
Proof.
  cbn [path_rows fst snd].
  rewrite (euclidean_value 3 4 0 0 5) by lra.
  rewrite (euclidean_value 3 9 3 4 5) by lra.
  rewrite (euclidean_value 3 10 3 9 1) by lra.
  repeat f_equal; lra.
Qed.

(** C5 (the claim fails on the code).  On a path of four vertices whose
    un-resampled [dist] runs from 5 to 11, resampling with [num = 1] returns:
    the result is the single row at [dist = 5], so its [dist] values do not
    span up to 11. *)
Lemma resample_one_row_no_span :
  let vs := map vertex_of [(0, 0); (3, 4); (3, 9); (3, 10)] in
  unresampled vs false
  = [mkRow (Some 3) (Some 4) (Some 5); mkRow (Some 3) (Some 9) (Some 10);
     mkRow (Some 3) (Some 10) (Some 11)]
  /\ resample (fun _ => Raise ValueError) (unresampled vs false) 1
     = Ok [mkRow (Some 3) (Some 4) (Some 5)]
  /\ vertex_profile (fun _ => Raise ValueError) false vs (Some 1%Z) false
     = Ok [mkRow (Some 3) (Some 4) (Some 5)].
Proof.
  intros vs. unfold vs.
  assert (E : resample (fun _ => Raise ValueError)
                (path_rows (0, 0) 0 [(3, 4); (3, 9); (3, 10)]) 1
              = Ok [mkRow (Some 3) (Some 4) (Some 5)]).
  { rewrite path_3_4_5_1. unfold resample.
    cbn [map pdist series_min series_max]. decide_reals.
    unfold linspace_cell. rewrite linspace_one. cbn [bind map].
    unfold index_union, reindex.
    crunch.
    reflexivity. }
  rewrite vertex_profile_eq, unresampled_path, E.
  split; [apply path_3_4_5_1|]. split; reflexivity.
Qed.








Lemma filter_none {A : Type} (f : A -> bool) (l : list A) :
  (forall x, In x l -> f x = false) -> filter f l = [].
Proof.
  induction l as [|x l IH]; intros H; simpl; [reflexivity|].
  rewrite (H x) by now left. apply IH. intros y Hy. apply H. now right.
Qed.

Lemma filter_length_le {A : Type} (f : A -> bool) (l : list A) :
  (List.length (filter f l) <= List.length l)%nat.
Proof. induction l as [|x l IH]; simpl; [lia|]. destruct (f x); simpl; lia. Qed.


Lemma sort_cells_repeat_None (n : nat) :
  sort_cells (repeat None n) = repeat None n.
Proof.
  induction n as [|n IH]; [reflexivity|].
  change (sort_cells (repeat None (S n)))
    with (insert_cell None (sort_cells (repeat None n))).
  rewrite IH. destruct n; reflexivity.
Qed.

(** The resampling of a path without rows, for a count of one or more: the
    new index has NaN labels only, and [interpolate] refuses it. *)
Lemma resample_empty_path (cubic : list Row -> result (list Row)) (M : Z) :
  (1 <= M)%Z -> resample cubic [] M = Raise NotImplementedError.
Proof.
  intros HM. unfold resample. cbn [map series_min series_max linspace_cell].
  replace (M <? 0)%Z with false by (symmetry; apply Z.ltb_ge; lia).
  cbn [bind]. unfold index_union. cbn [labels_minus app].
  rewrite sort_cells_repeat_None.
  destruct (Z.to_nat M) as [|n] eqn:En; [lia|]. reflexivity.
Qed.





(* ================================================================== *)
(** * Further properties of the code *)

(** ** [rel_dist] and [cum_dist] *)

Lemma path_rows_points (ps : list (R * R)) : forall p0 acc,
  map row_point (path_rows p0 acc ps) = map Some ps.
Proof.
  induction ps as [|p t IH]; intros p0 acc; [reflexivity|].
  cbn [path_rows map]. f_equal; [now destruct p|apply IH].
Qed.

Lemma path_rows_step (ps : list (R * R)) :
  forall p0 acc i r r',
    nth_error (path_rows p0 acc ps) i = Some r ->
    nth_error (path_rows p0 acc ps) (S i) = Some r' ->
    exists d p q,
      pdist r = Some d
      /\ nth_error (p0 :: ps) (S i) = Some p
      /\ nth_error (p0 :: ps) (S (S i)) = Some q
      /\ pdist r' = Some (d + euclidean (fst q) (snd q) (fst p) (snd p)).
Proof.
  induction ps as [|p t IH]; intros p0 acc i r r' Hr Hr'.
  - destruct i; discriminate.
  - destruct i as [|i].
    + destruct t as [|q t']; [discriminate|].
      cbn in Hr, Hr'. injection Hr as <-. injection Hr' as <-.
      eexists _, p, q. repeat split.
    + cbn [path_rows nth_error] in Hr, Hr'.
      destruct (IH _ _ _ _ _ Hr Hr') as (d & a & b & H1 & H2 & H3 & H4).
      exists d, a, b. repeat split; assumption.
Qed.

(** X1.  For vertices [p0, p1, ..., pn] with all coordinates present, a
    vertex mode of [create_profile] without [num] returns one row per vertex
    from [p1] on, in order, with the coordinates of the vertex; the first
    [dist] is the length of the segment from [p0] to [p1], and every further
    [dist] is the one before plus the length of the segment that ends at the
    vertex. *)
Theorem vertex_profile_recurrence (cubic : list Row -> result (list Row))
    (from_shapefile : bool) (p0 : R * R) (ps : list (R * R)) :
  exists out,
    vertex_profile cubic from_shapefile (map vertex_of (p0 :: ps)) None false
    = Ok out
    /\ map row_point out = map Some ps
    /\ (forall r p1, nth_error out 0 = Some r -> nth_error ps 0 = Some p1 ->
          pdist r = Some (0 + euclidean (fst p1) (snd p1) (fst p0) (snd p0)))
    /\ (forall i r r',
          nth_error out i = Some r -> nth_error out (S i) = Some r' ->
          exists d p q,
            pdist r = Some d
            /\ nth_error (p0 :: ps) (S i) = Some p
            /\ nth_error (p0 :: ps) (S (S i)) = Some q
            /\ pdist r' = Some (d + euclidean (fst q) (snd q) (fst p) (snd p))).
Proof.
  exists (path_rows p0 0 ps). split.
  - rewrite vertex_profile_eq, unresampled_path. reflexivity.
  - split; [apply path_rows_points|]. split.
    + intros r p1 Hr Hp. destruct ps as [|p t]; [discriminate|].
      cbn in Hr, Hp. injection Hr as <-. injection Hp as <-. reflexivity.
    + apply path_rows_step.
Qed.

Lemma euclid_present (a b c d : cell) (v : R) :
  euclid a b c d = Some v ->
  (exists x y, a = Some x /\ b = Some y) /\ 0 <= v.
Proof.
  destruct a as [x|], b as [y|], c as [x0|], d as [y0|]; try discriminate.
  rewrite euclid_some. intros [= <-]. split; [now exists x, y|].
  apply euclidean_nonneg.
Qed.

Lemma rel_dist_present (vs : list Vertex) (reverse : bool)
    (t : Vertex * cell) :
  In t (rel_dist vs reverse) ->
  exists x y v,
    vx (fst t) = Some x /\ vy (fst t) = Some y /\ snd t = Some v /\ 0 <= v.
Proof.
  unfold rel_dist. intros H. apply filter_In in H. destruct H as [H Hn].
  apply in_map_iff in H. destruct H as [[u [xl yl]] [<- _]].
  cbn [fst snd] in *.
  destruct (euclid (vx u) (vy u) xl yl) as [v|] eqn:E; [|discriminate].
  destruct (euclid_present _ _ _ _ _ E) as [[x [y [Hx Hy]]] Hv].
  now exists x, y, v.
Qed.

Lemma cumsum_rows_ascending (l : list (Vertex * cell)) :
  (forall t, In t l ->
     exists x y v,
       vx (fst t) = Some x /\ vy (fst t) = Some y /\ snd t = Some v /\ 0 <= v) ->
  forall acc,
    let out := map (fun t : (Vertex * cell) * cell =>
                      mkRow (vx (fst (fst t))) (vy (fst (fst t))) (snd t))
                   (combine l (cumsum_from acc (map snd l))) in
    (forall r, In r out ->
       exists x y d,
         px r = Some x /\ py r = Some y /\ pdist r = Some d /\ acc <= d)
    /\ Sorted dist_le out.
Proof.
  induction l as [|t l IH]; intros Hl acc; cbn zeta.
  - split; [easy|constructor].
  - destruct (Hl t (or_introl eq_refl)) as (x & y & v & Hx & Hy & Hv & H0).
    destruct t as [u c]. cbn [fst snd] in *. subst c.
    cbn [map snd cumsum_from combine fst].
    destruct (IH (fun t Ht => Hl t (or_intror Ht)) (acc + v)) as [Hin Hs].
    cbn zeta in Hin, Hs. split.
    + intros r [<-|Hr].
      * exists x, y, (acc + v). cbn. repeat split; try assumption. lra.
      * destruct (Hin r Hr) as (x' & y' & d & H1 & H2 & H3 & H4).
        exists x', y', d. repeat split; try assumption. lra.
    + constructor; [exact Hs|].
      destruct l as [|[u' c'] l'].
      * cbn. constructor.
      * destruct (Hl (u', c') (or_intror (or_introl eq_refl)))
          as (_ & _ & v' & _ & _ & Hv' & H0').
        cbn [snd] in Hv'. subst c'. cbn. constructor.
        unfold dist_le. cbn. apply Rleb_true. lra.
Qed.


Lemma rel_dist_length (vs : list Vertex) (reverse : bool) :
  (List.length (rel_dist vs reverse) <= List.length vs - 1)%nat.
Proof.
  unfold rel_dist.
  set (df1 := if reverse then rev vs else vs).
  assert (Hlen : List.length df1 = List.length vs)
    by (unfold df1; destruct reverse; [apply length_rev|reflexivity]).
  rewrite <- Hlen. destruct df1 as [|v t]; [cbn; lia|].
  cbn [map shift1 combine filter]. rewrite euclid_nan_lag.
  cbn [snd notna isna negb List.length].
  etransitivity; [apply filter_length_le|].
  rewrite length_map, length_combine. lia.
Qed.



Lemma path_length_nonneg (pts : list (R * R)) : 0 <= path_length pts.
Proof.
  induction pts as [|p [|q t] IH]; cbn [path_length]; try lra.
  pose proof (euclidean_nonneg (fst q) (snd q) (fst p) (snd p)).
  cbn [path_length] in IH. lra.
Qed.

Lemma series_max_cons (d : R) (l : list cell) :
  series_max (Some d :: l)
  = match series_max l with
    | Some v => Some (Rmax d v)
    | None => Some d
    end.
Proof. reflexivity. Qed.

Lemma series_max_path_rows (ps : list (R * R)) :
  ps <> [] ->
  forall p0 acc,
    series_max (map pdist (path_rows p0 acc ps))
    = Some (acc + path_length (p0 :: ps)).
Proof.
  induction ps as [|p t IH]; [easy|]. intros _ p0 acc.
  destruct t as [|q t'].
  - cbn. f_equal. ring.
  - specialize (IH ltac:(easy) p
                  (acc + euclidean (fst p) (snd p) (fst p0) (snd p0))).
    change (path_rows p0 acc (p :: q :: t'))
      with (mkRow (Some (fst p)) (Some (snd p))
                  (Some (acc + euclidean (fst p) (snd p) (fst p0) (snd p0)))
            :: path_rows p (acc + euclidean (fst p) (snd p) (fst p0) (snd p0))
                 (q :: t')).
    rewrite map_cons. cbn [pdist]. rewrite series_max_cons, IH.
    change (path_length (p0 :: p :: q :: t'))
      with (euclidean (fst p) (snd p) (fst p0) (snd p0)
            + path_length (p :: q :: t')).
    pose proof (path_length_nonneg (p :: q :: t')).
    rewrite Rmax_right by lra. f_equal. ring.
Qed.

Lemma cum_dist_backwards (pts : list (R * R)) :
  cum_dist (map vertex_of pts) true = cum_dist (map vertex_of (rev pts)) false.
Proof. rewrite cum_dist_reverse. now rewrite map_rev. Qed.

Lemma last_path_rows (ps : list (R * R)) :
  ps <> [] ->
  forall p0 acc,
    last (map pdist (path_rows p0 acc ps)) None
    = Some (acc + path_length (p0 :: ps)).
Proof.
  induction ps as [|p t IH]; [easy|]. intros _ p0 acc.
  destruct t as [|q t'].
  - cbn. f_equal. ring.
  - specialize (IH ltac:(easy) p
                  (acc + euclidean (fst p) (snd p) (fst p0) (snd p0))).
    change (path_rows p0 acc (p :: q :: t'))
      with (mkRow (Some (fst p)) (Some (snd p))
                  (Some (acc + euclidean (fst p) (snd p) (fst p0) (snd p0)))
            :: path_rows p (acc + euclidean (fst p) (snd p) (fst p0) (snd p0))
                 (q :: t')).
    rewrite map_cons.
    change (path_length (p0 :: p :: q :: t'))
      with (euclidean (fst p) (snd p) (fst p0) (snd p0)
            + path_length (p :: q :: t')).
    replace (acc + (euclidean (fst p) (snd p) (fst p0) (snd p0)
                    + path_length (p :: q :: t')))
      with (acc + euclidean (fst p) (snd p) (fst p0) (snd p0)
            + path_length (p :: q :: t')) by ring.
    rewrite <- IH.
    destruct (map pdist (path_rows p _ (q :: t'))) eqn:E; [|reflexivity].
    discriminate IH.
Qed.

(** X4.  For at least two vertices with coordinates, the profile in the
    forward direction has the vertices after the first, the profile with
    [reverse=True] the vertices before the last in reverse order; in both
    directions the largest [dist] is the [dist] of the last row. *)
Theorem cum_dist_both_directions (pts : list (R * R)) :
  (2 <= List.length pts)%nat ->
  let fwd := cum_dist (map vertex_of pts) false in
  let bwd := cum_dist (map vertex_of pts) true in
  map row_point fwd = map Some (tl pts)
  /\ map row_point bwd = map Some (rev (removelast pts))
  /\ series_max (map pdist fwd) = last (map pdist fwd) None
  /\ series_max (map pdist bwd) = last (map pdist bwd) None.
Proof.
  intros Hlen fwd bwd.
  destruct pts as [|p0 ps]; [cbn in Hlen; lia|].
  assert (Hps : ps <> []) by (destruct ps; [cbn in Hlen; lia|easy]).
  assert (Hrev : rev (p0 :: ps)
                 = last (p0 :: ps) p0 :: rev (removelast (p0 :: ps))).
  { rewrite (app_removelast_last p0 (l := p0 :: ps)) at 1 by easy.
    rewrite rev_app_distr. reflexivity. }
  assert (Hrest : rev (removelast (p0 :: ps)) <> []).
  { destruct ps as [|p1 t]; [easy|].
    change (removelast (p0 :: p1 :: t)) with (p0 :: removelast (p1 :: t)).
    cbn [rev]. now destruct (rev (removelast (p1 :: t))). }
  unfold fwd, bwd. rewrite cum_dist_backwards, Hrev, !cum_dist_path.
  split; [apply path_rows_points|]. split; [apply path_rows_points|].
  rewrite !series_max_path_rows, !last_path_rows by assumption.
  split; reflexivity.
Qed.

Lemma cum_dist_both_directions_witness :
  map row_point (cum_dist (map vertex_of [(0, 0); (3, 4); (3, 9)]) true)
  = [Some (3, 4); Some (0, 0)]
  /\ series_max
       (map pdist (cum_dist (map vertex_of [(0, 0); (3, 4); (3, 9)]) true))
     = last
         (map pdist (cum_dist (map vertex_of [(0, 0); (3, 4); (3, 9)]) true))
         None.
Proof.
  destruct (cum_dist_both_directions [(0, 0); (3, 4); (3, 9)])
    as (_ & H2 & _ & H4).
  - simpl. lia.
  - split; [exact H2|exact H4].
Defined.

(** ** The order of the rows of a profile *)

Lemma cell_leb_total (a b : cell) : cell_leb a b = false -> cell_leb b a = true.
Proof.
  destruct a as [u|], b as [v|]; cbn; try easy.
  unfold Rleb. destruct (Rle_dec u v), (Rle_dec v u); try easy. lra.
Qed.

Lemma cell_le_trans (a b c : cell) : cell_le a b -> cell_le b c -> cell_le a c.
Proof.
  unfold cell_le. destruct a as [u|], b as [v|], c as [w|]; cbn; try easy.
  rewrite !Rleb_true. lra.
Qed.

Lemma insert_cell_sorted (c : cell) (l : list cell) :
  Sorted cell_le l -> Sorted cell_le (insert_cell c l).
Proof.
  induction 1 as [|h t Hs IH Hd]; cbn [insert_cell].
  - repeat constructor.
  - destruct (cell_leb c h) eqn:E.
    + constructor; [now constructor|]. now constructor.
    + constructor; [exact IH|]. apply cell_leb_total in E.
      destruct t as [|h' t']; cbn [insert_cell].
      * now constructor.
      * inversion Hd; subst. destruct (cell_leb c h'); now constructor.
Qed.

Lemma sort_cells_sorted (l : list cell) : Sorted cell_le (sort_cells l).
Proof.
  induction l as [|a l IH]; [constructor|].
  change (sort_cells (a :: l)) with (insert_cell a (sort_cells l)).
  now apply insert_cell_sorted.
Qed.

Lemma insert_row_sorted (r : Row) (l : list Row) :
  Sorted dist_le l -> Sorted dist_le (insert_row r l).
Proof.
  induction 1 as [|h t Hs IH Hd]; cbn [insert_row].
  - repeat constructor.
  - destruct (cell_leb (pdist r) (pdist h)) eqn:E.
    + constructor; [now constructor|]. now constructor.
    + constructor; [exact IH|]. apply cell_leb_total in E.
      destruct t as [|h' t']; cbn [insert_row].
      * now constructor.
      * inversion Hd; subst.
        destruct (cell_leb (pdist r) (pdist h')); now constructor.
Qed.

Lemma sort_values_ascending (l : list Row) : Sorted dist_le (sort_values l).
Proof.
  induction l as [|a l IH]; [constructor|].
  rewrite sort_values_cons. now apply insert_row_sorted.
Qed.

Lemma Sorted_rows_of_labels (l : list Row) :
  Sorted cell_le (map pdist l) -> Sorted dist_le l.
Proof.
  induction l as [|r l IH]; [constructor|]. cbn [map]. intros H.
  inversion H as [|? ? Hs Hd]; subst. constructor; [now apply IH|].
  destruct l as [|r' l']; constructor. now inversion Hd.
Qed.

Lemma filter_sorted (f : Row -> bool) (l : list Row) :
  Sorted dist_le l -> Sorted dist_le (filter f l).
Proof.
  intros H. apply StronglySorted_Sorted.
  apply Sorted_StronglySorted in H.
  2:{ intros a b c. unfold dist_le. apply cell_le_trans. }
  induction H as [|r l Hs IH Hall]; cbn [filter]; [constructor|].
  destruct (f r); [|exact IH]. constructor; [exact IH|].
  rewrite Forall_forall in *. intros x Hx. apply Hall.
  apply filter_In in Hx. tauto.
Qed.

Lemma resample_sorted (cubic : list Row -> result (list Row))
    (coords : list Row) (num : Z) (out : list Row) :
  (forall df df', cubic df = Ok df' -> map pdist df' = map pdist df) ->
  resample cubic coords num = Ok out -> Sorted dist_le out.
Proof.
  intros Hcubic. unfold resample.
  destruct (linspace_cell _ _ num) as [L|e]; [|discriminate]. cbn [bind].
  destruct (reindex coords _) as [df0|e] eqn:Er; [|discriminate].
  cbn [bind].
  destruct (interpolate cubic df0) as [df1|e] eqn:Ei; [|discriminate].
  cbn [bind]. intros [= <-]. apply filter_sorted, Sorted_rows_of_labels.
  apply (interpolate_keeps_index cubic Hcubic) in Ei.
  apply reindex_index in Er.
  rewrite Ei, Er. apply sort_cells_sorted.
Qed.

(** X5.  Whatever the mode and the arguments, the rows that
    [create_profile] returns are in ascending order of [dist] (a NaN [dist]
    last), the spline returning its table on the index it is given. *)
Theorem create_profile_ascending (cubic : list Row -> result (list Row))
    (method : string) (start stop : option (R * R)) (num : option Z)
    (shapefile polyline : option (list Vertex)) (reverse : bool)
    (out : list Row) :
  (forall df df', cubic df = Ok df' -> map pdist df' = map pdist df) ->
  create_profile cubic method start stop num shapefile polyline reverse
  = Ok out ->
  Sorted dist_le out.
Proof.
  intros Hcubic. unfold create_profile.
  destruct (negb (existsb (String.eqb method) methods)); [discriminate|].
  match goal with
  | |- bind ?m _ = _ -> _ => destruct m as [coordinates|e]; [|discriminate]
  end.
  cbn [bind].
  destruct (existsb (String.eqb method) ["shapefile"; "polyline"]%string).
  - destruct num as [n|]; cbn [try_except].
    + destruct (resample cubic (sort_values coordinates) n) as [o|e] eqn:Er;
        cbn [try_except].
      * intros [= <-].
        now apply (resample_sorted cubic (sort_values coordinates) n).
      * destruct (exn_eqb e ValueError); [|discriminate].
        intros [= <-]. apply sort_values_ascending.
    + intros [= <-]. apply sort_values_ascending.
  - intros [= <-]. apply sort_values_ascending.
Qed.

Lemma create_profile_ascending_witness :
  Sorted dist_le
    [mkRow (Some 3) (Some 4) (Some 5);
     mkRow (Some 3) (Some (7.5 - 1)) (Some 7.5);
     mkRow (Some 3) (Some 9) (Some 10)].
Proof.
  apply (create_profile_ascending
           (fun df => Ok (map (fun r => if known r then r
                                        else mkRow (Some 3)
                                                   (cell_sub (pdist r) (Some 1))
                                                   (pdist r)) df))
           "polyline" None None
           (Some 3%Z) None (Some (map vertex_of [(0, 0); (3, 4); (3, 9)]))
           false).
  - intros df df' E. injection E as <-. rewrite map_map.
    apply map_ext. intros r. now destruct (known r).
  - match goal with
    | |- create_profile ?c _ _ _ _ _ _ _ = ?rhs =>
        change (vertex_profile c false
                  (map vertex_of [(0, 0); (3, 4); (3, 9)]) (Some 3%Z) false
                = rhs)
    end.
    rewrite vertex_profile_eq, unresampled_path, path_3_4_5.
    now rewrite resample_three_rows.
Defined.

(** ** A sample count that is zero or negative *)

Lemma linspace_cell_negative (a b : cell) (n : Z) :
  (n < 0)%Z -> linspace_cell a b n = Raise ValueError.
Proof.
  intros H. unfold linspace_cell, linspace.
  replace (n <? 0)%Z with true by (symmetry; now apply Z.ltb_lt).
  now destruct a, b.
Qed.

Lemma linspace_cell_zero (a b : cell) : linspace_cell a b 0 = Ok [].
Proof. now destruct a, b. Qed.

Lemma labels_minus_nil (idx : list cell) : labels_minus [] idx = [].
Proof. induction idx; simpl; auto. Qed.

Lemma find_label (coords : list Row) (d : cell) :
  In d (map pdist coords) ->
  exists r, find (fun r => cell_eqb (pdist r) d) coords = Some r /\ In r coords.
Proof.
  intros H. apply in_map_iff in H. destruct H as [r0 [E H0]].
  destruct (find (fun r => cell_eqb (pdist r) d) coords) as [r|] eqn:F.
  - exists r. split; [reflexivity|]. now apply find_some in F.
  - exfalso. apply (find_none _ _ F) in H0. cbn in H0.
    rewrite E, cell_eqb_refl in H0. discriminate.
Qed.

Lemma sort_cells_of_sorted (l : list cell) :
  Sorted cell_le l -> sort_cells l = l.
Proof.
  induction 1 as [|a l Hs IH Hd]; [reflexivity|].
  change (sort_cells (a :: l)) with (insert_cell a (sort_cells l)).
  rewrite IH. destruct Hd as [|b l' Hab]; [reflexivity|].
  cbn [insert_cell]. unfold cell_le in Hab. now rewrite Hab.
Qed.

Lemma Sorted_labels_of_rows (l : list Row) :
  Sorted dist_le l -> Sorted cell_le (map pdist l).
Proof.
  induction 1 as [|r l Hs IH Hd]; cbn [map]; constructor; [exact IH|].
  destruct Hd; cbn [map]; now constructor.
Qed.

Lemma cells_eqb_refl (l : list cell) : cells_eqb l l = true.
Proof. now apply cells_eqb_true. Qed.

(** Resampling to no point at all: the union is the index itself, so the
    table is neither reindexed nor interpolated, and no row is selected. *)
Lemma resample_zero (cubic : list Row -> result (list Row))
    (coords : list Row) :
  Sorted dist_le coords ->
  Forall (fun r => notna (pdist r) = true) coords ->
  (forall r, In r coords -> known r = true) ->
  resample cubic coords 0 = Ok [].
Proof.
  intros Hs Hna Hk. unfold resample. rewrite linspace_cell_zero. cbn [bind].
  unfold index_union. rewrite labels_minus_nil, app_nil_r.
  rewrite sort_cells_of_sorted by (now apply Sorted_labels_of_rows).
  unfold reindex. rewrite cells_eqb_refl. cbn [bind].
  unfold interpolate. destruct coords as [|r t] eqn:Ec; [reflexivity|].
  rewrite <- Ec in *.
  replace (existsb (fun r => isna (pdist r)) coords) with false.
  2:{ symmetry. destruct (existsb _ coords) eqn:E; [|reflexivity].
      apply existsb_exists in E. destruct E as [x [Hx Hn]].
      rewrite Forall_forall in Hna. specialize (Hna x Hx).
      unfold notna in Hna. now rewrite Hn in Hna. }
  replace (forallb known coords) with true
    by (symmetry; now apply forallb_forall).
  cbn [bind existsb]. f_equal. apply filter_none. reflexivity.
Qed.

Lemma unresampled_known (vs : list Vertex) (reverse : bool) (r : Row) :
  In r (unresampled vs reverse) -> known r = true.
Proof.
  intros H. unfold unresampled in H.
  apply (Permutation_in _ (sort_values_perm _)) in H.
  destruct (cumsum_rows_ascending (rel_dist vs reverse)
              (rel_dist_present vs reverse) 0) as [H1 _].
  cbn zeta in H1. destruct (H1 r H) as (x & y & d & Hx & Hy & _).
  unfold known. now rewrite Hx, Hy.
Qed.

(** X6.  A sample count below one is treated differently by the modes.  In
    "points" mode a negative [num] raises ValueError and [num = 0] raises
    IndexError.  In a vertex mode a negative [num] is the same as no [num]
    (the un-resampled rows come back), and [num = 0] returns an empty
    profile. *)
Theorem create_profile_small_num (cubic : list Row -> result (list Row))
    (start stop : R * R) (shapefile polyline : option (list Vertex))
    (from_shapefile : bool) (vs : list Vertex) (reverse : bool) (n : Z) :
  ((n < 0)%Z ->
     create_profile cubic "points" (Some start) (Some stop) (Some n)
                    shapefile polyline reverse = Raise ValueError
     /\ vertex_profile cubic from_shapefile vs (Some n) reverse
        = Ok (unresampled vs reverse))
  /\ create_profile cubic "points" (Some start) (Some stop) (Some 0%Z)
                    shapefile polyline reverse = Raise IndexError
  /\ vertex_profile cubic from_shapefile vs (Some 0%Z) reverse = Ok [].
Proof.
  split; [|split].
  - intros Hn. split.
    + unfold create_profile, linspace. destruct start, stop.
      cbn [methods existsb String.eqb Ascii.eqb Bool.eqb negb orb andb].
      replace (n <? 0)%Z with true by (symmetry; now apply Z.ltb_lt).
      reflexivity.
    + rewrite vertex_profile_eq. unfold resample.
      rewrite linspace_cell_negative by assumption. reflexivity.
  - unfold create_profile. destruct start, stop. reflexivity.
  - rewrite vertex_profile_eq, resample_zero; [reflexivity| | |].
    + unfold unresampled. apply sort_values_ascending.
    + apply unresampled_notna.
    + intros r. apply unresampled_known.
Qed.

Lemma create_profile_small_num_witness :
  create_profile (fun _ => Raise ValueError) "points" (Some (0, 0))
                 (Some (10, 0)) (Some (-3)%Z) None None false
  = Raise ValueError.
Proof.
  apply (proj1 (create_profile_small_num (fun _ => Raise ValueError)
                  (0, 0) (10, 0) None None false [] false (-3))).
  lia.
Defined.

(** ** [shorten] with its default bounds *)

Lemma series_max_In (s : list cell) (h : R) :
  series_max s = Some h -> In (Some h) s.
Proof.
  revert h. induction s as [|c s IH]; intros h; [discriminate|].
  cbn [series_max].
  destruct c as [u|]; [|intros H; right; now apply IH].
  destruct (series_max s) as [v|].
  - intros [= <-]. unfold Rmax. destruct (Rle_dec u v).
    + right. now apply IH.
    + now left.
  - intros [= <-]. now left.
Qed.

Lemma series_min_In (s : list cell) (l : R) :
  series_min s = Some l -> In (Some l) s.
Proof.
  revert l. induction s as [|c s IH]; intros l; [discriminate|].
  cbn [series_min].
  destruct c as [u|]; [|intros H; right; now apply IH].
  destruct (series_min s) as [v|].
  - intros [= <-]. unfold Rmin. destruct (Rle_dec u v).
    + now left.
    + right. now apply IH.
  - intros [= <-]. now left.
Qed.

Lemma two_rejected {A : Type} (f : A -> bool) (l : list A) (a b : A) :
  In a l -> In b l -> a <> b -> f a = false -> f b = false ->
  (List.length (filter f l) + 2 <= List.length l)%nat.
Proof.
  intros Ha Hb Hab Fa Fb.
  assert (H2 : (2 <= List.length (filter (fun x => negb (f x)) l))%nat).
  { assert (Ia : In a (filter (fun x => negb (f x)) l))
      by (apply filter_In; split; [assumption|now rewrite Fa]).
    assert (Ib : In b (filter (fun x => negb (f x)) l))
      by (apply filter_In; split; [assumption|now rewrite Fb]).
    destruct (filter (fun x => negb (f x)) l) as [|x [|y t]];
      cbn [List.length]; try lia; [easy|].
    destruct Ia as [->|[]]. destruct Ib as [->|[]]. contradiction. }
  pose proof (filter_length f l). lia.
Qed.

(** X7.  Called without bounds, [shorten] uses the smallest and the largest
    [dist] as strict bounds, so the rows that carry them never come back:
    a table that is returned has at least two rows less than the input, and
    on a table whose [dist] takes at most two values the call raises
    IndexError. *)
Theorem shorten_defaults_drop_ends (h : heap) (l : loc) (kd kx ky : nat) :
  let df := deref h l in
  col_pos "dist" (columns df) = Some kd ->
  col_pos "x" (columns df) = Some kx ->
  col_pos "y" (columns df) = Some ky ->
  (forall l' h', shorten h l None None = (Ok l', h') ->
     (List.length (rows (deref h' l')) + 2 <= List.length (rows df))%nat)
  /\ (forall a b : R,
        (forall r, In r (rows df) ->
           row_get kd r = None \/ row_get kd r = Some a
           \/ row_get kd r = Some b) ->
        shorten h l None None = (Raise IndexError, h)).
Proof.
  intros df Hd Hx Hy.
  set (dist := map (row_get kd) (rows df)).
  set (P := fun r : cell * list cell =>
              cell_ltb (row_get kd r) (series_max dist)
              && cell_ltb (series_min dist) (row_get kd r)).
  assert (Heq := shorten_frame_eq df None None kd kx ky Hd Hx Hy).
  cbn zeta in Heq. cbn [bound_max bound_min] in Heq. fold dist in Heq.
  fold P in Heq.
  assert (Hinside : forall r, In r (rows df) -> P r = true ->
            exists lo hi v,
              series_min dist = Some lo /\ series_max dist = Some hi
              /\ row_get kd r = Some v /\ lo < v < hi
              /\ (exists rl, In rl (rows df) /\ row_get kd rl = Some lo)
              /\ (exists rh, In rh (rows df) /\ row_get kd rh = Some hi)).
  { intros r Hr HP. apply inside_mask in HP.
    destruct HP as (lo & hi & v & Hlo & Hhi & Hv & Hlt).
    exists lo, hi, v. repeat split; try assumption; try lra.
    - apply series_min_In in Hlo. apply in_map_iff in Hlo.
      destruct Hlo as [rl [E Hrl]]. now exists rl.
    - apply series_max_In in Hhi. apply in_map_iff in Hhi.
      destruct Hhi as [rh [E Hrh]]. now exists rh. }
  split.
  - intros l' h'. rewrite shorten_store. fold df. rewrite Heq.
    destruct (filter P (rows df)) as [|r0 rest] eqn:Hkept; [discriminate|].
    intros [= <- <-]. rewrite deref_alloc. cbn [rows List.length].
    rewrite length_map.
    change (S (List.length rest)) with (List.length (r0 :: rest)).
    rewrite <- Hkept.
    assert (H0 : In r0 (filter P (rows df))) by (rewrite Hkept; now left).
    apply filter_In in H0. destruct H0 as [Hin HP].
    destruct (Hinside r0 Hin HP)
      as (lo & hi & v & Hlo & Hhi & Hv & Hlt & [rl [Il El]] & [rh [Ih Eh]]).
    apply (two_rejected P (rows df) rl rh); try assumption.
    + intros E. subst rh. rewrite El in Eh. injection Eh as Eh. lra.
    + unfold P. rewrite El, Hhi, Hlo. cbn [cell_ltb].
      replace (Rltb lo lo) with false
        by (symmetry; apply Rltb_false; lra).
      apply andb_false_r.
    + unfold P. rewrite Eh, Hhi, Hlo. cbn [cell_ltb].
      replace (Rltb hi hi) with false
        by (symmetry; apply Rltb_false; lra).
      reflexivity.
  - intros a b Hab. rewrite shorten_store. fold df. rewrite Heq.
    rewrite (filter_none P (rows df)); [reflexivity|].
    intros r Hr. destruct (P r) eqn:HP; [|reflexivity]. exfalso.
    destruct (Hinside r Hr HP)
      as (lo & hi & v & Hlo & Hhi & Hv & Hlt & [rl [Il El]] & [rh [Ih Eh]]).
    destruct (Hab r Hr) as [E|[E|E]]; rewrite E in Hv; try discriminate;
      injection Hv as <-;
      destruct (Hab rl Il) as [E1|[E1|E1]]; rewrite E1 in El;
      try discriminate; injection El as <-;
      destruct (Hab rh Ih) as [E2|[E2|E2]]; rewrite E2 in Eh;
      try discriminate; injection Eh as <-; lra.
Qed.

Lemma shorten_defaults_drop_ends_witness :
  shorten [to_frame [mkRow (Some 0) (Some 0) (Some 0);
                     mkRow (Some 10) (Some 0) (Some 10)]] 0%nat None None
  = (Raise IndexError,
     [to_frame [mkRow (Some 0) (Some 0) (Some 0);
                mkRow (Some 10) (Some 0) (Some 10)]]).
Proof.
  apply (proj2 (shorten_defaults_drop_ends
                  [to_frame [mkRow (Some 0) (Some 0) (Some 0);
                             mkRow (Some 10) (Some 0) (Some 10)]]
                  0%nat 2%nat 0%nat 1%nat eq_refl eq_refl eq_refl) 0 10).
  intros r [<-|[<-|[]]]; cbn; auto.
Defined.

(** ** More on [sample_grids] *)

Lemma without_column_same (df : DataFrame) (name : string) :
  has_col df name = false -> without_column df name = df.
Proof. unfold without_column. now intros ->. Qed.

(** X8.  Sampling twice under one name keeps the second sampling only: on
    a profile table, [sample_grids] with a grid [g2] applied to the result of
    [sample_grids] with a grid [g1] and the same name returns what
    [sample_grids] with [g2] returns on the original table. *)
Theorem sample_grids_second_wins (df : DataFrame)
    (g1 g2 : cell -> cell -> cell) (sampled_name : string)
    (xs ys : list cell) (out1 : DataFrame) :
  wf df ->
  index_name df = None ->
  has_col df "index" = false ->
  getitem df "x" = Ok xs ->
  getitem df "y" = Ok ys ->
  ~ In sampled_name ["x"; "y"; "index"]%string ->
  sample_grids_frame df g1 sampled_name = Ok out1 ->
  sample_grids_frame out1 g2 sampled_name
  = sample_grids_frame df g2 sampled_name
  /\ exists out2,
       sample_grids_frame df g2 sampled_name = Ok out2
       /\ getitem out2 sampled_name = Ok (map2 g2 xs ys).
Proof.
  intros Hwf Hidx Hnoindex Hxs Hys Hname Hout1.
  assert (Nx : "x"%string <> sampled_name) by (intros E; apply Hname; simpl; auto).
  assert (Ny : "y"%string <> sampled_name) by (intros E; apply Hname; simpl; auto).
  assert (Ni : sampled_name <> "index"%string)
    by (intros E; apply Hname; simpl; auto).
  set (df1 := without_column df sampled_name).
  assert (Hwf1 : wf df1) by now apply without_column_wf.
  assert (Hidx1 : index_name df1 = None)
    by (unfold df1; now rewrite without_column_index_name).
  assert (Hnoindex1 : has_col df1 "index" = false)
    by now apply without_column_keeps_absent.
  assert (Hno1 : has_col df1 sampled_name = false)
    by apply without_column_absent.
  assert (Hx1 : getitem df1 "x" = Ok xs)
    by (unfold df1; now rewrite without_column_getitem).
  assert (Hy1 : getitem df1 "y" = Ok ys)
    by (unfold df1; now rewrite without_column_getitem).
  destruct (getitem_col_pos _ _ _ Hx1) as [kx [Hkx Exs]].
  destruct (getitem_col_pos _ _ _ Hy1) as [ky [Hky Eys]].
  assert (E : forall g, sample_grids_frame df g sampled_name
                        = Ok (with_sampled df1 g sampled_name kx ky))
    by (intros g; now apply sample_grids_frame_eq).
  rewrite E in Hout1. injection Hout1 as <-.
  split.
  - rewrite (sample_grids_frame_eq _ g2 sampled_name kx ky);
      rewrite ?without_with_sampled by assumption; try assumption.
    now rewrite E.
  - eexists. split; [apply E|].
    rewrite with_sampled_getitem_new by assumption.
    now rewrite <- Exs, <- Eys.
Qed.

Lemma sample_grids_second_wins_witness :
  exists out2,
    sample_grids_frame profile_0_5_10 (fun x y => cell_sub x y) "bed" = Ok out2
    /\ getitem out2 "bed"
       = Ok (map2 (fun x y => cell_sub x y)
                  [Some 0; Some 5; Some 10] [Some 0; Some 0; Some 0]).
Proof.
  apply (sample_grids_second_wins profile_0_5_10
           (fun x y => cell_add x y) (fun x y => cell_sub x y) "bed"
           [Some 0; Some 5; Some 10] [Some 0; Some 0; Some 0]
           (with_sampled profile_0_5_10 (fun x y => cell_add x y) "bed" 0 1)).
  - exact profile_0_5_10_wf.
  - reflexivity.
  - reflexivity.
  - reflexivity.
  - reflexivity.
  - simpl. intros [H|[H|[H|[]]]]; discriminate H.
  - apply sample_grids_frame_eq; try reflexivity.
    + exact profile_0_5_10_wf.
    + discriminate.
Defined.

Lemma has_col_getitem (df : DataFrame) (c : string) (s : list cell) :
  getitem df c = Ok s -> has_col df c = true.
Proof.
  intros H. destruct (has_col df c) eqn:E; [reflexivity|].
  apply has_col_false in E. unfold getitem, column in H. now rewrite E in H.
Qed.

Lemma has_col_app (cols : list string) (name c : string) :
  existsb (String.eqb c) (cols ++ [name])
  = existsb (String.eqb c) cols || String.eqb c name.
Proof. rewrite existsb_app. cbn. now rewrite orb_false_r. Qed.

(** One pass of the sampling loop under a name that is new to the table. *)
Lemma sample_new_column (df : DataFrame) (g : cell -> cell -> cell)
    (name : string) (xs ys : list cell) :
  profile_table df xs ys ->
  has_col df name = false ->
  name <> "index"%string ->
  exists out,
    sample_grids_frame df g name = Ok out
    /\ profile_table out xs ys
    /\ columns out = (columns df ++ [name])%list
    /\ index_name out = index_name df
    /\ map fst (rows out) = map fst (rows df)
    /\ (forall c, c <> name -> getitem out c = getitem df c)
    /\ getitem out name = Ok (map2 g xs ys).
Proof.
  intros (Hwf & Hidx & Hnoindex & Hxs & Hys) Hnew Hname.
  destruct (getitem_col_pos _ _ _ Hxs) as [kx [Hkx Exs]].
  destruct (getitem_col_pos _ _ _ Hys) as [ky [Hky Eys]].
  assert (Nx : "x"%string <> name).
  { intros <-. apply has_col_getitem in Hxs. congruence. }
  assert (Ny : "y"%string <> name).
  { intros <-. apply has_col_getitem in Hys. congruence. }
  assert (E : sample_grids_frame df g name = Ok (with_sampled df g name kx ky)).
  { rewrite (sample_grids_frame_eq df g name kx ky);
      rewrite ?without_column_same by assumption; try assumption.
    reflexivity. }
  exists (with_sampled df g name kx ky). split; [exact E|].
  assert (Hother : forall c, c <> name ->
            getitem (with_sampled df g name kx ky) c = getitem df c)
    by (intros c Hc; now apply with_sampled_getitem_other).
  split; [|split; [reflexivity|split; [reflexivity|split; [|split]]]].
  - split; [now apply with_sampled_wf|]. split; [exact Hidx|]. split.
    + unfold has_col, with_sampled. cbn [columns]. rewrite has_col_app.
      unfold has_col in Hnoindex. rewrite Hnoindex. cbn [orb].
      apply String.eqb_neq. congruence.
    + split; [now rewrite Hother|now rewrite Hother].
  - cbn [with_sampled rows]. now rewrite map_map.
  - exact Hother.
  - rewrite with_sampled_getitem_new by assumption. now rewrite <- Exs, <- Eys.
Qed.

Lemma sample_all_raise (items : list (string * (cell -> cell -> cell)))
    (e : exn) :
  fold_left (fun acc kv => df' <- acc ;; sample_grids_frame df' (snd kv) (fst kv))
            items (Raise e) = Raise e.
Proof. induction items as [|kv t IH]; [reflexivity|]. cbn. exact IH. Qed.

Lemma sample_all_cons (df : DataFrame) (kv : string * (cell -> cell -> cell))
    (t : list (string * (cell -> cell -> cell))) :
  sample_all df (kv :: t)
  = match sample_grids_frame df (snd kv) (fst kv) with
    | Ok d => sample_all d t
    | Raise e => Raise e
    end.
Proof.
  unfold sample_all. cbn [fold_left bind].
  destruct (sample_grids_frame df (snd kv) (fst kv)); [reflexivity|].
  apply sample_all_raise.
Qed.

(** The sampling loop on a profile table, for items with distinct new
    names. *)
Lemma sample_all_spec (items : list (string * (cell -> cell -> cell))) :
  forall (df : DataFrame) (xs ys : list cell),
    profile_table df xs ys ->
    NoDup (map fst items) ->
    (forall k, In k (map fst items) ->
       has_col df k = false /\ k <> "index"%string) ->
    exists out,
      sample_all df items = Ok out
      /\ profile_table out xs ys
      /\ columns out = (columns df ++ map fst items)%list
      /\ index_name out = index_name df
      /\ map fst (rows out) = map fst (rows df)
      /\ (forall c, has_col df c = true -> getitem out c = getitem df c)
      /\ (forall k g, In (k, g) items -> getitem out k = Ok (map2 g xs ys)).
Proof.
  induction items as [|[k g] t IH]; intros df xs ys Hp Hnd Hnew.
  - exists df. cbn [map]. rewrite app_nil_r. repeat split; try easy.
    all: apply Hp.
  - cbn [map fst] in Hnd, Hnew. inversion Hnd as [|? ? Hk Hnd']; subst.
    destruct (Hnew k (or_introl eq_refl)) as [Hkn Hki].
    destruct (sample_new_column df g k xs ys Hp Hkn Hki)
      as (d & Hd & Hpd & Hcols & Hidx & Hlab & Hother & Hcol).
    assert (Hnew' : forall k', In k' (map fst t) ->
              has_col d k' = false /\ k' <> "index"%string).
    { intros k' Hk'. destruct (Hnew k' (or_intror Hk')) as [H1 H2].
      split; [|exact H2]. unfold has_col. rewrite Hcols, has_col_app.
      unfold has_col in H1. rewrite H1. cbn [orb]. apply String.eqb_neq.
      intros ->. contradiction. }
    destruct (IH d xs ys Hpd Hnd' Hnew')
      as (out & Hout & Hpo & Hc & Hi & Hl & Hkeep & Hitems).
    exists out. rewrite sample_all_cons. cbn [fst snd]. rewrite Hd.
    split; [exact Hout|]. split; [exact Hpo|].
    split; [rewrite Hc, Hcols, <- app_assoc; reflexivity|].
    split; [congruence|]. split; [congruence|].
    assert (Hdk : has_col d k = true).
    { unfold has_col. rewrite Hcols, has_col_app, String.eqb_refl.
      apply orb_true_r. }
    split.
    + intros c Hc'. rewrite Hkeep.
      * apply Hother. intros ->. congruence.
      * unfold has_col. rewrite Hcols, has_col_app.
        unfold has_col in Hc'. now rewrite Hc'.
    + intros k' g' [E|Hin].
      * injection E as <- <-. now rewrite Hkeep.
      * now apply Hitems.
Qed.

(** X9.  The sampling loop of [plot_profile] and [plot_data]: on a profile
    table and for items whose names are distinct, new to the table and not
    ["index"], the loop returns a table with the same index whose columns
    are those of the input followed by the names in call order; the columns
    of the input are unchanged, and the column of every item holds its grid
    sampled at the points [(x, y)] of the rows. *)
Theorem sample_all_appends_in_order
    (items : list (string * (cell -> cell -> cell)))
    (df : DataFrame) (xs ys : list cell) :
  profile_table df xs ys ->
  NoDup (map fst items) ->
  (forall k, In k (map fst items) ->
     has_col df k = false /\ k <> "index"%string) ->
  exists out,
    sample_all df items = Ok out
    /\ profile_table out xs ys
    /\ columns out = (columns df ++ map fst items)%list
    /\ index_name out = index_name df
    /\ map fst (rows out) = map fst (rows df)
    /\ (forall c, has_col df c = true -> getitem out c = getitem df c)
    /\ (forall k g, In (k, g) items -> getitem out k = Ok (map2 g xs ys)).
Proof. apply sample_all_spec. Qed.

Lemma sample_all_appends_in_order_witness :
  exists out,
    sample_all profile_0_5_10
      [("surface"%string, fun x y => cell_add x y);
       ("bed"%string, fun x y => cell_sub x y)] = Ok out
    /\ columns out = ["x"; "y"; "dist"; "surface"; "bed"]%string.
Proof.
  destruct (sample_all_appends_in_order
              [("surface"%string, fun x y => cell_add x y);
               ("bed"%string, fun x y => cell_sub x y)]
              profile_0_5_10 [Some 0; Some 5; Some 10]
              [Some 0; Some 0; Some 0])
    as (out & H1 & _ & H2 & _).
  - repeat split; try reflexivity. exact profile_0_5_10_wf.
  - repeat constructor; simpl; intuition discriminate.
  - simpl. intros k [<-|[<-|[]]]; split; try reflexivity; discriminate.
  - exists out. split; [exact H1|exact H2].
Defined.

(** ** [fill_nans], further *)

(** The entries of a filled row, by position. *)
Lemma fill_row_nth (n : nat) (r : list cell) :
  List.length (fill_row n r) = List.length r
  /\ (forall k, (k < 4 \/ n <= k)%nat ->
        nth k (fill_row n r) None = nth k r None)
  /\ (forall k, (4 <= k < n)%nat -> (k < List.length r)%nat ->
        nth k (fill_row n r) None
        = if isna (nth k r None) then nth (k - 1) (fill_row n r) None
          else nth k r None).
Proof.
  destruct (fill_row_spec (n - 4) r) as (Hlen & Hout & Hin).
  fold (fill_row n r) in Hlen, Hout, Hin.
  split; [exact Hlen|]. split.
  - intros k Hk. apply Hout. lia.
  - intros k Hk Hlt. apply Hin; [lia|assumption].
Qed.

Lemma fill_row_idempotent (n : nat) (r : list cell) :
  fill_row n (fill_row n r) = fill_row n r.
Proof.
  destruct (fill_row_nth n r) as (Hlen & Hout & Hin).
  destruct (fill_row_nth n (fill_row n r)) as (Hlen' & Hout' & Hin').
  apply (nth_ext _ _ None None); [exact Hlen'|].
  intros k _. induction k as [|k IH].
  - apply Hout'. lia.
  - destruct (Nat.le_gt_cases 4 (S k)) as [H4|H4]; [|apply Hout'; lia].
    destruct (Nat.lt_ge_cases (S k) n) as [Hn|Hn]; [|apply Hout'; lia].
    destruct (Nat.lt_ge_cases (S k) (List.length r)) as [Hl|Hl];
      [|rewrite (nth_overflow (fill_row n (fill_row n r))) by lia;
        rewrite (nth_overflow (fill_row n r)) by lia; reflexivity].
    rewrite Hin' by lia. replace (S k - 1)%nat with k by lia.
    destruct (isna (nth (S k) (fill_row n r) None)) eqn:E; [|reflexivity].
    transitivity (nth k (fill_row n r) None); [exact IH|].
    unfold cell in *.
    rewrite (Hin (S k)) in E |- * by lia.
    replace (S k - 1)%nat with k in * by lia.
    destruct (isna (nth (S k) r None)) eqn:E'; [reflexivity|].
    congruence.
Qed.

(** X10.  [fill_nans] is idempotent: on a table with distinct column labels
    the call succeeds, and filling the table it returns gives that table
    again. *)
Theorem fill_nans_frame_idempotent (df : DataFrame) :
  NoDup (columns df) ->
  exists d, fill_nans_frame df = Ok d /\ fill_nans_frame d = Ok d.
Proof.
  intros Hnd. rewrite (fill_nans_frame_rows df Hnd). eexists. split;
    [reflexivity|].
  rewrite fill_nans_frame_rows by exact Hnd. cbn [index_name columns rows].
  f_equal. f_equal. rewrite map_map. apply map_ext. intros r. cbn [fst snd].
  now rewrite fill_row_idempotent.
Qed.

Lemma fill_nans_frame_idempotent_witness :
  exists d, fill_nans_frame layers_with_gaps = Ok d
            /\ fill_nans_frame d = Ok d.
Proof.
  apply (fill_nans_frame_idempotent layers_with_gaps).
  repeat constructor; simpl; intuition discriminate.
Defined.

(** X11.  What [fill_nans] leaves in a layer, in closed form.  In every row
    of a table with distinct column labels, and for every layer column
    [k >= 3]: when the row has a value in some layer [j] between the first
    layer (column 3) and [k], and none in the layers after [j] up to [k], the
    filled entry of layer [k] is that value, the nearest one above; when the
    row has no value in any layer from column 3 to [k], the entry stays
    NaN. *)
Theorem fill_nans_nearest_above (df d : DataFrame) :
  wf df ->
  NoDup (columns df) ->
  fill_nans_frame df = Ok d ->
  forall p r r',
    nth_error (rows df) p = Some r ->
    nth_error (rows d) p = Some r' ->
    forall k, (3 <= k < List.length (columns df))%nat ->
      (forall j v, (3 <= j <= k)%nat ->
         row_get j r = Some v ->
         (forall i, (j < i <= k)%nat -> row_get i r = None) ->
         row_get k r' = Some v)
      /\ ((forall j, (3 <= j <= k)%nat -> row_get j r = None) ->
          row_get k r' = None).
Proof.
  intros Hwf Hnd Hd p r r' Hr Hr'.
  rewrite (fill_nans_frame_rows df Hnd) in Hd. injection Hd as <-.
  cbn [rows] in Hr'. rewrite nth_error_map, Hr in Hr'. cbn in Hr'.
  injection Hr' as <-. unfold row_get. cbn [snd].
  assert (Hlen : List.length (snd r) = List.length (columns df)).
  { unfold wf in Hwf. rewrite Forall_forall in Hwf. apply Hwf.
    eapply nth_error_In; eassumption. }
  set (n := List.length (columns df)) in *.
  destruct (fill_row_nth n (snd r)) as (_ & Hout & Hin).
  induction k as [|k IH]; intros Hk; [lia|].
  destruct (Nat.eq_dec (S k) 3) as [E3|N3].
  - rewrite E3 in *. rewrite (Hout 3%nat) by lia. split.
    + intros j v Hj Hv _. assert (j = 3%nat) as -> by lia. exact Hv.
    + intros Hall. apply Hall. lia.
  - assert (Hk' : (3 <= k < n)%nat) by lia.
    destruct (IH Hk') as [IH1 IH2].
    rewrite (Hin (S k)) by lia. replace (S k - 1)%nat with k by lia.
    split.
    + intros j v Hj Hv Hnone.
      destruct (Nat.eq_dec j (S k)) as [->|Hne].
      * now rewrite Hv.
      * rewrite (Hnone (S k)) by lia. cbn [isna].
        apply (IH1 j v); [lia|exact Hv|]. intros i Hi. apply Hnone. lia.
    + intros Hall. rewrite (Hall (S k)) by lia. cbn [isna].
      apply IH2. intros j Hj. apply Hall. lia.
Qed.

Lemma fill_nans_nearest_above_witness :
  exists d, fill_nans_frame layers_with_gaps = Ok d
            /\ forall r', nth_error (rows d) 0 = Some r' ->
                          row_get 5 r' = Some 7.
Proof.
  assert (Hwf : wf layers_with_gaps) by (repeat constructor).
  assert (Hnd : NoDup (columns layers_with_gaps))
    by (repeat constructor; simpl; intuition discriminate).
  pose proof (fill_nans_frame_rows layers_with_gaps Hnd) as Hd.
  eexists. split; [exact Hd|]. intros r' Hr'.
  refine (proj1 (fill_nans_nearest_above layers_with_gaps _ Hwf Hnd Hd 0%nat
                   (Some 0, [Some 0; Some 0; Some 0; Some 7; None; None]) r'
                   eq_refl Hr' 5%nat _) 3%nat 7 _ eq_refl _).
  - simpl. lia.
  - lia.
  - intros i Hi. assert (i = 4 \/ i = 5)%nat as [-> | ->] by lia; reflexivity.
Defined.

(** ** [sample_grids], errors *)

Lemma col_pos_absent (name : string) (cols : list string) :
  existsb (String.eqb name) cols = false -> col_pos name cols = None.
Proof.
  induction cols as [|c t IH]; simpl; [reflexivity|].
  intros H. apply orb_false_elim in H. destruct H as [H1 H2].
  rewrite String.eqb_sym, H1. now rewrite IH.
Qed.

Lemma col_pos_setitem_columns (df : DataFrame) (name c : string)
    (s : list cell) :
  c <> name ->
  col_pos c (columns (setitem df name s)) = col_pos c (columns df).
Proof.
  intros Hc. unfold setitem.
  destruct (col_pos name (columns df)); cbn [columns]; [reflexivity|].
  now apply col_pos_app_other.
Qed.

(** X12.  [sample_grids] needs an unnamed index.  On a table whose index
    has a name other than ["index"] (and no column of that name or labelled
    ["index"]), [reset_index] names the inserted column after the index, so
    [set_index("index")] finds no such column: the call raises KeyError
    whatever the grid, for every column name other than ["index"]. *)
Theorem sample_grids_named_index_raises (df : DataFrame)
    (grid : cell -> cell -> cell) (sampled_name n : string) :
  index_name df = Some n ->
  n <> "index"%string ->
  has_col df n = false ->
  has_col df "index" = false ->
  sampled_name <> "index"%string ->
  sample_grids_frame df grid sampled_name = Raise KeyError.
Proof.
  intros Hidx Hn Hnocol Hnoindex Hname.
  unfold sample_grids_frame. rewrite drop_or_copy. cbn [bind].
  set (df1 := without_column df sampled_name).
  assert (H1 : index_name df1 = Some n)
    by (unfold df1; now rewrite without_column_index_name).
  assert (H2 : has_col df1 n = false)
    by (now apply without_column_keeps_absent).
  assert (H3 : has_col df1 "index" = false)
    by (now apply without_column_keeps_absent).
  unfold reset_index. rewrite H1, H2. cbn [bind].
  set (df3 := mkDF None (n :: columns df1) _).
  destruct (getitem df3 "x") as [xs|e] eqn:Ex; cbn [bind].
  2:{ unfold getitem, column in Ex.
      destruct (col_pos "x" (columns df3)); [discriminate|].
      now injection Ex as <-. }
  destruct (getitem df3 "y") as [ys|e] eqn:Ey; cbn [bind].
  2:{ unfold getitem, column in Ey.
      destruct (col_pos "y" (columns df3)); [discriminate|].
      now injection Ey as <-. }
  unfold set_index.
  rewrite col_pos_setitem_columns by congruence.
  unfold df3. cbn [columns col_pos].
  replace (String.eqb n "index") with false
    by (symmetry; now apply String.eqb_neq).
  rewrite (has_col_false df1 "index" H3). reflexivity.
Qed.

Lemma sample_grids_named_index_raises_witness :
  sample_grids_frame
    (mkDF (Some "dist"%string) ["x"; "y"]%string [(Some 0, [Some 1; Some 2])])
    (fun x y => cell_add x y) "surface"
  = Raise KeyError.
Proof.
  apply (sample_grids_named_index_raises _ _ _ "dist"%string);
    try reflexivity; discriminate.
Defined.

(** X13.  [sample_grids] needs both coordinate columns after the target
    column is dropped.  On a table with an unnamed index and no column
    labelled ["index"], the call raises KeyError when the table has no
    column [x] or no column [y], and also when the sampled column itself is
    to be named [x] or [y], because the coordinate column is dropped before
    the points are read. *)
Theorem sample_grids_missing_coordinates (df : DataFrame)
    (grid : cell -> cell -> cell) (sampled_name : string) :
  index_name df = None ->
  has_col df "index" = false ->
  has_col df "x" = false \/ has_col df "y" = false
  \/ sampled_name = "x"%string \/ sampled_name = "y"%string ->
  sample_grids_frame df grid sampled_name = Raise KeyError.
Proof.
  intros Hidx Hnoindex Hmiss.
  unfold sample_grids_frame. rewrite drop_or_copy. cbn [bind].
  set (df1 := without_column df sampled_name).
  assert (H1 : index_name df1 = None)
    by (unfold df1; now rewrite without_column_index_name).
  assert (H3 : has_col df1 "index" = false)
    by (now apply without_column_keeps_absent).
  assert (Hxy : has_col df1 "x" = false \/ has_col df1 "y" = false).
  { destruct Hmiss as [H|[H|[->| ->]]].
    - left. now apply without_column_keeps_absent.
    - right. now apply without_column_keeps_absent.
    - left. apply without_column_absent.
    - right. apply without_column_absent. }
  unfold reset_index. rewrite H1, H3, H3. cbn [bind].
  unfold getitem, column. cbn [columns rows col_pos].
  change (String.eqb "index" "x") with false.
  change (String.eqb "index" "y") with false.
  destruct Hxy as [H|H]; rewrite (has_col_false df1 _ H); cbn [option_map bind];
    [reflexivity|].
  now destruct (option_map S (col_pos "x" (columns df1))).
Qed.

Lemma sample_grids_missing_coordinates_witness :
  sample_grids_frame profile_0_5_10 (fun x y => cell_add x y) "x"
  = Raise KeyError.
Proof.
  apply sample_grids_missing_coordinates; try reflexivity.
  right. right. left. reflexivity.
Defined.

Lemma existsb_eqb_In (c : string) (cols : list string) :
  existsb (String.eqb c) cols = true <-> In c cols.
Proof.
  rewrite existsb_exists. split.
  - intros [x [H1 H2]]. apply String.eqb_eq in H2. now subst.
  - intros H. exists c. split; [assumption|apply String.eqb_refl].
Qed.

Lemma In_col_pos (c : string) (cols : list string) :
  In c cols -> exists k, col_pos c cols = Some k.
Proof.
  induction cols as [|a t IH]; simpl; [easy|].
  intros H. destruct (String.eqb a c) eqn:E; [now exists 0%nat|].
  destruct H as [->|H]; [now rewrite String.eqb_refl in E|].
  destruct (IH H) as [k ->]. now exists (S k).
Qed.

(** The labels left when the label at position [k] leaves the list. *)
Lemma remove_at_split (L : list string) (k : nat) (c : string) :
  nth_error L k = Some c ->
  exists l1 l2, L = (l1 ++ c :: l2)%list
                /\ (firstn k L ++ skipn (S k) L)%list = (l1 ++ l2)%list.
Proof.
  intros H. destruct (nth_error_split L k H) as (l1 & l2 & -> & Hlen).
  exists l1, l2. split; [reflexivity|]. subst k.
  rewrite firstn_app, Nat.sub_diag, firstn_all. cbn [firstn].
  rewrite app_nil_r. f_equal.
  change (S (List.length l1)) with (1 + List.length l1)%nat.
  rewrite <- skipn_skipn.
  rewrite skipn_app, Nat.sub_diag, skipn_all. reflexivity.
Qed.

(** X14.  [sample_grids] cannot take a table that has a column labelled
    ["index"].  On such a table (unnamed index, distinct labels, coordinate
    columns present, no column ["level_0"]), [reset_index] stores the index
    under ["level_0"], [set_index("index")] then moves the data column
    ["index"] into the index, and the function's own comparison with the
    input fails: the call raises AssertionError for every column name other
    than ["index"], [x] and [y]. *)
Theorem sample_grids_index_column_raises (df : DataFrame)
    (grid : cell -> cell -> cell) (sampled_name : string) :
  NoDup (columns df) ->
  index_name df = None ->
  has_col df "index" = true ->
  has_col df "level_0" = false ->
  has_col df "x" = true ->
  has_col df "y" = true ->
  sampled_name <> "index"%string ->
  sampled_name <> "x"%string ->
  sampled_name <> "y"%string ->
  sample_grids_frame df grid sampled_name = Raise AssertionError.
Proof.
  intros Hnd Hidx Hindex Hlevel Hx Hy Nindex Nx Ny.
  unfold sample_grids_frame. rewrite drop_or_copy. cbn [bind].
  set (df1 := without_column df sampled_name).
  assert (Hcols : columns df1
                  = filter (fun c => negb (String.eqb c sampled_name))
                           (columns df))
    by apply without_column_columns.
  assert (Hkeep : forall c, c <> sampled_name -> has_col df c = true ->
                            In c (columns df1)).
  { intros c Hc H. rewrite Hcols. apply filter_In. split.
    - now apply existsb_eqb_In.
    - apply negb_true_iff. now apply String.eqb_neq. }
  assert (H1 : index_name df1 = None)
    by (unfold df1; now rewrite without_column_index_name).
  assert (Hi : has_col df1 "index" = true).
  { apply existsb_eqb_In. apply Hkeep; [congruence|assumption]. }
  assert (Hl : has_col df1 "level_0" = false)
    by (now apply without_column_keeps_absent).
  assert (Hn : has_col df1 sampled_name = false)
    by apply without_column_absent.
  assert (Hnd1 : NoDup (columns df1))
    by (rewrite Hcols; now apply NoDup_filter).
  unfold reset_index. rewrite H1, Hi, Hl. cbn [bind].
  set (df3 := mkDF None ("level_0"%string :: columns df1) _).
  destruct (In_col_pos "x" (columns df1)) as [kx Hkx];
    [apply Hkeep; [congruence|assumption]|].
  destruct (In_col_pos "y" (columns df1)) as [ky Hky];
    [apply Hkeep; [congruence|assumption]|].
  assert (Ex : getitem df3 "x" = Ok (map (row_get (S kx)) (rows df3))).
  { unfold getitem, column, df3. cbn [columns col_pos].
    change (String.eqb "level_0" "x") with false. now rewrite Hkx. }
  assert (Ey : getitem df3 "y" = Ok (map (row_get (S ky)) (rows df3))).
  { unfold getitem, column, df3. cbn [columns col_pos].
    change (String.eqb "level_0" "y") with false. now rewrite Hky. }
  rewrite Ex, Ey. cbn [bind].
  set (df3' := setitem df3 sampled_name _).
  assert (HL : NoDup (columns df3') /\ In sampled_name (columns df3')
               /\ In "index"%string (columns df3')).
  { assert (Hin : In "index"%string (columns df1))
      by (now apply existsb_eqb_In).
    assert (Hnl : ~ In "level_0"%string (columns df1)).
    { intros H. apply existsb_eqb_In in H. unfold has_col in Hl. congruence. }
    assert (Hnn : ~ In sampled_name (columns df1)).
    { intros H. apply existsb_eqb_In in H. unfold has_col in Hn. congruence. }
    unfold df3', setitem, df3. cbn [columns col_pos].
    destruct (String.eqb "level_0" sampled_name) eqn:E.
    - apply String.eqb_eq in E. cbn [columns]. split; [|split].
      + now constructor.
      + left. exact E.
      + right. exact Hin.
    - rewrite (has_col_false df1 sampled_name Hn). cbn [option_map columns].
      apply String.eqb_neq in E. split; [|split].
      + change (NoDup (("level_0"%string :: columns df1) ++ [sampled_name])).
        apply NoDup_app; [now constructor|repeat constructor; easy|].
        intros c [Hc|Hc] [Hs|[]]; subst; [congruence|contradiction].
      + apply in_or_app. right. now left.
      + right. apply in_or_app. now left. }
  destruct HL as (HLnd & HLname & HLindex).
  unfold set_index.
  destruct (In_col_pos "index" (columns df3') HLindex) as [k Hk].
  rewrite Hk. cbn [bind]. unfold set_index_name. cbn [columns rows].
  destruct (remove_at_split _ _ _ (col_pos_nth _ _ _ Hk))
    as (l1 & l2 & HL & Hrest).
  rewrite HL in HLnd, HLname.
  assert (Hgone : ~ In "index"%string (l1 ++ l2)%list)
    by (now apply NoDup_remove_2).
  assert (Hstay : In sampled_name (l1 ++ l2)%list).
  { apply in_app_or in HLname. apply in_or_app.
    destruct HLname as [H|[H|H]]; [now left|congruence|now right]. }
  unfold drop_columns, has_col. cbn [columns rows index_name].
  rewrite Hrest.
  replace (existsb (String.eqb sampled_name) (l1 ++ l2)) with true
    by (symmetry; now apply existsb_eqb_In).
  cbn [bind]. unfold assert_frame_equal.
  match goal with |- context [DataFrame_eq_dec ?a ?b] =>
    destruct (DataFrame_eq_dec a b) as [Heq|_] end; [|reflexivity].
  exfalso. apply (f_equal columns) in Heq. cbn [columns] in Heq.
  apply Hgone. apply existsb_eqb_In in Hi. unfold has_col in *.
  assert (Hin : In "index"%string (columns df1)).
  { apply existsb_eqb_In. unfold has_col in Hi.
    now apply existsb_eqb_In. }
  rewrite <- Heq in Hin. apply filter_In in Hin. apply Hin.
Qed.

Lemma sample_grids_index_column_raises_witness :
  sample_grids_frame
    (mkDF None ["index"; "x"; "y"]%string
          [(Some 0, [Some 7; Some 1; Some 2])])
    (fun x y => cell_add x y) "surface"
  = Raise AssertionError.
Proof.
  apply sample_grids_index_column_raises; try reflexivity; try discriminate.
  repeat constructor; simpl; intuition discriminate.
Defined.

(** ** [make_data_dict] *)

Lemma str_injective (i j : nat) : str i = str j -> i = j.
Proof.
  unfold str. intros H.
  apply (f_equal DecimalString.NilEmpty.uint_of_string) in H.
  rewrite !DecimalString.NilEmpty.usu in H. injection H as H.
  apply (f_equal Nat.of_uint) in H.
  now rewrite !DecimalNat.Unsigned.of_to in H.
Qed.

Lemma NoDup_map_str (l : list nat) : NoDup l -> NoDup (map str l).
Proof.
  induction 1 as [|x l Hx Hnd IH]; cbn [map]; constructor; [|exact IH].
  rewrite in_map_iff. intros [y [Hy Hin]]. apply str_injective in Hy.
  now subst y.
Qed.

Lemma In_enumerate {A : Type} (l : list A) :
  forall (a i : nat) (x : A),
    nth_error l i = Some x ->
    In ((a + i)%nat, x) (combine (seq a (List.length l)) l).
Proof.
  induction l as [|y l IH]; intros a [|i] x H; cbn in H; try discriminate.
  - injection H as <-. rewrite Nat.add_0_r. now left.
  - right. replace (a + S i)%nat with (S a + i)%nat by lia. now apply IH.
Qed.

Lemma dict_set_new {V : Type} (k : string) (v : V) (d : list (string * V)) :
  ~ In k (map fst d) -> dict_set k v d = (d ++ [(k, v)])%list.
Proof.
  induction d as [|[k' v'] t IH]; cbn [dict_set map fst In app];
    [reflexivity|].
  intros H. destruct (String.eqb k' k) eqn:E.
  - apply String.eqb_eq in E. exfalso. apply H. now left.
  - rewrite IH; [reflexivity|]. intros Hin. apply H. now right.
Qed.

Lemma list_get_ok {A : Type} (l : list A) (i : nat) :
  (i < List.length l)%nat -> exists a, nth_error l i = Some a.
Proof.
  intros H. destruct (nth_error l i) as [a|] eqn:E; [now exists a|].
  apply nth_error_None in E. lia.
Qed.

(** The comprehension from index [a] on, when all lists are long enough and
    the keys made so far are those of the indices below [a]. *)
Lemma make_data_dict_loop_ok {G : Type} (grids : list G)
    (colors : list string) (axes : option (list Z)) :
  forall (names : list string) (a : nat) (acc : list (string * DataEntry G)),
    (a + List.length names <= List.length grids)%nat ->
    (a + List.length names <= List.length colors)%nat ->
    match axes with
    | Some ax => (a + List.length names <= List.length ax)%nat
    | None => True
    end ->
    map fst acc = map str (seq 0 a) ->
    exists es,
      make_data_dict_loop (combine (seq a (List.length names)) names)
                          grids colors axes acc = Ok (acc ++ es)%list
      /\ map fst es = map str (seq a (List.length names))
      /\ forall i j, nth_error names i = Some j ->
           exists g c,
             nth_error grids (a + i) = Some g
             /\ nth_error colors (a + i) = Some c
             /\ nth_error es i
                = Some (str (a + i),
                        mkEntry j g c
                          match axes with
                          | Some ax => nth (a + i) ax 0%Z
                          | None => 0%Z
                          end).
Proof.
  induction names as [|j names IH]; intros a acc Hg Hc Ha Hacc.
  - exists []. cbn. rewrite app_nil_r. repeat split.
    intros [|i] ?; discriminate.
  - cbn [List.length seq combine make_data_dict_loop] in *.
    destruct (list_get_ok grids a) as [g Eg]; [lia|].
    destruct (list_get_ok colors a) as [c Ec]; [lia|].
    unfold list_get at 1 2. rewrite Eg, Ec. cbn [bind].
    set (ax_a := match axes with Some ax => nth a ax 0%Z | None => 0%Z end).
    assert (Eax : match axes with
                  | Some ax => list_get ax a
                  | None => Ok 0%Z
                  end = Ok ax_a).
    { unfold ax_a. destruct axes as [ax|]; [|reflexivity].
      destruct (list_get_ok ax a) as [z Ez]; [lia|].
      unfold list_get. rewrite Ez. f_equal. symmetry.
      now apply nth_error_nth. }
    rewrite Eax. cbn [bind].
    rewrite dict_set_new.
    2:{ rewrite Hacc. intros Hin. apply in_map_iff in Hin.
        destruct Hin as [i [Hi Hin]]. apply str_injective in Hi.
        apply in_seq in Hin. lia. }
    destruct (IH (S a) (acc ++ [(str a, mkEntry j g c ax_a)])%list)
      as (es & Hes & Hkeys & Hent).
    + lia.
    + lia.
    + destruct axes; [lia|exact I].
    + rewrite map_app, Hacc, seq_S, map_app. reflexivity.
    + exists ((str a, mkEntry j g c ax_a) :: es). split; [|split].
      * rewrite Hes, <- app_assoc. reflexivity.
      * cbn [map fst]. now rewrite Hkeys.
      * intros [|i] j' Hj'.
        -- cbn in Hj'. injection Hj' as <-. exists g, c.
           rewrite Nat.add_0_r. repeat split; assumption.
        -- cbn [nth_error] in Hj' |- *.
           destruct (Hent i j' Hj') as (g' & c' & H1 & H2 & H3).
           exists g', c'.
           replace (a + S i)%nat with (S a + i)%nat by lia.
           repeat split; assumption.
Qed.

(** The comprehension raises nothing but IndexError, and it returns only
    when every index it meets has an entry in every list. *)
Lemma make_data_dict_loop_inv {G : Type} (grids : list G)
    (colors : list string) (axes : option (list Z)) :
  forall (ijs : list (nat * string)) (acc : list (string * DataEntry G)),
    match make_data_dict_loop ijs grids colors axes acc with
    | Ok _ =>
        forall i j, In (i, j) ijs ->
          (i < List.length grids)%nat /\ (i < List.length colors)%nat
          /\ match axes with
             | Some ax => (i < List.length ax)%nat
             | None => True
             end
    | Raise e => e = IndexError
    end.
Proof.
  induction ijs as [|[i j] rest IH]; intros acc;
    cbn [make_data_dict_loop]; [intros ? ? []|].
  unfold list_get at 1.
  destruct (nth_error grids i) as [g|] eqn:Eg; cbn [bind]; [|reflexivity].
  unfold list_get at 1.
  destruct (nth_error colors i) as [c|] eqn:Ec; cbn [bind]; [|reflexivity].
  assert (Hg : (i < List.length grids)%nat)
    by (apply nth_error_Some; congruence).
  assert (Hc : (i < List.length colors)%nat)
    by (apply nth_error_Some; congruence).
  destruct axes as [ax|].
  - unfold list_get at 1.
    destruct (nth_error ax i) as [z|] eqn:Ez; cbn [bind]; [|reflexivity].
    assert (Hz : (i < List.length ax)%nat)
      by (apply nth_error_Some; congruence).
    specialize (IH (dict_set (str i) (mkEntry j g c z) acc)).
    destruct (make_data_dict_loop rest grids colors (Some ax) _);
      [|exact IH].
    intros i' j' [E|Hin]; [injection E as <- <-; auto|now apply (IH i' j')].
  - cbn [bind].
    specialize (IH (dict_set (str i) (mkEntry j g c 0%Z) acc)).
    destruct (make_data_dict_loop rest grids colors None _); [|exact IH].
    intros i' j' [E|Hin]; [injection E as <- <-; auto|now apply (IH i' j')].
Qed.

(** A call that returns had lists that fit. *)
Lemma make_data_dict_returns {G : Type} (names : list string)
    (grids : list G) (colors : list string) (axes : option (list Z)) :
  match make_data_dict names grids colors axes with
  | Ok _ => fits names grids colors axes
  | Raise e => e = IndexError
  end.
Proof.
  unfold make_data_dict.
  pose proof (make_data_dict_loop_inv grids colors axes
                (combine (seq 0 (List.length names)) names) []) as H.
  destruct (make_data_dict_loop _ grids colors axes []) as [d|e];
    [|exact H].
  destruct names as [|j0 names0] eqn:En.
  { unfold fits. cbn [List.length]. repeat split; try lia.
    destruct axes; [lia|exact I]. }
  rewrite <- En in *.
  assert (Hlast : exists j,
             In ((List.length names - 1)%nat, j)
                (combine (seq 0 (List.length names)) names)).
  { assert (Hlen : (List.length names - 1 < List.length names)%nat)
      by (rewrite En; cbn; lia).
    destruct (list_get_ok names _ Hlen) as [j Hj]. exists j.
    apply (In_enumerate names 0%nat). exact Hj. }
  destruct Hlast as [j Hj]. destruct (H _ _ Hj) as (H1 & H2 & H3).
  unfold fits. repeat split; try lia. destruct axes; [lia|exact I].
Qed.

(** X15.  [make_data_dict] returns when and only when [grids], [colors]
    and, if given, [axes] have an entry for every name, and raises
    IndexError otherwise (longer lists are accepted, their extra entries
    ignored).  The dictionary it returns has exactly one item per name, in
    the order of [names]: the keys are the decimal indices ["0"], ["1"],
    ..., all distinct, and item [i] holds the name, the grid, the color and
    the axis of index [i], the axis being 0 when [axes] is None. *)
Theorem make_data_dict_entries {G : Type} (names : list string)
    (grids : list G) (colors : list string) (axes : option (list Z)) :
  (fits names grids colors axes ->
   exists d,
     make_data_dict names grids colors axes = Ok d
     /\ map fst d = map str (seq 0 (List.length names))
     /\ NoDup (map fst d)
     /\ forall i j, nth_error names i = Some j ->
          exists g c,
            nth_error grids i = Some g
            /\ nth_error colors i = Some c
            /\ nth_error d i
               = Some (str i,
                       mkEntry j g c
                         match axes with
                         | Some ax => nth i ax 0%Z
                         | None => 0%Z
                         end))
  /\ (~ fits names grids colors axes ->
      make_data_dict names grids colors axes = Raise IndexError).
Proof.
  split.
  - intros (Hg & Hc & Ha).
    destruct (make_data_dict_loop_ok grids colors axes names 0%nat [])
      as (es & Hes & Hkeys & Hent); try assumption; [reflexivity|].
    exists es. split; [exact Hes|]. split; [exact Hkeys|]. split.
    + rewrite Hkeys. apply NoDup_map_str, seq_NoDup.
    + exact Hent.
  - intros Hnot.
    pose proof (make_data_dict_returns names grids colors axes) as H.
    destruct (make_data_dict names grids colors axes) as [d|e];
      [contradiction|now subst e].
Qed.

Lemma make_data_dict_entries_witness :
  exists d,
    make_data_dict ["gravity"; "magnetics"]%string [1%nat; 2%nat; 3%nat]
                   ["blue"; "red"]%string None = Ok d
    /\ map fst d = ["0"; "1"]%string.
Proof.
  destruct (proj1 (make_data_dict_entries
                     ["gravity"; "magnetics"]%string [1%nat; 2%nat; 3%nat]
                     ["blue"; "red"]%string None))
    as (d & H1 & H2 & _).
  - unfold fits. cbn. repeat split; lia.
  - exists d. split; [exact H1|exact H2].
Defined.

(** ** The data dictionary in the sampling loop *)

Lemma str_not_label (i : nat) (c : string) :
  DecimalString.NilEmpty.uint_of_string c = None -> str i <> c.
Proof.
  intros Hc E. unfold str in E. rewrite <- E in Hc.
  rewrite DecimalString.NilEmpty.usu in Hc. discriminate.
Qed.

Lemma range_index_length (n : nat) : List.length (range_index n) = n.
Proof. unfold range_index. now rewrite length_map, length_seq. Qed.

Lemma to_frame_labels (p : list Row) :
  map fst (rows (to_frame p)) = range_index (List.length p).
Proof.
  unfold to_frame. cbn [rows]. rewrite map_map. cbn [fst].
  set (idx := range_index (List.length p)).
  assert (H : List.length idx = List.length p) by apply range_index_length.
  clearbody idx. revert p H.
  induction idx as [|a idx IH]; intros [|r p] H; cbn in *;
    try discriminate; try reflexivity.
  f_equal. apply IH. lia.
Qed.

Lemma to_frame_column (p : list Row) (k : nat) (f : Row -> cell) :
  (forall r, nth k [px r; py r; pdist r] None = f r) ->
  map (row_get k) (rows (to_frame p)) = map f p.
Proof.
  intros Hf. unfold to_frame. cbn [rows]. rewrite map_map.
  unfold row_get. cbn [snd].
  rewrite (map_combine_ext _ f); [reflexivity| |].
  - apply range_index_length.
  - intros a b. cbn [snd]. apply Hf.
Qed.

Lemma to_frame_profile_table (p : list Row) :
  profile_table (to_frame p) (map px p) (map py p).
Proof.
  unfold profile_table. split; [|split; [reflexivity|split; [reflexivity|]]].
  - unfold wf, to_frame. cbn [rows columns]. apply Forall_forall.
    intros r Hr. apply in_map_iff in Hr. now destruct Hr as [q [<- _]].
  - split; unfold getitem, column; cbn [to_frame columns col_pos];
      cbn [String.eqb Ascii.eqb Bool.eqb option_map andb]; f_equal;
      now apply to_frame_column.
Qed.

Lemma map2_map {A B C D : Type} (g : B -> C -> D) (a : A -> B) (b : A -> C)
    (l : list A) :
  map2 g (map a l) (map b l) = map (fun r => g (a r) (b r)) l.
Proof. induction l; cbn; congruence. Qed.

(** X16.  A dictionary made by [make_data_dict], sampled onto a profile of
    [create_profile] by the loop of [plot_profile] and [plot_data]: the loop
    raises nothing, and the sampled columns are labelled by the keys ["0"],
    ["1"], ... of the dictionary, in order after [x], [y], [dist], not by
    the names of the data; column [str i] holds grid [i] sampled at the
    points of the profile, and the index and the [dist] column of the
    profile are unchanged. *)
Theorem data_dict_sampled_by_key (names : list string)
    (grids : list (cell -> cell -> cell)) (colors : list string)
    (axes : option (list Z)) (d : list (string * DataEntry _))
    (p : list Row) :
  make_data_dict names grids colors axes = Ok d ->
  exists out,
    sample_all (to_frame p) (data_items d) = Ok out
    /\ columns out
       = (["x"; "y"; "dist"]%string ++ map str (seq 0 (List.length names)))%list
    /\ map fst (rows out) = range_index (List.length p)
    /\ getitem out "dist" = Ok (map pdist p)
    /\ forall i g, (i < List.length names)%nat ->
         nth_error grids i = Some g ->
         getitem out (str i) = Ok (map (fun r => g (px r) (py r)) p).
Proof.
  intros Hd.
  pose proof (make_data_dict_returns names grids colors axes) as Hfits.
  rewrite Hd in Hfits. destruct Hfits as (Hg & Hc & Ha).
  destruct (make_data_dict_loop_ok grids colors axes names 0%nat [])
    as (es & Hes & Hkeys & Hent); try assumption; [reflexivity|].
  cbn [app] in Hes. unfold make_data_dict in Hd. rewrite Hes in Hd.
  injection Hd as <-.
  assert (Hitems : map fst (data_items es)
                   = map str (seq 0 (List.length names))).
  { unfold data_items. rewrite map_map. cbn [fst]. exact Hkeys. }
  destruct (sample_all_spec (data_items es) (to_frame p)
              (map px p) (map py p))
    as (out & Hout & _ & Hcols & _ & Hlab & Hkeep & Hcol).
  - apply to_frame_profile_table.
  - rewrite Hitems. apply NoDup_map_str, seq_NoDup.
  - rewrite Hitems. intros k Hk. apply in_map_iff in Hk.
    destruct Hk as [i [<- _]]. split.
    + unfold has_col. cbn [to_frame columns existsb].
      rewrite !orb_false_iff. repeat split; try reflexivity;
        apply String.eqb_neq, str_not_label; reflexivity.
    + apply str_not_label. reflexivity.
  - exists out. split; [exact Hout|]. split; [now rewrite Hcols, Hitems|].
    split; [now rewrite Hlab, to_frame_labels|]. split.
    + rewrite Hkeep by reflexivity.
      unfold getitem, column. cbn [to_frame columns col_pos].
      cbn [String.eqb Ascii.eqb Bool.eqb option_map andb]. f_equal.
      now apply to_frame_column.
    + intros i g Hi Hgi.
      destruct (list_get_ok names i Hi) as [j Hj].
      destruct (Hent i j Hj) as (g' & c & Hg' & _ & He).
      cbn [Nat.add] in Hg', He. rewrite Hgi in Hg'. injection Hg' as <-.
      rewrite (Hcol (str i) g); [now rewrite map2_map|].
      unfold data_items. apply nth_error_In in He.
      apply (in_map (fun kv => (fst kv, entry_grid (snd kv)))) in He.
      exact He.
Qed.

Lemma data_dict_sampled_by_key_witness :
  exists out,
    sample_all
      (to_frame [mkRow (Some 0) (Some 0) (Some 0)])
      (data_items
         [("0"%string,
           mkEntry "gravity"%string (fun x y => cell_add x y)
                   "blue"%string 0%Z)])
    = Ok out
    /\ columns out = ["x"; "y"; "dist"; "0"]%string.
Proof.
  destruct (data_dict_sampled_by_key
              ["gravity"%string] [fun x y => cell_add x y] ["blue"%string]
              None
              [("0"%string,
                mkEntry "gravity"%string (fun x y => cell_add x y)
                        "blue"%string 0%Z)]
              [mkRow (Some 0) (Some 0) (Some 0)] eq_refl)
    as (out & H1 & H2 & _).
  exists out. split; [exact H1|exact H2].
Defined.

(** ** The table pipelines *)

(** The sampling loop in closed form: every row gets the values of the
    grids at its point, in the order of the items. *)
Lemma sample_all_rows (items : list (string * (cell -> cell -> cell))) :
  forall (df : DataFrame) (kx ky : nat),
    wf df ->
    index_name df = None ->
    has_col df "index" = false ->
    col_pos "x" (columns df) = Some kx ->
    col_pos "y" (columns df) = Some ky ->
    NoDup (map fst items) ->
    (forall k, In k (map fst items) ->
       has_col df k = false /\ k <> "index"%string) ->
    sample_all df items
    = Ok (mkDF None (columns df ++ map fst items)
            (map (fun r =>
                    (fst r,
                     (snd r ++ map (fun kv => snd kv (row_get kx r)
                                                     (row_get ky r)) items)%list))
                 (rows df))).
Proof.
  induction items as [|[k g] t IH]; intros df kx ky Hwf Hidx Hnoi Hx Hy Hnd Hnew.
  - unfold sample_all. cbn [fold_left map]. rewrite app_nil_r.
    destruct df as [nm cl rw]. cbn in *. subst nm. f_equal. f_equal.
    rewrite <- (map_id rw) at 1. apply map_ext. intros [a b]. cbn.
    now rewrite app_nil_r.
  - cbn [map fst] in Hnd, Hnew. inversion Hnd as [|? ? Hk Hnd']; subst.
    destruct (Hnew k (or_introl eq_refl)) as [Hkn Hki].
    assert (Nx : "x"%string <> k).
    { intros <-. rewrite (has_col_false df _ Hkn) in Hx. discriminate. }
    assert (Ny : "y"%string <> k).
    { intros <-. rewrite (has_col_false df _ Hkn) in Hy. discriminate. }
    rewrite sample_all_cons. cbn [fst snd].
    rewrite (sample_grids_frame_eq df g k kx ky);
      rewrite ?without_column_same by assumption; try assumption.
    rewrite (IH (with_sampled df g k kx ky) kx ky).
    + cbn [with_sampled columns rows map fst]. rewrite <- app_assoc.
      cbn [app]. f_equal. f_equal. rewrite map_map. apply map_ext_in.
      intros r Hr. cbn [fst snd]. f_equal. rewrite <- app_assoc. cbn [app].
      assert (Hlen : List.length (snd r) = List.length (columns df)).
      { unfold wf in Hwf. rewrite Forall_forall in Hwf. now apply Hwf. }
      unfold row_get. cbn [snd].
      rewrite !app_nth1
        by (rewrite Hlen; eapply col_pos_lt; eassumption).
      reflexivity.
    + now apply with_sampled_wf.
    + exact Hidx.
    + unfold has_col, with_sampled. cbn [columns]. rewrite has_col_app.
      unfold has_col in Hnoi. rewrite Hnoi. cbn [orb].
      apply String.eqb_neq. congruence.
    + cbn [with_sampled columns]. now rewrite col_pos_app_other.
    + cbn [with_sampled columns]. now rewrite col_pos_app_other.
    + exact Hnd'.
    + intros k' Hk'. destruct (Hnew k' (or_intror Hk')) as [H1 H2].
      split; [|exact H2]. unfold has_col, with_sampled. cbn [columns].
      rewrite has_col_app. unfold has_col in H1. rewrite H1. cbn [orb].
      apply String.eqb_neq. intros ->. contradiction.
Qed.

Lemma combine_map_map {A B C : Type} (a : A -> B) (b : A -> C) (l : list A) :
  combine (map a l) (map b l) = map (fun x => (a x, b x)) l.
Proof. induction l; cbn; congruence. Qed.

Lemma to_frame_map_seq (f : nat -> Row) (n : nat) :
  to_frame (map f (seq 0 n))
  = mkDF None ["x"; "y"; "dist"]%string
         (map (fun i => (Some (INR i), [px (f i); py (f i); pdist (f i)]))
              (seq 0 n)).
Proof.
  unfold to_frame, range_index. rewrite length_map, length_seq.
  rewrite combine_map_map, map_map. reflexivity.
Qed.

Lemma fresh_label (df : DataFrame) (k : string) (labels : list string) :
  columns df = labels -> ~ In k labels -> has_col df k = false.
Proof.
  intros <- H. unfold has_col.
  destruct (existsb (String.eqb k) (columns df)) eqn:E; [|reflexivity].
  now apply existsb_eqb_In in E.
Qed.

(** The data table of a "points" profile before it is shortened. *)
Lemma points_data_rows (sx sy ex ey : R) (N : Z) (n : nat)
    (items : list (string * (cell -> cell -> cell))) :
  NoDup (map fst items) ->
  (forall k, In k (map fst items) ->
     ~ In k ["x"; "y"; "dist"; "index"]%string) ->
  sample_all
    (to_frame (map (fun i => points_row sx sy ex ey (param N i)) (seq 0 n)))
    items
  = Ok (mkDF None (["x"; "y"; "dist"]%string ++ map fst items)
          (map (fun i =>
                  data_row sx sy ex ey items i (param N i)
                    (param N i
                     * sqrt ((ex - sx) * (ex - sx) + (ey - sy) * (ey - sy))))
               (seq 0 n))).
Proof.
  intros Hnd Hnew. rewrite to_frame_map_seq.
  rewrite (sample_all_rows items _ 0%nat 1%nat); try reflexivity;
    try assumption.
  - cbn [columns rows]. f_equal. f_equal. rewrite map_map.
    apply map_ext. intros i. cbn [fst snd]. unfold data_row, row_get.
    cbn [snd nth]. rewrite points_row_dist. reflexivity.
  - unfold wf. cbn [rows columns]. apply Forall_forall. intros r Hr.
    apply in_map_iff in Hr. now destruct Hr as [i [<- _]].
  - intros k Hk. specialize (Hnew k Hk). split.
    + apply (fresh_label _ k ["x"; "y"; "dist"]%string); [reflexivity|].
      intros H. apply Hnew. cbn in H |- *. intuition.
    + intros ->. apply Hnew. cbn. intuition.
Qed.

Lemma filter_map_comm {A B : Type} (f : B -> bool) (g : A -> B) (l : list A) :
  filter f (map g l) = map g (filter (fun x => f (g x)) l).
Proof.
  induction l as [|a l IH]; cbn; [reflexivity|].
  destruct (f (g a)); cbn; now rewrite IH.
Qed.



Lemma filter_seq_inner (n : nat) :
  filter (fun i => (i <? n - 1)%nat && (0 <? i)%nat) (seq 0 n)
  = seq 1 (n - 2).
Proof.
  destruct n as [|[|m]]; [reflexivity|reflexivity|].
  replace (S (S m) - 1)%nat with (S m) by lia.
  replace (S (S m) - 2)%nat with m by lia.
  change (seq 0 (S (S m))) with (0%nat :: seq 1 (S m)).
  cbn [filter]. rewrite (Nat.ltb_irrefl 0), andb_false_r.
  rewrite seq_S, filter_app. cbn [filter].
  change (1 + m)%nat with (S m). rewrite (Nat.ltb_irrefl (S m)).
  cbn [andb]. rewrite app_nil_r.
  rewrite <- (filter_ext_in (fun _ => true)).
  - induction (seq 1 m) as [|a l IH]; cbn; congruence.
  - intros i Hi. apply in_seq in Hi. symmetry. apply andb_true_iff.
    split; apply Nat.ltb_lt; lia.
Qed.

(** The distance between two samples of a segment. *)
Lemma points_dist_between (sx sy ex ey t u : R) :
  u <= t ->
  euclidean (sx + t * (ex - sx)) (sy + t * (ey - sy))
            (sx + u * (ex - sx)) (sy + u * (ey - sy))
  = (t - u) * sqrt ((ex - sx) * (ex - sx) + (ey - sy) * (ey - sy)).
Proof.
  intros H.
  replace (sx + t * (ex - sx))
    with (sx + u * (ex - sx) + (t - u) * (ex - sx)) by ring.
  replace (sy + t * (ey - sy))
    with (sy + u * (ey - sy) + (t - u) * (ey - sy)) by ring.
  apply points_dist. lra.
Qed.



Lemma clip_check_raises (max_dist min_dist : option R) :
  clip_check max_dist min_dist = Raise ValueError
  <-> min_dist = None /\ (max_dist = None \/ max_dist = Some 0).
Proof.
  unfold clip_check, py_or, truthy.
  destruct max_dist as [m|].
  - destruct (Req_dec_T m 0) as [->|Hm].
    + destruct min_dist as [l|]; split.
      * discriminate.
      * intros [H _]. discriminate.
      * intros _. split; [reflexivity|right; reflexivity].
      * reflexivity.
    + split; [discriminate|]. intros [_ [H|H]]; [discriminate|].
      injection H as H. contradiction.
  - destruct min_dist as [l|]; split.
    + discriminate.
    + intros [H _]. discriminate.
    + intros _. split; [reflexivity|left; reflexivity].
    + reflexivity.
Qed.

Lemma clip_check_passes (max_dist min_dist : option R) :
  ~ (min_dist = None /\ (max_dist = None \/ max_dist = Some 0)) ->
  clip_check max_dist min_dist = Ok tt.
Proof.
  intros H. destruct (clip_check max_dist min_dist) as [[]|e] eqn:E;
    [reflexivity|].
  exfalso. apply H. apply clip_check_raises. rewrite E. f_equal.
  unfold clip_check in E. destruct (py_or max_dist min_dist);
    [discriminate|now injection E].
Qed.

(** X18.  The bounds that [clip=True] needs in [plot_profile].  The check
    [(max_dist or min_dist) is None] finds the bounds missing exactly when
    [min_dist] is absent and [max_dist] is absent or 0: one bound is enough,
    and [max_dist = 0] alone counts as no bound.  The check stands after the
    sampling: when the bounds are missing the call raises ValueError only if
    the profile and the two tables could be built, and the error of the
    profile or of the sampling otherwise; when they are not missing, the
    tables are those of the call without [clip], shortened, the data table
    only when there is a data dictionary. *)
Theorem plot_profile_clip_bounds (cubic : list Row -> result (list Row))
    (method : string) (start stop : option (R * R)) (num : option Z)
    (shapefile polyline : option (list Vertex)) (reverse : bool)
    (layers_dict : list (string * (cell -> cell -> cell)))
    (data_dict : option (list (string * (cell -> cell -> cell))))
    (fillnans : bool) (max_dist min_dist : option R) :
  let unclipped :=
    plot_profile_tables cubic method start stop num shapefile polyline
                        reverse layers_dict data_dict fillnans false
                        max_dist min_dist in
  let clipped :=
    plot_profile_tables cubic method start stop num shapefile polyline
                        reverse layers_dict data_dict fillnans true
                        max_dist min_dist in
  (min_dist = None /\ (max_dist = None \/ max_dist = Some 0) ->
   clipped = match unclipped with
             | Ok _ => Raise ValueError
             | Raise e => Raise e
             end)
  /\ (~ (min_dist = None /\ (max_dist = None \/ max_dist = Some 0)) ->
      clipped
      = (tables <- unclipped ;;
         df_layers <- shorten_frame (fst tables) max_dist min_dist ;;
         df_data <- match data_dict with
                    | Some _ => shorten_frame (snd tables) max_dist min_dist
                    | None => Ok (snd tables)
                    end ;;
         Ok (df_layers, df_data))).
Proof.
  intros unclipped clipped. unfold unclipped, clipped, plot_profile_tables.
  destruct (create_profile cubic method start stop num shapefile polyline
                           reverse) as [pts|e]; cbn [bind];
    [|split; reflexivity].
  destruct (sample_all (to_frame pts) layers_dict) as [l0|e]; cbn [bind];
    [|split; reflexivity].
  destruct (if fillnans then fill_nans_frame l0 else Ok l0) as [l1|e];
    cbn [bind]; [|split; reflexivity].
  destruct (match data_dict with
            | Some items => sample_all (to_frame pts) items
            | None => Ok (to_frame pts)
            end) as [d0|e]; cbn [bind]; [|split; reflexivity].
  split; intros H.
  - apply clip_check_raises in H. now rewrite H.
  - rewrite (clip_check_passes _ _ H). cbn [bind fst snd]. reflexivity.
Qed.

Lemma plot_profile_clip_bounds_witness :
  plot_profile_tables (fun _ => Raise ValueError) "points"
                      (Some (0, 0)) (Some (10, 0)) (Some 3%Z) None None false
                      [] None true true (Some 0) None
  = match
      plot_profile_tables (fun _ => Raise ValueError) "points"
                          (Some (0, 0)) (Some (10, 0)) (Some 3%Z) None None
                          false [] None true false (Some 0) None
    with
    | Ok _ => Raise ValueError
    | Raise e => Raise e
    end.
Proof.
  apply (proj1 (plot_profile_clip_bounds (fun _ => Raise ValueError) "points"
                  (Some (0, 0)) (Some (10, 0)) (Some 3%Z) None None false
                  [] None true (Some 0) None)).
  split; [reflexivity|right; reflexivity].
Defined.

(** ** The layer table of [plot_profile] *)

Lemma fill_down_from_length (l : list cell) :
  forall prev, List.length (fill_down_from prev l) = List.length l.
Proof. induction l as [|c t IH]; intros prev; cbn; [reflexivity|]. now rewrite IH. Qed.

Lemma fill_down_from_nth (l : list cell) :
  forall (prev : cell) (k : nat),
    (k < List.length l)%nat ->
    nth k (fill_down_from prev l) None
    = match nth k l None with
      | Some v => Some v
      | None => match k with
                | O => prev
                | S k' => nth k' (fill_down_from prev l) None
                end
      end.
Proof.
  induction l as [|c t IH]; intros prev k Hk; cbn [List.length] in Hk; [lia|].
  cbn [fill_down_from]. destruct k as [|k]; cbn [nth].
  - now destruct c.
  - rewrite IH by lia. destruct (nth k t None) as [v|]; [reflexivity|].
    now destruct k.
Qed.

(** The loop of [fill_nans] on a row whose first three entries are the
    point and its distance. *)
Lemma fill_row_fill_down (a b c : cell) (vals : list cell) :
  fill_row (3 + List.length vals) ([a; b; c] ++ vals)
  = ([a; b; c] ++ fill_down vals)%list.
Proof.
  unfold cell in *.
  set (n := (3 + List.length vals)%nat).
  set (r := ([a; b; c] ++ vals)%list).
  assert (Hr : List.length r = n) by reflexivity.
  destruct (fill_row_nth n r) as (Hlen & Hout & Hin).
  unfold cell in *.
  apply (nth_ext _ _ None None).
  - rewrite Hlen. unfold r, fill_down. cbn [app List.length].
    now rewrite fill_down_from_length.
  - intros k _. induction k as [|k IH].
    + now rewrite Hout by lia.
    + destruct (Nat.lt_ge_cases (S k) 3) as [H3|H3].
      { rewrite Hout by lia. unfold r.
        destruct k as [|[|k]]; [reflexivity|reflexivity|lia]. }
      destruct (Nat.lt_ge_cases (S k) n) as [Hn|Hn].
      2:{ rewrite Hout by lia. unfold r.
          rewrite (nth_overflow ([a; b; c] ++ vals))
            by (cbn [app List.length]; unfold n in Hn; lia).
          rewrite nth_overflow; [reflexivity|].
          cbn [app List.length]. unfold fill_down.
          rewrite fill_down_from_length. unfold n in Hn. unfold cell. lia. }
      destruct (Nat.eq_dec (S k) 3) as [E3|N3].
      { rewrite Hout by lia. injection E3 as ->. unfold r, fill_down.
        cbn [app nth]. destruct vals as [|v vals]; [reflexivity|].
        cbn [fill_down_from nth]. now destruct v. }
      unfold cell in *.
      rewrite Hin by lia. replace (S k - 1)%nat with k by lia.
      rewrite IH. unfold r, fill_down.
      replace (S k) with (3 + (k - 2))%nat by lia.
      replace k with (3 + (k - 3))%nat at 2 by lia.
      cbn [app nth Nat.add].
      assert (Hf := fill_down_from_nth vals None (k - 2)).
      unfold cell in Hf. rewrite Hf by (unfold n in Hn; lia).
      replace (k - 2)%nat with (S (k - 3)) by lia.
      now destruct (nth (S (k - 3)) vals None).
Qed.

Lemma NoDup_profile_columns (names : list string) :
  NoDup names ->
  (forall k, In k names -> ~ In k ["x"; "y"; "dist"; "index"]%string) ->
  NoDup (["x"; "y"; "dist"]%string ++ names).
Proof.
  intros Hnd Hnew. cbn [app].
  repeat constructor; try assumption; cbn [In];
    intros H; repeat (destruct H as [H|H]; [discriminate|]);
    apply (Hnew _ H); cbn; auto.
Qed.

(** X19.  The two tables of [plot_profile] without [clip], for a profile
    between two points with [N >= 1] samples and dictionaries whose keys are
    distinct and none of [x], [y], [dist], [index]: the call raises nothing
    and ignores the bounds; both tables have one row per sample under the
    labels [0 .. N-1], with the point, its distance from the start, and one
    column per key in the order of the dictionary.  In the layer table each
    row holds the layers forward-filled from the first layer down (when
    [fillnans] is set, else as sampled); the data table holds the data as
    sampled, and is the bare profile when there is no data dictionary. *)
Theorem plot_profile_unclipped_tables
    (cubic : list Row -> result (list Row))
    (sx sy ex ey : R) (num : option Z)
    (shapefile polyline : option (list Vertex)) (reverse : bool)
    (layers : list (string * (cell -> cell -> cell)))
    (data_dict : option (list (string * (cell -> cell -> cell))))
    (fillnans : bool) (max_dist min_dist : option R) :
  let N := match num with None => 1000%Z | Some n => n end in
  let L := sqrt ((ex - sx) * (ex - sx) + (ey - sy) * (ey - sy)) in
  let valid := fun items : list (string * (cell -> cell -> cell)) =>
    NoDup (map fst items)
    /\ forall k, In k (map fst items) ->
         ~ In k ["x"; "y"; "dist"; "index"]%string in
  (1 <= N)%Z ->
  valid layers ->
  match data_dict with Some items => valid items | None => True end ->
  plot_profile_tables cubic "points" (Some (sx, sy)) (Some (ex, ey)) num
                      shapefile polyline reverse layers data_dict fillnans
                      false max_dist min_dist
  = Ok (mkDF None (["x"; "y"; "dist"]%string ++ map fst layers)
          (map (fun i => layer_row sx sy ex ey layers fillnans i
                                   (param N i) (param N i * L))
               (seq 0 (Z.to_nat N))),
        mkDF None
          (["x"; "y"; "dist"]%string
           ++ match data_dict with Some items => map fst items | None => [] end)
          (map (fun i =>
                  data_row sx sy ex ey
                    match data_dict with Some items => items | None => [] end
                    i (param N i) (param N i * L))
               (seq 0 (Z.to_nat N)))).
Proof.
  intros N L valid HN [Hnd Hnew] Hdata. unfold plot_profile_tables.
  rewrite (create_profile_points_rows cubic sx sy ex ey num) by assumption.
  cbn [bind]. fold N. rewrite points_data_rows by assumption. cbn [bind].
  fold L.
  set (tbl := mkDF None (["x"; "y"; "dist"]%string ++ map fst layers) _).
  assert (Hfill : (if fillnans then fill_nans_frame tbl else Ok tbl)
                  = Ok (mkDF None (["x"; "y"; "dist"]%string ++ map fst layers)
                          (map (fun i => layer_row sx sy ex ey layers fillnans
                                           i (param N i) (param N i * L))
                               (seq 0 (Z.to_nat N))))).
  { destruct fillnans.
    - rewrite fill_nans_frame_rows
        by (unfold tbl; cbn [columns]; now apply NoDup_profile_columns).
      unfold tbl. cbn [index_name columns rows]. f_equal. f_equal.
      rewrite map_map. apply map_ext. intros i.
      unfold data_row, layer_row. cbn [fst snd]. f_equal.
      rewrite <- (fill_row_fill_down _ _ _
                    (map (fun kv => snd kv (Some (sx + param N i * (ex - sx)))
                                           (Some (sy + param N i * (ey - sy))))
                         layers)).
      f_equal. rewrite length_app, !length_map. reflexivity.
    - reflexivity. }
  rewrite Hfill. cbn [bind].
  destruct data_dict as [items|].
  - destruct Hdata as [Hnd' Hnew'].
    rewrite points_data_rows by assumption. cbn [bind]. reflexivity.
  - cbn [bind]. f_equal. f_equal. rewrite to_frame_map_seq. f_equal.
    apply map_ext. intros i. unfold data_row. cbn [map app].
    now rewrite points_row_dist.
Qed.

Lemma plot_profile_unclipped_tables_witness :
  plot_profile_tables (fun _ => Raise ValueError) "points"
                      (Some (0, 0)) (Some (10, 0)) (Some 1%Z) None None false
                      [("surface"%string, fun x y => cell_add x y);
                       ("bed"%string, fun _ _ => None)]
                      None true false None None
  = Ok (mkDF None ["x"; "y"; "dist"; "surface"; "bed"]%string
          (map (fun i =>
                  layer_row 0 0 10 0
                    [("surface"%string, fun x y => cell_add x y);
                     ("bed"%string, fun _ _ => None)] true i
                    (param 1 i)
                    (param 1 i
                     * sqrt ((10 - 0) * (10 - 0) + (0 - 0) * (0 - 0))))
               (seq 0 1)),
        mkDF None ["x"; "y"; "dist"]%string
          (map (fun i =>
                  data_row 0 0 10 0 [] i (param 1 i)
                    (param 1 i
                     * sqrt ((10 - 0) * (10 - 0) + (0 - 0) * (0 - 0))))
               (seq 0 1))).
Proof.
  refine (plot_profile_unclipped_tables (fun _ => Raise ValueError)
            0 0 10 0 (Some 1%Z) None None false
            [("surface"%string, fun x y => cell_add x y);
             ("bed"%string, fun _ _ => None)]
            None true None None _ _ _).
  - simpl. lia.
  - split.
    + repeat constructor; simpl; intuition discriminate.
    + intros k [<-|[<-|[]]] H; simpl in H; intuition discriminate.
  - exact I.
Defined.

(** ** Regions *)

Lemma py_int_bounds (x : R) :
  (0 <= x -> IZR (py_int x) <= x < IZR (py_int x) + 1)
  /\ (x < 0 -> IZR (py_int x) - 1 < x <= IZR (py_int x)).
Proof.
  unfold py_int. destruct (Rle_dec 0 x) as [H|H].
  - destruct (base_Int_part x) as [H1 H2]. split; intros; lra.
  - destruct (base_Int_part (- x)) as [H1 H2]. rewrite opp_IZR.
    split; intros; lra.
Qed.

(** X20.  [alter_region]: the buffer region has integer bounds, rounded
    towards zero, and for a buffer of at least 1 it contains the altered
    region: its lower bounds are at most, its upper bounds at least, those
    of the altered region, in x and in y. *)
Theorem alter_region_buffer_contains (r : Region)
    (zoom n_shift w_shift buffer : R) :
  1 <= buffer ->
  let '(e, w, n, s) := fst (alter_region r zoom n_shift w_shift buffer) in
  let '(e_buff, w_buff, n_buff, s_buff) :=
    snd (alter_region r zoom n_shift w_shift buffer) in
  IZR e_buff <= e
  /\ w <= IZR w_buff
  /\ IZR n_buff <= n
  /\ s <= IZR s_buff.
Proof.
  destruct r as [[[e w] n] s]. cbn [alter_region fst snd].
  intros Hb.
  assert (Hlow : forall x, IZR (py_int (x - buffer)) <= x).
  { intros x. destruct (py_int_bounds (x - buffer)) as [H1 H2].
    destruct (Rle_dec 0 (x - buffer)) as [H|H].
    - specialize (H1 H). lra.
    - assert (H' : x - buffer < 0) by lra. specialize (H2 H'). lra. }
  assert (Hhigh : forall x, x <= IZR (py_int (x + buffer))).
  { intros x. destruct (py_int_bounds (x + buffer)) as [H1 H2].
    destruct (Rle_dec 0 (x + buffer)) as [H|H].
    - specialize (H1 H). lra.
    - assert (H' : x + buffer < 0) by lra. specialize (H2 H'). lra. }
  repeat split; try apply Hlow; try apply Hhigh.
Qed.

Lemma alter_region_buffer_contains_witness :
  snd (alter_region (0, 10, 0, 20) 0 0 0 3) = ((-3)%Z, 13%Z, (-3)%Z, 23%Z)
  /\ let '(e, w, n, s) := fst (alter_region (0, 10, 0, 20) 0 0 0 3) in
     let '(e_buff, w_buff, n_buff, s_buff) :=
       snd (alter_region (0, 10, 0, 20) 0 0 0 3) in
     IZR e_buff <= e
     /\ w <= IZR w_buff
     /\ IZR n_buff <= n
     /\ s <= IZR s_buff.
Proof.
  split.
  - cbn [alter_region snd].
    replace (0 + 0 + 0 - 3) with (IZR (-3)) by (simpl; lra).
    replace (10 - 0 + 0 + 3) with (IZR 13) by (simpl; lra).
    replace (0 + 0 - 0 - 3) with (IZR (-3)) by (simpl; lra).
    replace (20 - 0 - 0 + 3) with (IZR 23) by (simpl; lra).
    unfold py_int.
    repeat match goal with
           | |- context [Rle_dec 0 ?x] => destruct (Rle_dec 0 x); [try lra|try lra]
           end.
    assert (Hint : forall z, Int_part (IZR z) = z)
      by (intros z; symmetry; apply Int_part_spec; lra).
    rewrite <- !opp_IZR. change 13 with (IZR 13). change 23 with (IZR 23).
    rewrite !Hint. reflexivity.
  - apply (alter_region_buffer_contains (0, 10, 0, 20) 0 0 0 3). lra.
Defined.

(** ** Sampling and shortening *)

Lemma set_nth_app (k : nat) (v a : cell) (l : list cell) :
  (k < List.length l)%nat -> set_nth k v (l ++ [a]) = (set_nth k v l ++ [a])%list.
Proof.
  revert k. induction l as [|c l IH]; intros [|k] H; cbn in *; try lia;
    [reflexivity|].
  f_equal. apply IH. lia.
Qed.

(** X22.  Sampling and shortening commute.  On a profile table (unnamed
    index, no column ["index"], columns [x], [y], [dist]) and for a new
    column name, sampling a grid and then shortening gives what shortening
    and then sampling gives: the same table when rows are left, and
    IndexError both ways when none is. *)
Theorem sample_grids_shorten_commute (df : DataFrame)
    (grid : cell -> cell -> cell) (sampled_name : string)
    (max_dist min_dist : option R) (xs ys : list cell) :
  profile_table df xs ys ->
  has_col df "dist" = true ->
  has_col df sampled_name = false ->
  sampled_name <> "index"%string ->
  (d <- sample_grids_frame df grid sampled_name ;;
   shorten_frame d max_dist min_dist)
  = (d <- shorten_frame df max_dist min_dist ;;
     sample_grids_frame d grid sampled_name).
Proof.
  intros (Hwf & Hidx & Hnoi & Hxs & Hys) Hdist Hnew Hname.
  destruct (getitem_col_pos _ _ _ Hxs) as [kx [Hkx _]].
  destruct (getitem_col_pos _ _ _ Hys) as [ky [Hky _]].
  destruct (In_col_pos "dist" (columns df)) as [kd Hkd];
    [now apply existsb_eqb_In|].
  assert (Nx : "x"%string <> sampled_name).
  { intros <-. rewrite (has_col_false df _ Hnew) in Hkx. discriminate. }
  assert (Ny : "y"%string <> sampled_name).
  { intros <-. rewrite (has_col_false df _ Hnew) in Hky. discriminate. }
  assert (Nd : "dist"%string <> sampled_name).
  { intros <-. rewrite (has_col_false df _ Hnew) in Hkd. discriminate. }
  assert (Lx := col_pos_lt _ _ _ Hkx).
  assert (Ly := col_pos_lt _ _ _ Hky).
  assert (Ld := col_pos_lt _ _ _ Hkd).
  assert (Dx : kx <> kd)
    by (apply (col_pos_distinct "x" "dist" (columns df)); easy).
  assert (Dy : ky <> kd)
    by (apply (col_pos_distinct "y" "dist" (columns df)); easy).
  assert (Hlen : forall r, In r (rows df) ->
            List.length (snd r) = List.length (columns df)).
  { unfold wf in Hwf. now rewrite Forall_forall in Hwf. }
  set (W := fun r : cell * list cell =>
              (fst r, (snd r ++ [grid (row_get kx r) (row_get ky r)])%list)).
  assert (HW : forall r k, In r (rows df) -> (k < List.length (columns df))%nat ->
            row_get k (W r) = row_get k r).
  { intros r k Hr Hk. unfold W, row_get. cbn [snd]. apply app_nth1.
    now rewrite (Hlen r Hr). }
  (* sampling first *)
  rewrite (sample_grids_frame_eq df grid sampled_name kx ky);
    rewrite ?without_column_same by assumption; try assumption.
  cbn [bind].
  rewrite (shorten_frame_eq _ max_dist min_dist kd kx ky)
    by (cbn [with_sampled columns]; now rewrite col_pos_app_other).
  (* shortening first *)
  rewrite (shorten_frame_eq df max_dist min_dist kd kx ky) by assumption.
  cbn zeta. cbn [with_sampled rows columns index_name]. fold W.
  assert (Ed : map (row_get kd) (map W (rows df)) = map (row_get kd) (rows df)).
  { rewrite map_map. apply map_ext_in. intros r Hr. now apply HW. }
  rewrite Ed.
  set (hi := bound_max (map (row_get kd) (rows df)) max_dist).
  set (lo := bound_min (map (row_get kd) (rows df)) min_dist).
  rewrite filter_map_comm.
  rewrite (filter_ext_in
             (fun x => cell_ltb (row_get kd (W x)) hi
                       && cell_ltb lo (row_get kd (W x)))
             (fun r => cell_ltb (row_get kd r) hi && cell_ltb lo (row_get kd r)))
    by (intros r Hr; now rewrite HW).
  set (P := fun r : cell * list cell =>
              cell_ltb (row_get kd r) hi && cell_ltb lo (row_get kd r)).
  assert (Hkept : forall r, In r (filter P (rows df)) -> In r (rows df))
    by (intros r Hr; now apply filter_In in Hr).
  destruct (filter P (rows df)) as [|r0 rest] eqn:Ek; [reflexivity|].
  cbn [map bind].
  set (S0 := fun r : cell * list cell =>
               (fst r, set_nth kd (euclid (row_get kx r) (row_get ky r)
                                          (row_get kx r0) (row_get ky r0))
                               (snd r))).
  set (short := mkDF (index_name df) (columns df) (S0 r0 :: map S0 rest)).
  assert (Hwf' : wf short).
  { unfold wf, short. cbn [rows columns].
    change (S0 r0 :: map S0 rest) with (map S0 (r0 :: rest)).
    apply Forall_forall. intros r Hr. apply in_map_iff in Hr.
    destruct Hr as [q [<- Hq]]. unfold S0. cbn [snd].
    rewrite set_nth_length. apply Hlen, Hkept, Hq. }
  match goal with
  | |- _ = sample_grids_frame ?d _ _ => change d with short
  end.
  rewrite (sample_grids_frame_eq short grid sampled_name kx ky);
    rewrite ?without_column_same by assumption; try assumption.
  f_equal. unfold with_sampled, short. cbn [index_name columns rows].
  f_equal.
  change (S0 r0 :: map S0 rest) with (map S0 (r0 :: rest)).
  rewrite !map_map.
  set (F := fun x : cell * list cell =>
              (fst (W x),
               set_nth kd (euclid (row_get kx (W x)) (row_get ky (W x))
                                  (row_get kx (W r0)) (row_get ky (W r0)))
                       (snd (W x)))).
  match goal with
  | |- _ = ?rhs => change (map F (r0 :: rest) = rhs)
  end.
  apply map_ext_in. intros r Hr. unfold F.
  assert (Hr0 : In r0 (rows df)) by (apply Hkept; now left).
  assert (Hrr : In r (rows df)) by (now apply Hkept).
  rewrite !HW by assumption.
  unfold W, S0. cbn [fst snd]. f_equal.
  rewrite set_nth_app by (now rewrite (Hlen r Hrr)).
  f_equal. f_equal. unfold row_get. cbn [snd].
  now rewrite !nth_set_nth_other by congruence.
Qed.

Lemma sample_grids_shorten_commute_witness :
  (d <- sample_grids_frame profile_0_5_10 (fun x y => cell_add x y) "surface" ;;
   shorten_frame d None None)
  = (d <- shorten_frame profile_0_5_10 None None ;;
     sample_grids_frame d (fun x y => cell_add x y) "surface").
Proof.
  apply (sample_grids_shorten_commute profile_0_5_10 _ "surface" None None
           [Some 0; Some 5; Some 10] [Some 0; Some 0; Some 0]);
    try reflexivity; try discriminate.
  repeat split; try reflexivity. exact profile_0_5_10_wf.
Defined.

(** ** Errors of [create_profile] *)

(** The errors of the resampling of a path whose rows all have a [dist]:
    ValueError, and NotImplementedError exactly for a path without rows and
    a count of one or more. *)
Lemma resample_raises (cubic : list Row -> result (list Row))
    (coords : list Row) (n : Z) (e : exn) :
  (forall df e', cubic df = Raise e' -> e' = ValueError) ->
  Forall (fun r => notna (pdist r) = true) coords ->
  resample cubic coords n = Raise e ->
  e = ValueError
  \/ (e = NotImplementedError /\ coords = [] /\ (1 <= n)%Z).
Proof.
  intros Hcubic Hna. unfold resample.
  destruct (linspace_cell _ _ n) as [L|e1] eqn:E1; cbn [bind].
  2:{ intros [= <-]. left. unfold linspace_cell, linspace in E1.
      destruct (series_min (map pdist coords)) as [a|];
        [destruct (series_max (map pdist coords)) as [b|]|];
        destruct (n <? 0)%Z; cbn [bind] in E1; try (now injection E1);
        try discriminate; destruct (0 <? n - 1)%Z; discriminate. }
  destruct (reindex coords _) as [df0|e2] eqn:E2; cbn [bind].
  2:{ intros [= <-]. left. unfold reindex in E2.
      destruct (cells_eqb _ _); [discriminate|].
      destruct (has_duplicates _); [now injection E2|discriminate]. }
  destruct (interpolate cubic df0) as [df1|e3] eqn:E3; cbn [bind];
    [discriminate|].
  intros [= <-]. unfold interpolate in E3.
  destruct df0 as [|r0 t0] eqn:Edf; [discriminate|]. rewrite <- Edf in *.
  destruct (existsb (fun r => isna (pdist r)) df0) eqn:Enan.
  2:{ left. destruct (forallb known df0); [discriminate|].
      now apply Hcubic in E3. }
  injection E3 as <-. right. split; [reflexivity|].
  apply reindex_index in E2.
  apply existsb_exists in Enan. destruct Enan as [x [Hx Hn]].
  assert (Hc : In (pdist x) (index_union (map pdist coords) L))
    by (rewrite <- E2; now apply in_map).
  unfold index_union in Hc.
  apply (Permutation_in _ (sort_cells_perm _)) in Hc.
  apply in_app_or in Hc. destruct Hc as [Hc|Hc].
  { exfalso. apply in_map_iff in Hc. destruct Hc as [y [Ey Hy]].
    rewrite Forall_forall in Hna. specialize (Hna y Hy).
    unfold notna in Hna. rewrite Ey, Hn in Hna. discriminate. }
  apply (labels_minus_incl (map pdist coords) L) in Hc.
  destruct coords as [|c0 rest] eqn:Ec.
  - split; [reflexivity|]. cbn [map series_min series_max linspace_cell] in E1.
    destruct (n <? 0)%Z eqn:En; [discriminate|]. injection E1 as <-.
    apply Z.ltb_ge in En. destruct (Z.to_nat n) eqn:Et; [easy|lia].
  - exfalso. rewrite <- Ec in *.
    assert (Hall : Forall (fun c => notna c = true) (map pdist coords)).
    { rewrite Forall_forall in *. intros c Hc'. apply in_map_iff in Hc'.
      destruct Hc' as [y [<- Hy]]. now apply Hna. }
    destruct (series_extremes (map pdist coords)) as
      (lo & hi & Hlo & Hhi & Ilo & Ihi & Hb);
      [now rewrite Ec|exact Hall|].
    rewrite Hlo, Hhi in E1.
    assert (Hle : lo <= hi) by (destruct (Hb lo Ilo); lra).
    destruct (linspace_cell_range lo hi n L Hle E1) as (_ & _ & Hin & _).
    destruct (Hin _ Hc) as [v [E _]]. rewrite E in Hn. discriminate.
Qed.

Lemma no_rows_dec (coords : list Row) (num : option Z) :
  {coords = [] /\ exists n, num = Some n /\ (1 <= n)%Z}
  + {~ (coords = [] /\ exists n, num = Some n /\ (1 <= n)%Z)}.
Proof.
  destruct coords as [|r t]; [|right; intros [H _]; discriminate].
  destruct num as [n|]; [|right; intros [_ [n [H _]]]; discriminate].
  destruct (Z_le_dec 1 n) as [H|H].
  - left. split; [reflexivity|]. now exists n.
  - right. intros [_ [m [[= <-] Hm]]]. contradiction.
Qed.

(** A vertex mode on its un-resampled rows [coords]: a table, or
    NotImplementedError for no rows and a count of one or more. *)
Lemma vertex_mode_result (cubic : list Row -> result (list Row))
    (coords : list Row) (num : option Z) :
  (forall df e', cubic df = Raise e' -> e' = ValueError) ->
  Forall (fun r => notna (pdist r) = true) coords ->
  let call := try_except (match num with
                          | Some n => resample cubic coords n
                          | None => Ok coords
                          end) ValueError (Ok coords) in
  (coords = [] /\ (exists n, num = Some n /\ (1 <= n)%Z) ->
   call = Raise NotImplementedError)
  /\ (~ (coords = [] /\ (exists n, num = Some n /\ (1 <= n)%Z)) ->
      exists out, call = Ok out).
Proof.
  intros Hcubic Hna call. unfold call. split.
  - intros [-> [n [-> Hn]]]. now rewrite resample_empty_path.
  - intros Hnot. destruct num as [n|]; [|now exists coords].
    destruct (resample cubic coords n) as [out|e] eqn:E; [now exists out|].
    destruct (resample_raises _ _ _ _ Hcubic Hna E) as [->|(-> & Hc & Hn)].
    + now exists coords.
    + exfalso. apply Hnot. split; [exact Hc|]. now exists n.
Qed.

(** X23.  The errors of [create_profile], when the spline raises nothing
    but ValueError.  The call raises ValueError exactly for a method that is
    not one of the three, for "points" without [start] or [stop] or with a
    negative sample count, for "shapefile" without a shapefile and for
    "polyline" without a polyline (a source given for the other method does
    not count).  "points" with a sample count of 0 raises IndexError.  A
    vertex mode with its source given raises NotImplementedError when the
    source gives no row (one vertex or none) and [num] is one or more, and
    returns a table in every other case.  There is no other error. *)
Theorem create_profile_errors (cubic : list Row -> result (list Row))
    (method : string) (start stop : option (R * R)) (num : option Z)
    (shapefile polyline : option (list Vertex)) (reverse : bool) :
  (forall df e, cubic df = Raise e -> e = ValueError) ->
  let N := match num with None => 1000%Z | Some n => n end in
  let call := create_profile cubic method start stop num shapefile polyline
                             reverse in
  let no_rows := fun source : option (list Vertex) =>
    exists vs n, source = Some vs /\ cum_dist vs reverse = []
                 /\ num = Some n /\ (1 <= n)%Z in
  (call = Raise ValueError
   <-> (~ In method methods
        \/ (method = "points"%string
            /\ (start = None \/ stop = None \/ (N < 0)%Z))
        \/ (method = "shapefile"%string /\ shapefile = None)
        \/ (method = "polyline"%string /\ polyline = None)))
  /\ (call = Raise NotImplementedError
      <-> ((method = "shapefile"%string /\ no_rows shapefile)
           \/ (method = "polyline"%string /\ no_rows polyline)))
  /\ (forall e, call = Raise e ->
        e = ValueError \/ e = NotImplementedError
        \/ (e = IndexError /\ method = "points"%string /\ N = 0%Z)).
Proof.
  intros Hcubic N call no_rows. unfold call.
  assert (Hempty : forall vs, sort_values (cum_dist vs reverse) = [] <->
                              cum_dist vs reverse = []).
  { intros vs. pose proof (sort_values_perm (cum_dist vs reverse)) as Hp.
    split; intros H.
    - rewrite H in Hp. apply Permutation_nil. exact Hp.
    - rewrite H. reflexivity. }
  destruct (string_dec method "points") as [->|Np].
  { (* points *)
    assert (Hin : In "points"%string methods) by (now left).
    assert (Hnie : ~ (("points"%string = "shapefile"%string /\ no_rows shapefile)
                      \/ ("points"%string = "polyline"%string
                          /\ no_rows polyline)))
      by (intros [[H _]|[H _]]; discriminate).
    destruct start as [[sx sy]|], stop as [[ex ey]|];
      try (split; [split; [intros _; right; left; split; [reflexivity|auto]
                          |reflexivity]
                  |split; [split; [discriminate|intros H; now apply Hnie in H]
                          |intros e [= <-]; now left]]).
    destruct (Z_lt_dec N 0) as [Hneg|Hnn].
    - assert (E : create_profile cubic "points" (Some (sx, sy)) (Some (ex, ey))
                    num shapefile polyline reverse = Raise ValueError).
      { unfold create_profile, linspace.
        cbn [methods existsb String.eqb Ascii.eqb Bool.eqb negb orb andb].
        fold N.
        replace (N <? 0)%Z with true by (symmetry; now apply Z.ltb_lt).
        reflexivity. }
      rewrite E. split; [|split].
      + split; [|reflexivity]. intros _. right. left. auto.
      + split; [discriminate|intros H; now apply Hnie in H].
      + intros e [= <-]; now left.
    - destruct (Z.eq_dec N 0) as [H0|H0].
      + assert (E : create_profile cubic "points" (Some (sx, sy))
                      (Some (ex, ey)) num shapefile polyline reverse
                    = Raise IndexError).
        { unfold create_profile.
          cbn [methods existsb String.eqb Ascii.eqb Bool.eqb negb orb andb].
          fold N. rewrite H0. reflexivity. }
        rewrite E. split; [|split].
        * split; [discriminate|].
          intros [H|[[_ [H|[H|H]]]|[[H _]|[H _]]]]; try discriminate;
            try contradiction; lia.
        * split; [discriminate|intros H; now apply Hnie in H].
        * intros e [= <-]. right. right. auto.
      + rewrite (create_profile_points_rows cubic sx sy ex ey num)
          by (fold N; lia).
        split; [|split].
        * split; [discriminate|].
          intros [H|[[_ [H|[H|H]]]|[[H _]|[H _]]]]; try discriminate;
            try contradiction; try (fold N in H; lia).
        * split; [discriminate|intros H; now apply Hnie in H].
        * discriminate. }
  destruct (string_dec method "shapefile") as [->|Ns].
  { assert (Hin : In "shapefile"%string methods) by (right; now left).
    destruct shapefile as [shp|].
    - destruct (vertex_mode_result cubic (sort_values (cum_dist shp reverse))
                  num Hcubic (unresampled_notna shp reverse)) as [Hbad Hgood].
      change (try_except _ ValueError _)
        with (create_profile cubic "shapefile" start stop num (Some shp)
                polyline reverse) in Hbad, Hgood.
      destruct (no_rows_dec (sort_values (cum_dist shp reverse)) num)
        as [Hc|Hc].
      + rewrite (Hbad Hc). destruct Hc as [Hc [n [Hn H1]]].
        apply Hempty in Hc.
        split; [|split].
        * split; [discriminate|].
          intros [H|[[H _]|[[_ H]|[H _]]]]; try discriminate; contradiction.
        * split; [|reflexivity]. intros _. left. split; [reflexivity|].
          now exists shp, n.
        * intros e [= <-]. right. now left.
      + destruct (Hgood Hc) as [out ->]. split; [|split].
        * split; [discriminate|].
          intros [H|[[H _]|[[_ H]|[H _]]]]; try discriminate; contradiction.
        * split; [discriminate|].
          intros [[_ (vs & n & [= <-] & H1 & H2 & H3)]|[H _]];
            [|discriminate].
          exfalso. apply Hc. split; [now apply Hempty|]. now exists n.
        * discriminate.
    - split; [|split].
      + split; [|reflexivity]. intros _. right. right. left. auto.
      + split; [discriminate|].
        intros [[_ (vs & n & H & _)]|[H _]]; discriminate.
      + intros e [= <-]; now left. }
  destruct (string_dec method "polyline") as [->|Nl].
  { assert (Hin : In "polyline"%string methods) by (right; right; now left).
    destruct polyline as [pl|].
    - destruct (vertex_mode_result cubic (sort_values (cum_dist pl reverse))
                  num Hcubic (unresampled_notna pl reverse)) as [Hbad Hgood].
      change (try_except _ ValueError _)
        with (create_profile cubic "polyline" start stop num shapefile
                (Some pl) reverse) in Hbad, Hgood.
      destruct (no_rows_dec (sort_values (cum_dist pl reverse)) num)
        as [Hc|Hc].
      + rewrite (Hbad Hc). destruct Hc as [Hc [n [Hn H1]]].
        apply Hempty in Hc.
        split; [|split].
        * split; [discriminate|].
          intros [H|[[H _]|[[H _]|[_ H]]]]; try discriminate; contradiction.
        * split; [|reflexivity]. intros _. right. split; [reflexivity|].
          now exists pl, n.
        * intros e [= <-]. right. now left.
      + destruct (Hgood Hc) as [out ->]. split; [|split].
        * split; [discriminate|].
          intros [H|[[H _]|[[H _]|[_ H]]]]; try discriminate; contradiction.
        * split; [discriminate|].
          intros [[H _]|[_ (vs & n & [= <-] & H1 & H2 & H3)]];
            [discriminate|].
          exfalso. apply Hc. split; [now apply Hempty|]. now exists n.
        * discriminate.
    - split; [|split].
      + split; [|reflexivity]. intros _. right. right. right. auto.
      + split; [discriminate|].
        intros [[H _]|[_ (vs & n & H & _)]]; discriminate.
      + intros e [= <-]; now left. }
  assert (Hnot : ~ In method methods).
  { intros [H|[H|[H|[]]]]; congruence. }
  assert (E : create_profile cubic method start stop num shapefile polyline
                reverse = Raise ValueError).
  { unfold create_profile.
    replace (existsb (String.eqb method) methods) with false; [reflexivity|].
    symmetry. destruct (existsb (String.eqb method) methods) eqn:Ex;
      [|reflexivity].
    exfalso. apply Hnot. now apply existsb_eqb_In. }
  rewrite E. split; [|split].
  - split; [|reflexivity]. intros _. now left.
  - split; [discriminate|]. intros [[H _]|[H _]]; contradiction.
  - intros e [= <-]; now left.
Qed.

Lemma create_profile_errors_witness :
  create_profile (fun _ => Raise ValueError) "polyline" None None
                 (Some 3%Z) None (Some [mkVertex (Some 0) (Some 0)]) false
  = Raise NotImplementedError.
Proof.
  apply (proj1 (proj2 (create_profile_errors (fun _ => Raise ValueError)
                         "polyline" None None (Some 3%Z) None
                         (Some [mkVertex (Some 0) (Some 0)])
                         false ltac:(intros df e [= <-]; reflexivity)))).
  right. split; [reflexivity|].
  exists [mkVertex (Some 0) (Some 0)], 3%Z.
  repeat split; try reflexivity. lia.
Defined.

(** ** The layer table of [plot_profile] and the profile *)

(** The sampling loop on objects: it changes no table that exists, returns
    the reference it was given or a newer one, and leaves there what the
    loop computes on values. *)
Lemma sample_loop_spec (items : list (string * (cell -> cell -> cell))) :
  forall (h : heap) (df : loc),
    (df < List.length h)%nat ->
    (forall k, (k < List.length h)%nat ->
       deref (snd (sample_loop h df items)) k = deref h k)
    /\ match fst (sample_loop h df items) with
       | Ok l =>
           (df <= l < List.length (snd (sample_loop h df items)))%nat
           /\ sample_all (deref h df) items
              = Ok (deref (snd (sample_loop h df items)) l)
       | Raise e => sample_all (deref h df) items = Raise e
       end.
Proof.
  induction items as [|[k v] rest IH]; intros h df Hdf.
  - cbn [sample_loop fst snd]. split; [reflexivity|]. split; [lia|reflexivity].
  - cbn [sample_loop]. rewrite sample_grids_store, sample_all_cons.
    cbn [fst snd].
    destruct (sample_grids_frame (deref h df) v k) as [out|e];
      [|cbn [fst snd]; split; reflexivity].
    destruct (IH (h ++ [out])%list (List.length h)) as [Hold Hres].
    { rewrite length_app. cbn. lia. }
    rewrite deref_alloc in Hres. split.
    + intros j Hj. rewrite Hold by (rewrite length_app; cbn; lia).
      now apply deref_old.
    + destruct (fst (sample_loop (h ++ [out]) (List.length h) rest));
        [|exact Hres].
      destruct Hres as [Hl Hv]. split; [lia|exact Hv].
Qed.

Lemma fill_nans_snd (h : heap) (l : loc) :
  snd (fill_nans h l)
  = snd (fill_nans_iter (skipn 3 (columns (deref h l)))
           (combine (seq 0 (List.length (skipn 3 (columns (deref h l)))))
                    (skipn 3 (columns (deref h l)))) l h).
Proof.
  unfold fill_nans. now destruct (fill_nans_iter _ _ l h) as [[u|e] h'].
Qed.

(** X24.  [plot_profile] fills the layers in place, but never in the
    profile.  The layer table starts as a copy of the profile, every
    sampling returns a new table, and [fill_nans] assigns into the last of
    them: after the three steps every table that existed before, the
    profile included, is unchanged, with or without layers and whether a
    step raises or not; the table returned is a new object; and it holds
    what sampling the layers in order and filling them computes from the
    profile. *)
Theorem plot_profile_layers_fresh (h : heap) (points : loc)
    (layers_dict : list (string * (cell -> cell -> cell)))
    (fillnans : bool) :
  (points < List.length h)%nat ->
  let run := plot_profile_layers h points layers_dict fillnans in
  (forall k, (k < List.length h)%nat -> deref (snd run) k = deref h k)
  /\ (forall l, fst run = Ok l -> (List.length h <= l)%nat)
  /\ (forall d,
        (m <- sample_all (deref h points) layers_dict ;;
         if fillnans then fill_nans_frame m else Ok m) = Ok d ->
        exists l, fst run = Ok l /\ deref (snd run) l = d).
Proof.
  intros Hp run. unfold run, plot_profile_layers, copy, alloc.
  destruct (sample_loop_spec layers_dict (h ++ [deref h points])%list
              (List.length h)) as [Hold Hres].
  { rewrite length_app. cbn. lia. }
  rewrite deref_alloc in Hres.
  assert (Hold' : forall k, (k < List.length h)%nat ->
            deref (snd (sample_loop (h ++ [deref h points])
                                    (List.length h) layers_dict)) k
            = deref h k).
  { intros k Hk. rewrite Hold by (rewrite length_app; cbn; lia).
    now apply deref_old. }
  destruct (sample_loop (h ++ [deref h points]) (List.length h) layers_dict)
    as [[l|e] h2]; cbn [fst snd] in *.
  2:{ split; [exact Hold'|]. split; [discriminate|].
      intros d Hd. rewrite Hres in Hd. discriminate. }
  destruct Hres as [Hl Hv]. rewrite Hv. cbn [bind].
  destruct fillnans.
  - split; [|split].
    + intros k Hk. rewrite fill_nans_snd, fill_nans_iter_others by lia.
      now apply Hold'.
    + intros l' Hl'. unfold fill_nans in Hl'.
      destruct (fill_nans_iter _ _ l h2) as [[u|e] h']; cbn [fst] in Hl';
        [injection Hl' as <-; lia|discriminate].
    + intros d Hd. exists l. unfold fill_nans.
      rewrite (fill_nans_iter_store _ _ h2 l d) by (try lia; exact Hd).
      cbn [fst snd]. split; [reflexivity|].
      apply deref_store_same. lia.
  - cbn [fst snd]. split; [exact Hold'|]. split.
    + intros l' [= <-]. lia.
    + intros d [= <-]. now exists l.
Qed.

Lemma plot_profile_layers_fresh_witness :
  deref (snd (plot_profile_layers [layers_with_gaps] 0%nat [] true)) 0%nat
  = deref [layers_with_gaps] 0%nat.
Proof.
  apply (proj1 (plot_profile_layers_fresh [layers_with_gaps] 0%nat [] true
                  ltac:(simpl; lia))).
  simpl. lia.
Defined.

(** ** [plot_data] on a path of vertices *)

(** [shorten] without bounds returns at least one row and at least two
    rows less than it was given, or raises IndexError. *)
Lemma shorten_frame_default_rows (df : DataFrame) (kd kx ky : nat) :
  col_pos "dist" (columns df) = Some kd ->
  col_pos "x" (columns df) = Some kx ->
  col_pos "y" (columns df) = Some ky ->
  match shorten_frame df None None with
  | Ok out =>
      (1 <= List.length (rows out))%nat
      /\ (List.length (rows out) + 2 <= List.length (rows df))%nat
  | Raise e => e = IndexError
  end.
Proof.
  intros Hd Hx Hy.
  rewrite (shorten_frame_eq df None None kd kx ky Hd Hx Hy).
  cbn zeta. cbn [bound_max bound_min].
  set (dist := map (row_get kd) (rows df)).
  set (P := fun r : cell * list cell =>
              cell_ltb (row_get kd r) (series_max dist)
              && cell_ltb (series_min dist) (row_get kd r)).
  destruct (filter P (rows df)) as [|r0 rest] eqn:Hkept; [reflexivity|].
  cbn [rows]. rewrite length_map. split; [cbn; lia|].
  rewrite <- Hkept.
  assert (H0 : In r0 (filter P (rows df))) by (rewrite Hkept; now left).
  apply filter_In in H0. destruct H0 as [Hin HP].
  unfold P in HP. apply inside_mask in HP.
  destruct HP as (lo & hi & v & Hlo & Hhi & Hv & Hlt).
  pose proof (series_min_In _ _ Hlo) as Ilo.
  pose proof (series_max_In _ _ Hhi) as Ihi.
  unfold dist in Ilo, Ihi. apply in_map_iff in Ilo, Ihi.
  destruct Ilo as [rl [El Il]]. destruct Ihi as [rh [Eh Ih]].
  apply (two_rejected P (rows df) rl rh); try assumption.
  - intros E. subst rh. rewrite El in Eh. injection Eh as Eh. lra.
  - unfold P. rewrite El, Hhi, Hlo. cbn [cell_ltb].
    replace (Rltb lo lo) with false by (symmetry; apply Rltb_false; lra).
    apply andb_false_r.
  - unfold P. rewrite Eh, Hhi, Hlo. cbn [cell_ltb].
    replace (Rltb hi hi) with false by (symmetry; apply Rltb_false; lra).
    reflexivity.
Qed.

Lemma vertex_profile_no_num (cubic : list Row -> result (list Row))
    (from_shapefile : bool) (vs : list Vertex) (reverse : bool) :
  vertex_profile cubic from_shapefile vs None reverse
  = Ok (cum_dist vs reverse).
Proof.
  rewrite vertex_profile_eq. unfold unresampled.
  destruct (cumsum_rows_ascending (rel_dist vs reverse)
              (rel_dist_present vs reverse) 0) as [_ H2].
  cbn zeta in H2.
  now rewrite (sort_values_sorted (cum_dist vs reverse) H2).
Qed.

Lemma cum_dist_length (vs : list Vertex) (reverse : bool) :
  (List.length (cum_dist vs reverse) <= List.length vs - 1)%nat.
Proof.
  unfold cum_dist. rewrite length_map, length_combine.
  unfold cumsum. rewrite cumsum_from_length, length_map, Nat.min_id.
  apply rel_dist_length.
Qed.

(** X25.  [plot_data] on a path of vertices, without [num], [clip] or
    bounds, for a data dictionary with distinct keys other than [x], [y],
    [dist], [index]: the first vertex has no row in the profile and the
    shortening takes the two ends away, so the table has at least three
    rows less than there are vertices; the only error is IndexError, and a
    path of three vertices or fewer always raises it. *)
Theorem plot_data_short_path (cubic : list Row -> result (list Row))
    (from_shapefile : bool) (vs : list Vertex) (reverse : bool)
    (items : list (string * (cell -> cell -> cell))) :
  NoDup (map fst items) ->
  (forall k, In k (map fst items) ->
     ~ In k ["x"; "y"; "dist"; "index"]%string) ->
  let call :=
    plot_data_table cubic
      (if from_shapefile then "shapefile" else "polyline")%string
      None None None
      (if from_shapefile then Some vs else None)
      (if from_shapefile then None else Some vs)
      reverse items false None None in
  match call with
  | Ok out =>
      (1 <= List.length (rows out))%nat
      /\ (List.length (rows out) + 3 <= List.length vs)%nat
  | Raise e => e = IndexError
  end
  /\ ((List.length vs <= 3)%nat -> call = Raise IndexError).
Proof.
  intros Hnd Hnew call.
  assert (Main : match call with
                 | Ok out =>
                     (1 <= List.length (rows out))%nat
                     /\ (List.length (rows out) + 3 <= List.length vs)%nat
                 | Raise e => e = IndexError
                 end).
  { unfold call, plot_data_table.
    assert (E : create_profile cubic
                  (if from_shapefile then "shapefile" else "polyline")%string
                  None None None
                  (if from_shapefile then Some vs else None)
                  (if from_shapefile then None else Some vs) reverse
                = Ok (cum_dist vs reverse)).
    { rewrite <- (vertex_profile_no_num cubic from_shapefile vs reverse).
      unfold vertex_profile. now destruct from_shapefile. }
    rewrite E. cbn [bind].
    destruct (to_frame_profile_table (cum_dist vs reverse))
      as (Hwf & Hidx & Hnoi & _ & _).
    rewrite (sample_all_rows items _ 0%nat 1%nat); try reflexivity;
      try assumption.
    2:{ intros k Hk. specialize (Hnew k Hk). split.
        - apply (fresh_label _ k ["x"; "y"; "dist"]%string); [reflexivity|].
          intros H. apply Hnew. cbn in H |- *. intuition.
        - intros ->. apply Hnew. cbn. intuition. }
    cbn [bind].
    match goal with
    | |- match shorten_frame ?d None None with _ => _ end =>
        pose proof (shorten_frame_default_rows d 2%nat 0%nat 1%nat
                      eq_refl eq_refl eq_refl) as Hs;
        destruct (shorten_frame d None None) as [out|e]; [|exact Hs]
    end.
    cbn [rows] in Hs. rewrite length_map in Hs.
    assert (Hrows : List.length (rows (to_frame (cum_dist vs reverse)))
                    = List.length (cum_dist vs reverse)).
    { rewrite <- (length_map fst), to_frame_labels.
      apply range_index_length. }
    rewrite Hrows in Hs. pose proof (cum_dist_length vs reverse). lia. }
  split; [exact Main|].
  intros H3. destruct call as [out|e]; [lia|now subst e].
Qed.

Lemma plot_data_short_path_witness :
  plot_data_table (fun _ => Raise ValueError) "polyline" None None None None
    (Some [mkVertex (Some 0) (Some 0); mkVertex (Some 3) (Some 4);
           mkVertex (Some 3) (Some 9)])
    false [("0"%string, fun x y => cell_add x y)] false None None
  = Raise IndexError.
Proof.
  refine (proj2 (plot_data_short_path (fun _ => Raise ValueError) false
                   [mkVertex (Some 0) (Some 0); mkVertex (Some 3) (Some 4);
                    mkVertex (Some 3) (Some 9)]
                   false [("0"%string, fun x y => cell_add x y)] _ _) _).
  - repeat constructor; simpl; intuition.
  - intros k [<-|[]] H. simpl in H. intuition discriminate.
  - simpl. lia.
Defined.
